(** * Mission Control: the ordered lane engine and the import reconciliation engine

    A shallow embedding of [src/lib/types.ts], [src/lib/store.ts] and
    [src/lib/imports.ts].  The SQLite tables are lists of rows in insertion
    (rowid) order; every SQL statement of the store is a function on those
    lists.  Clock readings ([new Date().toISOString()]) and generated
    identifiers ([createId]) are inputs of the operation that performs them. *)

From Stdlib Require Import List String Ascii ZArith QArith Qround Bool Arith Lia Permutation.
Import ListNotations.


(** ** The JavaScript runtime: strings

    Strings are sequences of code units below 256, which is where the
    classes used by the source ([a-z0-9], [\s], [A-Z]) live. *)
Module Js.

Definition code (c : ascii) : nat := nat_of_ascii c.

(** [\s] and the characters [trim] removes: TAB, LF, VT, FF, CR, SPACE, NBSP. *)
Definition isSpace (c : ascii) : bool :=
  ((9 <=? code c) && (code c <=? 13)) || (code c =? 32) || (code c =? 160).

Definition isLowerAlnum (c : ascii) : bool :=
  ((97 <=? code c) && (code c <=? 122)) || ((48 <=? code c) && (code c <=? 57)).

Definition lowerChar (c : ascii) : ascii :=
  if (65 <=? code c) && (code c <=? 90) then ascii_of_nat (code c + 32) else c.

Definition chars : string -> list ascii := list_ascii_of_string.
Definition str : list ascii -> string := string_of_list_ascii.

Definition toLowerCase (s : string) : string := str (map lowerChar (chars s)).

Fixpoint trimStartChars (l : list ascii) : list ascii :=
  match l with
  | c :: l' => if isSpace c then trimStartChars l' else l
  | [] => []
  end.

Definition trimChars (l : list ascii) : list ascii :=
  rev (trimStartChars (rev (trimStartChars l))).

Definition trim (s : string) : string := str (trimChars (chars s)).

(** [s.split(sep)] for a one-character separator. *)
Fixpoint splitChars (sep : ascii) (l : list ascii) : list (list ascii) :=
  match l with
  | [] => [[]]
  | c :: l' =>
      if Ascii.eqb c sep then [] :: splitChars sep l'
      else match splitChars sep l' with
           | h :: t => (c :: h) :: t
           | [] => [[c]]
           end
  end.

Definition split (sep : ascii) (s : string) : list string :=
  map str (splitChars sep (chars s)).

Definition LF : ascii := ascii_of_nat 10.
Definition CR : ascii := ascii_of_nat 13.

(** [s.split(/\r?\n/)]: a CR directly before a LF belongs to the separator. *)
Fixpoint splitLineChars (l : list ascii) : list (list ascii) :=
  match l with
  | [] => [[]]
  | c :: l' =>
      if Ascii.eqb c LF then [] :: splitLineChars l'
      else if Ascii.eqb c CR && match l' with d :: _ => Ascii.eqb d LF | [] => false end
      then splitLineChars l'
      else match splitLineChars l' with
           | h :: t => (c :: h) :: t
           | [] => [[c]]
           end
  end.

Definition splitLines (s : string) : list string := map str (splitLineChars (chars s)).

(** [s.replace(/[^a-z0-9\s]/g, " ")] *)
Definition blankNonAlnum (l : list ascii) : list ascii :=
  map (fun c => if isLowerAlnum c || isSpace c then c else " "%char) l.

(** [s.replace(/\s+/g, " ")]; [inRun] says the previous character was
    part of the whitespace run being replaced. *)
Fixpoint collapseSpaces (inRun : bool) (l : list ascii) : list ascii :=
  match l with
  | [] => []
  | c :: l' =>
      if isSpace c
      then (if inRun then collapseSpaces true l' else " "%char :: collapseSpaces true l')
      else c :: collapseSpaces false l'
  end.

(** [arr.join(sep)] *)
Definition join (sep : string) (l : list string) : string := String.concat sep l.

(** A [Set<string>] in insertion order. *)
Definition setAdd (x : string) (s : list string) : list string :=
  if existsb (String.eqb x) s then s else s ++ [x].

Definition setHas (s : list string) (x : string) : bool := existsb (String.eqb x) s.

(** [Array.from(new Set(arr))] *)
Definition dedupe (l : list string) : list string :=
  fold_left (fun s x => setAdd x s) l [].

(** [arr.forEach((x, index) => ...)] threading the state it mutates. *)
Fixpoint forEachIndex {A S : Type} (f : A -> nat -> S -> S) (l : list A) (i : nat) (s : S) : S :=
  match l with
  | [] => s
  | x :: l' => forEachIndex f l' (Datatypes.S i) (f x i s)
  end.

End Js.

(** ** [src/lib/types.ts] *)

Inductive SourceType := mission_control | apple_reminders | apple_notes | chatgpt | claude.
Inductive ProjectStatus := ps_planned | ps_active | ps_blocked | ps_done | ps_archived.
Inductive TaskStatus := todo | in_progress | blocked | parking_lot | done.
Inductive Priority := low | medium | high | urgent.
Inductive Recurrence := none | daily | weekly.
Inductive ContentParentType := parent_project | parent_task.

Scheme Equality for SourceType.
Scheme Equality for TaskStatus.
Scheme Equality for Recurrence.
Scheme Equality for ContentParentType.

Module Project.
Record t := mk {
  id : string;
  title : string;
  description : option string;
  status : ProjectStatus;
  dueDate : option string;
  completionPercent : Z;
  source : SourceType;
  createdAt : string;
  updatedAt : string
}.
End Project.

Module Task.
Record t := mk {
  id : string;
  title : string;
  details : option string;
  status : TaskStatus;
  priority : Priority;
  dueDate : option string;
  scheduledAt : option string;
  completedAt : option string;
  projectId : string;
  source : SourceType;
  order : Z;
  recurrence : Recurrence;
  createdAt : string;
  updatedAt : string
}.
End Task.

(** The columns of [content_entries] that the task and project operations
    read or write. *)
Module ContentEntry.
Record t := mk {
  id : string;
  parentType : ContentParentType;
  parentId : string
}.
End ContentEntry.

Inductive ActivityEntity := act_project | act_task | act_content | act_import.

(** A row of [activity], without its generated id, payload and timestamp. *)
Module Activity.
Record t := mk {
  entityType : ActivityEntity;
  entityId : string;
  action : string
}.
End Activity.

(** ** The JavaScript runtime: [Date]

    [addRecurrenceDate] parses a stored string with [new Date], shifts the
    local calendar day with [setDate(getDate() + k)] and prints the result
    with [toISOString].  The three are the runtime's; a time value is a
    count of milliseconds. *)
Class JsDate := {
  parseDate : string -> option Z;
  addLocalDays : Z -> Z -> Z;
  toISOString : Z -> string
}.

(** ** SQL helpers *)
Module Sql.

Definition lex (c1 c2 : comparison) : comparison :=
  match c1 with Eq => c2 | _ => c1 end.

Definition le_of {A : Type} (cmp : A -> A -> comparison) (a b : A) : bool :=
  match cmp a b with Gt => false | _ => true end.

Fixpoint insert_by {A : Type} (le : A -> A -> bool) (x : A) (l : list A) : list A :=
  match l with
  | [] => [x]
  | y :: l' => if le x y then x :: l else y :: insert_by le x l'
  end.

(** [ORDER BY].  Where the ordering terms leave two rows equal SQLite may
    return them either way; the model keeps their table order. *)
Definition order_by {A : Type} (cmp : A -> A -> comparison) (l : list A) : list A :=
  fold_right (insert_by (le_of cmp)) [] l.

(** [UPDATE ... SET ... WHERE p] *)
Definition update_where {A : Type} (p : A -> bool) (f : A -> A) (rows : list A) : list A :=
  map (fun r => if p r then f r else r) rows.

(** [DELETE FROM ... WHERE p] *)
Definition delete_where {A : Type} (p : A -> bool) (rows : list A) : list A :=
  filter (fun r => negb (p r)) rows.

End Sql.

(** ** [src/lib/store.ts] *)
Module Store.
Import Sql.
Local Open Scope string_scope.
Local Open Scope Z_scope.

Record Db := mkDb {
  projects : list Project.t;
  tasks : list Task.t;
  content_entries : list ContentEntry.t;
  activity : list Activity.t
}.

Definition INBOX_PROJECT_ID : string := "proj-inbox".
Definition TASK_STATUSES : list TaskStatus := [todo; in_progress; blocked; parking_lot; done].
Definition RECURRENCES : list Recurrence := [none; daily; weekly].

(** [RECURRENCES.includes(r)] *)
Definition includesRecurrence (r : Recurrence) : bool := existsb (Recurrence_beq r) RECURRENCES.

(** The text stored in the [status] column. *)
Definition status_text (s : TaskStatus) : string :=
  match s with
  | todo => "todo"
  | in_progress => "in_progress"
  | blocked => "blocked"
  | parking_lot => "parking_lot"
  | done => "done"
  end.

Definition set_projects (ps : list Project.t) (db : Db) : Db :=
  mkDb ps (tasks db) (content_entries db) (activity db).
Definition set_tasks (ts : list Task.t) (db : Db) : Db :=
  mkDb (projects db) ts (content_entries db) (activity db).
Definition set_content_entries (cs : list ContentEntry.t) (db : Db) : Db :=
  mkDb (projects db) (tasks db) cs (activity db).

Definition with_order (i : Z) (t : Task.t) : Task.t :=
  Task.mk (Task.id t) (Task.title t) (Task.details t) (Task.status t) (Task.priority t)
    (Task.dueDate t) (Task.scheduledAt t) (Task.completedAt t) (Task.projectId t)
    (Task.source t) i (Task.recurrence t) (Task.createdAt t) (Task.updatedAt t).

Definition with_status_updated (s : TaskStatus) (ts : string) (t : Task.t) : Task.t :=
  Task.mk (Task.id t) (Task.title t) (Task.details t) s (Task.priority t)
    (Task.dueDate t) (Task.scheduledAt t) (Task.completedAt t) (Task.projectId t)
    (Task.source t) (Task.order t) (Task.recurrence t) (Task.createdAt t) ts.

Definition with_project (p : string) (t : Task.t) : Task.t :=
  Task.mk (Task.id t) (Task.title t) (Task.details t) (Task.status t) (Task.priority t)
    (Task.dueDate t) (Task.scheduledAt t) (Task.completedAt t) p
    (Task.source t) (Task.order t) (Task.recurrence t) (Task.createdAt t) (Task.updatedAt t).

Definition has_id (id : string) (t : Task.t) : bool := String.eqb (Task.id t) id.
Definition in_lane (s : TaskStatus) (t : Task.t) : bool := TaskStatus_beq (Task.status t) s.

(** [SELECT ... FROM tasks WHERE status = ?], in table order. *)
Definition lane (s : TaskStatus) (rows : list Task.t) : list Task.t := filter (in_lane s) rows.

(** [ORDER BY order_index ASC, updated_at DESC, id ASC] *)
Definition by_lane_position (a b : Task.t) : comparison :=
  lex (Z.compare (Task.order a) (Task.order b))
    (lex (String.compare (Task.updatedAt b) (Task.updatedAt a))
       (String.compare (Task.id a) (Task.id b))).

(** [ORDER BY order_index ASC, created_at ASC, updated_at ASC, id ASC] *)
Definition by_creation (a b : Task.t) : comparison :=
  lex (Z.compare (Task.order a) (Task.order b))
    (lex (String.compare (Task.createdAt a) (Task.createdAt b))
       (lex (String.compare (Task.updatedAt a) (Task.updatedAt b))
          (String.compare (Task.id a) (Task.id b)))).

(** [ORDER BY status ASC, order_index ASC, updated_at DESC] *)
Definition by_listing (a b : Task.t) : comparison :=
  lex (String.compare (status_text (Task.status a)) (status_text (Task.status b)))
    (lex (Z.compare (Task.order a) (Task.order b))
       (String.compare (Task.updatedAt b) (Task.updatedAt a))).

Definition insertActivity (e : ActivityEntity) (entityId action : string) (db : Db) : Db :=
  mkDb (projects db) (tasks db) (content_entries db)
    (activity db ++ [Activity.mk e entityId action]).

(** [rows.forEach((row, index) => UPDATE tasks SET order_index = index WHERE id = row.id)] *)
Definition renumber (rows : list Task.t) (table : list Task.t) : list Task.t :=
  Js.forEachIndex
    (fun row index acc => update_where (has_id (Task.id row)) (with_order (Z.of_nat index)) acc)
    rows 0%nat table.

Definition normalizeTaskOrder (db : Db) : Db :=
  fold_left
    (fun acc status => set_tasks (renumber (order_by by_creation (lane status (tasks acc))) (tasks acc)) acc)
    TASK_STATUSES db.

Definition projectExists (db : Db) (projectId : string) : bool :=
  existsb (fun p => String.eqb (Project.id p) projectId) (projects db).

Definition inboxRow (ts : string) : Project.t :=
  Project.mk INBOX_PROJECT_ID "Inbox" (Some "System default project for uncategorized tasks.")
    ps_active None 0 mission_control ts ts.

Definition ensureInboxProject (ts : string) (db : Db) : Db :=
  if projectExists db INBOX_PROJECT_ID then db
  else set_projects (projects db ++ [inboxRow ts]) db.

(** [SELECT COALESCE(MAX(order_index), -1) + 1 FROM tasks WHERE status = ?] *)
Definition getNextTaskOrder (db : Db) (status : TaskStatus) : Z :=
  match lane status (tasks db) with
  | [] => -1 + 1
  | t :: rest => fold_left Z.max (map Task.order rest) (Task.order t) + 1
  end.

Definition listTasks (db : Db) : list Task.t := order_by by_listing (tasks db).

(** [ORDER BY updated_at DESC] *)
Definition listProjects (db : Db) : list Project.t :=
  order_by (fun a b => String.compare (Project.updatedAt b) (Project.updatedAt a)) (projects db).

Definition addRecurrenceDate `{JsDate} (date : option string) (recurrence : Recurrence) : option string :=
  match date with
  | None => date
  | Some s =>
      if String.eqb s "" || Recurrence_beq recurrence none then date
      else match parseDate s with
           | None => date
           | Some d =>
               let d1 := if Recurrence_beq recurrence daily then addLocalDays d 1 else d in
               let d2 := if Recurrence_beq recurrence weekly then addLocalDays d1 7 else d1 in
               Some (toISOString d2)
           end
  end.

(** [value?.trim() || null] *)
Definition trimOrNull (value : option string) : option string :=
  match value with
  | None => None
  | Some s => if String.eqb (Js.trim s) "" then None else Some (Js.trim s)
  end.

(** *** Projects *)

Module CreateProjectInput.
Record t := mk {
  title : string;
  description : option string;
  status : option ProjectStatus;
  dueDate : option string;
  source : option SourceType
}.
End CreateProjectInput.

Definition createProject (newId ts : string) (input : CreateProjectInput.t) (db : Db)
  : Db * Project.t :=
  let item :=
    Project.mk newId (Js.trim (CreateProjectInput.title input))
      (trimOrNull (CreateProjectInput.description input))
      (match CreateProjectInput.status input with Some s => s | None => ps_planned end)
      (CreateProjectInput.dueDate input)
      (match CreateProjectInput.status input with Some ps_done => 100 | _ => 0 end)
      (match CreateProjectInput.source input with Some s => s | None => mission_control end)
      ts ts in
  (insertActivity act_project newId "created" (set_projects (projects db ++ [item]) db), item).

(** A patch field is [None] when the caller left it out; for a nullable
    column [Some None] is an explicit [null]. *)
Module ProjectPatch.
Record t := mk {
  title : option string;
  description : option (option string);
  status : option ProjectStatus;
  dueDate : option (option string);
  completionPercent : option Z
}.
End ProjectPatch.

Definition patched {A : Type} (p : option A) (current : A) : A :=
  match p with Some v => v | None => current end.

Definition updateProject (ts : string) (id : string) (patch : ProjectPatch.t) (db : Db)
  : Db * option Project.t :=
  match find (fun p => String.eqb (Project.id p) id) (projects db) with
  | None => (db, None)
  | Some current =>
      let item :=
        Project.mk (Project.id current)
          (match ProjectPatch.title patch with Some s => Js.trim s | None => Project.title current end)
          (patched (ProjectPatch.description patch) (Project.description current))
          (patched (ProjectPatch.status patch) (Project.status current))
          (patched (ProjectPatch.dueDate patch) (Project.dueDate current))
          (match ProjectPatch.completionPercent patch with
           | Some n => Z.max 0 (Z.min 100 n)
           | None => Project.completionPercent current
           end)
          (Project.source current) (Project.createdAt current) ts in
      let rows :=
        update_where (fun p => String.eqb (Project.id p) id)
          (fun p => Project.mk (Project.id p) (Project.title item) (Project.description item)
                      (Project.status item) (Project.dueDate item) (Project.completionPercent item)
                      (Project.source p) (Project.createdAt p) (Project.updatedAt item))
          (projects db) in
      (insertActivity act_project id "updated" (set_projects rows db), Some item)
  end.

Definition deleteProject (tsInbox : string) (id : string) (db : Db) : Db * bool :=
  if String.eqb id INBOX_PROJECT_ID then (db, false)
  else if negb (projectExists db id) then (db, false)
  else
    let db1 := ensureInboxProject tsInbox db in
    let db2 :=
      set_tasks (update_where (fun t => String.eqb (Task.projectId t) id)
                   (with_project INBOX_PROJECT_ID) (tasks db1)) db1 in
    let db3 :=
      set_content_entries
        (update_where
           (fun e => ContentParentType_beq (ContentEntry.parentType e) parent_project
                     && String.eqb (ContentEntry.parentId e) id)
           (fun e => ContentEntry.mk (ContentEntry.id e) (ContentEntry.parentType e) INBOX_PROJECT_ID)
           (content_entries db2)) db2 in
    let db4 := set_projects (delete_where (fun p => String.eqb (Project.id p) id) (projects db3)) db3 in
    (insertActivity act_project id "deleted" db4, true).

(** *** Tasks *)

Module CreateTaskInput.
Record t := mk {
  title : string;
  details : option string;
  status : option TaskStatus;
  priority : option Priority;
  dueDate : option string;
  scheduledAt : option string;
  projectId : option string;
  source : option SourceType;
  recurrence : option Recurrence
}.
End CreateTaskInput.

(** What one [createTask] call draws from the environment: the id from
    [createId("task")], its clock reading, and the clock reading of
    [ensureInboxProject] should it have to insert the Inbox row. *)
Module CreateTaskEnv.
Record t := mk { newId : string; ts : string; tsInbox : string }.
End CreateTaskEnv.

Definition createTask (env : CreateTaskEnv.t) (input : CreateTaskInput.t) (db : Db)
  : Db * Task.t :=
  let ts := CreateTaskEnv.ts env in
  let status := patched (CreateTaskInput.status input) todo in
  let recurrence :=
    if includesRecurrence (patched (CreateTaskInput.recurrence input) none)
    then patched (CreateTaskInput.recurrence input) none else none in
  let projectId0 := patched (CreateTaskInput.projectId input) INBOX_PROJECT_ID in
  let '(db1, projectId) :=
    if negb (projectExists db projectId0)
    then (ensureInboxProject (CreateTaskEnv.tsInbox env) db, INBOX_PROJECT_ID)
    else (db, projectId0) in
  let item :=
    Task.mk (CreateTaskEnv.newId env)
      (Js.trim (CreateTaskInput.title input))
      (trimOrNull (CreateTaskInput.details input))
      status
      (patched (CreateTaskInput.priority input) medium)
      (CreateTaskInput.dueDate input)
      (CreateTaskInput.scheduledAt input)
      (if TaskStatus_beq status done then Some ts else None)
      projectId
      (patched (CreateTaskInput.source input) mission_control)
      (getNextTaskOrder db1 status)
      recurrence
      ts ts in
  (insertActivity act_task (Task.id item) "created" (set_tasks (tasks db1 ++ [item]) db1), item).

Module TaskPatch.
Record t := mk {
  title : option string;
  details : option (option string);
  status : option TaskStatus;
  priority : option Priority;
  dueDate : option (option string);
  scheduledAt : option (option string);
  projectId : option (option string);
  order : option Z;
  recurrence : option Recurrence
}.
End TaskPatch.

(** The clock readings of one [updateTask] call, and what the
    [createTask] of a spawned successor draws. *)
Module UpdateTaskEnv.
Record t := mk {
  tsInbox : string;
  tsCompleted : string;
  tsUpdated : string;
  spawn : CreateTaskEnv.t
}.
End UpdateTaskEnv.

(** The project of the updated row: a supplied id that names no
    project is replaced by the Inbox, which is inserted if missing. *)
Definition resolveProject (env : UpdateTaskEnv.t) (patchProject : option (option string))
    (current : Task.t) (db : Db) : Db * string :=
  match patchProject with
  | Some (Some p) =>
      if projectExists db p then (db, p)
      else (ensureInboxProject (UpdateTaskEnv.tsInbox env) db, INBOX_PROJECT_ID)
  | _ => (db, Task.projectId current)
  end.

(** [item], the row as patched. *)
Definition patchedTask (env : UpdateTaskEnv.t) (patch : TaskPatch.t) (current : Task.t)
    (projectId : string) (db : Db) : Task.t :=
  let nextStatus := patched (TaskPatch.status patch) (Task.status current) in
  let nextRecurrence :=
    match TaskPatch.recurrence patch with
    | Some r => if includesRecurrence r then r else Task.recurrence current
    | None => Task.recurrence current
    end in
  let nextOrder :=
    match TaskPatch.order patch with
    | Some n => Z.max 0 n
    | None =>
        if negb (TaskStatus_beq nextStatus (Task.status current))
        then getNextTaskOrder db nextStatus
        else Task.order current
    end in
  Task.mk (Task.id current)
    (match TaskPatch.title patch with Some s => Js.trim s | None => Task.title current end)
    (patched (TaskPatch.details patch) (Task.details current))
    nextStatus
    (patched (TaskPatch.priority patch) (Task.priority current))
    (patched (TaskPatch.dueDate patch) (Task.dueDate current))
    (patched (TaskPatch.scheduledAt patch) (Task.scheduledAt current))
    (if TaskStatus_beq nextStatus done then Some (UpdateTaskEnv.tsCompleted env) else None)
    projectId
    (Task.source current)
    nextOrder
    nextRecurrence
    (Task.createdAt current)
    (UpdateTaskEnv.tsUpdated env).

(** The [UPDATE tasks SET ... WHERE id = ?] that stores [item]. *)
Definition storeTask (id : string) (item : Task.t) (db : Db) : Db :=
  set_tasks
    (update_where (has_id id)
       (fun row =>
          Task.mk (Task.id row) (Task.title item) (Task.details item) (Task.status item)
            (Task.priority item) (Task.dueDate item) (Task.scheduledAt item)
            (Task.completedAt item) (Task.projectId item) (Task.source row)
            (Task.order item) (Task.recurrence item) (Task.createdAt row)
            (Task.updatedAt item))
       (tasks db)) db.

(** The input of the [createTask] that spawns the next occurrence. *)
Definition successorInput `{JsDate} (item : Task.t) : CreateTaskInput.t :=
  CreateTaskInput.mk (Task.title item) (Task.details item) (Some todo)
    (Some (Task.priority item))
    (addRecurrenceDate (Task.dueDate item) (Task.recurrence item))
    (addRecurrenceDate (Task.scheduledAt item) (Task.recurrence item))
    (Some (Task.projectId item)) (Some (Task.source item))
    (Some (Task.recurrence item)).

(** The condition under which [updateTask] spawns. *)
Definition spawns (current item : Task.t) : bool :=
  negb (TaskStatus_beq (Task.status current) done)
  && TaskStatus_beq (Task.status item) done
  && negb (Recurrence_beq (Task.recurrence item) none).

Definition updateTask `{JsDate} (env : UpdateTaskEnv.t) (id : string) (patch : TaskPatch.t) (db : Db)
  : Db * option Task.t :=
  match find (has_id id) (tasks db) with
  | None => (db, None)
  | Some current =>
      match TaskPatch.projectId patch with
      | Some None => (db, None)
      | patchProject =>
          let '(db1, projectId) := resolveProject env patchProject current db in
          let item := patchedTask env patch current projectId db in
          let db2 := storeTask id item db1 in
          let db3 :=
            if negb (TaskStatus_beq (Task.status current) (Task.status item))
            then normalizeTaskOrder db2 else db2 in
          let db4 :=
            if spawns current item
            then fst (createTask (UpdateTaskEnv.spawn env) (successorInput item) db3)
            else db3 in
          (insertActivity act_task id "updated" db4, Some item)
      end
  end.

Module ReorderInput.
Record t := mk {
  movedTaskId : string;
  toStatus : TaskStatus;
  orderedTaskIds : list string
}.
End ReorderInput.

(** [Array.from(new Set(input.orderedTaskIds.filter(Boolean)))] *)
Definition orderedIdsOf (input : ReorderInput.t) : list string :=
  Js.dedupe (filter (fun s => negb (String.eqb s "")) (ReorderInput.orderedTaskIds input)).

(** [SELECT id, status FROM tasks WHERE id IN (...)] *)
Definition rows_in (ids : list string) (rows : list Task.t) : list Task.t :=
  filter (fun t => Js.setHas ids (Task.id t)) rows.

(** The checks that decide whether the payload is accepted. *)
Definition reorderAccepted (input : ReorderInput.t) (db : Db) : option Task.t :=
  match find (has_id (ReorderInput.movedTaskId input)) (tasks db) with
  | None => None
  | Some moved =>
      let orderedIds := orderedIdsOf input in
      if negb (Js.setHas orderedIds (ReorderInput.movedTaskId input)) then None
      else if (0 <? List.length orderedIds)%nat
              && (let rows := rows_in orderedIds (tasks db) in
                  negb (List.length rows =? List.length orderedIds)%nat
                  || existsb (fun row => negb (has_id (ReorderInput.movedTaskId input) row)
                                         && negb (in_lane (ReorderInput.toStatus input) row)) rows)
      then None
      else Some moved
  end.

(** The body of the transaction. *)
Definition reorderTx (ts : string) (input : ReorderInput.t) (moved : Task.t) (rows : list Task.t)
  : list Task.t :=
  let toStatus := ReorderInput.toStatus input in
  let orderedIds := orderedIdsOf input in
  let rows1 :=
    update_where (has_id (ReorderInput.movedTaskId input)) (with_status_updated toStatus ts) rows in
  let remaining :=
    if (0 <? List.length orderedIds)%nat
    then order_by by_lane_position
           (filter (fun t => in_lane toStatus t && negb (Js.setHas orderedIds (Task.id t))) rows1)
    else order_by by_lane_position
           (filter (fun t => in_lane toStatus t && negb (has_id (ReorderInput.movedTaskId input) t)) rows1) in
  let finalIds := (orderedIds ++ map Task.id remaining)%list in
  let rows2 :=
    Js.forEachIndex
      (fun taskId index acc =>
         update_where (has_id taskId)
           (fun t => with_order (Z.of_nat index) (with_status_updated toStatus ts t)) acc)
      finalIds 0%nat rows1 in
  if negb (TaskStatus_beq (Task.status moved) toStatus)
  then renumber (order_by by_lane_position (lane (Task.status moved) rows2)) rows2
  else rows2.

Definition reorderTasksInLane (ts : string) (input : ReorderInput.t) (db : Db)
  : Db * option (list Task.t) :=
  match reorderAccepted input db with
  | None => (db, None)
  | Some moved =>
      let db1 := set_tasks (reorderTx ts input moved (tasks db)) db in
      let db2 := insertActivity act_task (ReorderInput.movedTaskId input) "reordered" db1 in
      (db2, Some (listTasks db2))
  end.

Definition deleteTask (id : string) (db : Db) : Db * bool :=
  match find (has_id id) (tasks db) with
  | None => (db, false)
  | Some task =>
      let db1 :=
        set_content_entries
          (delete_where
             (fun e => ContentParentType_beq (ContentEntry.parentType e) parent_task
                       && String.eqb (ContentEntry.parentId e) id)
             (content_entries db)) db in
      let rows := delete_where (has_id id) (tasks db1) in
      let rows' := renumber (order_by by_lane_position (lane (Task.status task) rows)) rows in
      (insertActivity act_task id "deleted" (set_tasks rows' db1), true)
  end.

End Store.

(** ** The JavaScript runtime: numbers

    A similarity score is the binary64 quotient of two small integers.  The
    values of type [Q] below are the exact values of such doubles. *)
Module JsNumber.
Local Open Scope Z_scope.

(** Nearest integer to [n / d] for [0 < d], ties to even. *)
Definition round_half_even (n d : Z) : Z :=
  let m := n / d in
  let r := n mod d in
  if 2 * r <? d then m
  else if d <? 2 * r then m + 1
  else if Z.even m then m else m + 1.

(** [p / q] on numbers that hold the integers [0 <= p] and [0 < q]: the
    double nearest to the exact quotient, with a 53-bit significand
    [2^52 <= m < 2^53] scaled by [2^-e].  It covers the quotients of the
    normal range below [2^53], which is where scores and two-decimal
    literals are. *)
Definition div (p q : Z) : Q :=
  if p =? 0 then 0%Q
  else
    let e0 := 52 - (Z.log2 p - Z.log2 q) in
    let e := if p * 2 ^ e0 <? q * 2 ^ 52 then e0 + 1 else e0 in
    Qmake (round_half_even (p * 2 ^ e) q) (Z.to_pos (2 ^ e)).

(** [x.toFixed(2)], as a count of hundredths: the integer [n] with
    [n / 100] nearest to [x], the larger one of two. *)
Definition toFixed2 (x : Q) : Z := Qfloor (100 * x + (1 # 2))%Q.

(** [Number(x.toFixed(2))] *)
Definition roundTo2 (x : Q) : Q := div (toFixed2 x) 100.

(** [a > b] and [a >= b] *)
Definition gt (a b : Q) : bool := negb (Qle_bool a b).
Definition ge (a b : Q) : bool := Qle_bool b a.

End JsNumber.

(** ** [src/lib/imports.ts] *)
Module ImportType.
Inductive t := apple_reminders | apple_notes | chatgpt_projects | claude_projects.
End ImportType.

Module ImportAction.
Inductive t := create | update | skip.
End ImportAction.

Inductive ImportEntityType := entity_task | entity_project.
Inductive MatchKind := kind_exact | kind_fuzzy.

Module ImportDuplicateMatch.
Record t := mk {
  entityType : ImportEntityType;
  id : string;
  title : string;
  score : Q;
  kind : MatchKind
}.
End ImportDuplicateMatch.

Module ImportPreviewRow.
Record t := mk {
  line : nat;
  values : list (string * string);
  error : option string;
  suggestedAction : ImportAction.t;
  duplicateMatch : option ImportDuplicateMatch.t
}.
End ImportPreviewRow.

Module ImportPreviewRequest.
Record t := mk { type : ImportType.t; text : string }.
End ImportPreviewRequest.

Module ImportPreviewResponse.
Record t := mk {
  headers : list string;
  rows : list ImportPreviewRow.t;
  validRows : nat;
  invalidRows : nat
}.
End ImportPreviewResponse.

Module Imports.
Import Store.
Local Open Scope string_scope.

Definition parseCsv (text : string) : list string * list (list string) :=
  let lines :=
    filter (fun line => negb (String.eqb line "")) (map Js.trim (Js.splitLines text)) in
  match lines with
  | [] => ([], [])
  | first :: rest =>
      (map Js.trim (Js.split ","%char first),
       map (fun line => map Js.trim (Js.split ","%char line)) rest)
  end.

Definition normalize (value : string) : string :=
  Js.str (Js.trimChars
            (Js.collapseSpaces false
               (Js.blankNonAlnum (Js.chars (Js.toLowerCase value))))).

(** [text.slice(i, i + 2)] for [i = 0, ..., text.length - 2] *)
Fixpoint slices2 (l : list ascii) : list string :=
  match l with
  | a :: ((b :: _) as tl) => String a (String b EmptyString) :: slices2 tl
  | _ => []
  end.

Definition bigrams (value : string) : list string :=
  Js.dedupe (slices2 (Js.chars (" " ++ normalize value ++ " "))).

Definition overlapOf (A B : list string) : nat := List.length (filter (Js.setHas B) A).

(** What [diceSimilarity] computes from the two bigram sets. *)
Definition diceOf (A B : list string) : Q :=
  if (List.length A =? 0)%nat || (List.length B =? 0)%nat then 0%Q
  else JsNumber.div (Z.of_nat (2 * overlapOf A B)) (Z.of_nat (List.length A + List.length B)).

Definition diceSimilarity (a b : string) : Q := diceOf (bigrams a) (bigrams b).

Definition requiredHeadersByType (type : ImportType.t) : list string :=
  match type with
  | ImportType.apple_reminders
  | ImportType.apple_notes
  | ImportType.chatgpt_projects
  | ImportType.claude_projects => ["title"]
  end.

Definition typeToSource (type : ImportType.t) : SourceType :=
  match type with
  | ImportType.apple_reminders => apple_reminders
  | ImportType.apple_notes => apple_notes
  | ImportType.chatgpt_projects => chatgpt
  | ImportType.claude_projects => claude
  end.

Definition typeToEntity (type : ImportType.t) : option ImportEntityType :=
  match type with
  | ImportType.apple_reminders => Some entity_task
  | ImportType.chatgpt_projects | ImportType.claude_projects => Some entity_project
  | ImportType.apple_notes => None
  end.

(** A candidate of the duplicate search: the [id] and [title] of a task
    or of a project. *)
Definition Candidate : Type := (string * string)%type.

(** The literal [0.72]. *)
Definition THRESHOLD : Q := JsNumber.div 72 100.

(** The loop that keeps the first candidate of the highest score. *)
Definition bestMatch (title : string) (pool : list Candidate) : option (Candidate * Q) :=
  fold_left
    (fun best item =>
       let score := diceSimilarity (snd item) title in
       match best with
       | None => Some (item, score)
       | Some (_, bestScore) => if JsNumber.gt score bestScore then Some (item, score) else best
       end)
    pool None.

(** The body shared by the two branches of [findDuplicate], which run the
    same statements over the tasks and over the projects of the source. *)
Definition findAmong (entityType : ImportEntityType) (title : string) (pool : list Candidate)
  : option ImportDuplicateMatch.t :=
  match find (fun item : Candidate => String.eqb (normalize (snd item)) (normalize title)) pool with
  | Some exact =>
      Some (ImportDuplicateMatch.mk entityType (fst exact) (snd exact) 1%Q kind_exact)
  | None =>
      match bestMatch title pool with
      | Some (item, score) =>
          if JsNumber.ge score THRESHOLD
          then Some (ImportDuplicateMatch.mk entityType (fst item) (snd item)
                       (JsNumber.roundTo2 score) kind_fuzzy)
          else None
      | None => None
      end
  end.

(** The candidates [findDuplicate] looks at: the entities of the kind
    whose provenance is [source], in listing order. *)
Definition scopedPool (db : Db) (source : SourceType) (entityType : ImportEntityType)
  : list Candidate :=
  match entityType with
  | entity_task =>
      map (fun item => (Task.id item, Task.title item))
        (filter (fun item => SourceType_beq (Task.source item) source) (listTasks db))
  | entity_project =>
      map (fun item => (Project.id item, Project.title item))
        (filter (fun item => SourceType_beq (Project.source item) source) (listProjects db))
  end.

Definition findDuplicate (db : Db) (source : SourceType) (entityType : ImportEntityType)
    (title : string) : option ImportDuplicateMatch.t :=
  findAmong entityType title (scopedPool db source entityType).

Definition suggestedAction (m : option ImportDuplicateMatch.t) : ImportAction.t :=
  match m with
  | None => ImportAction.create
  | Some m =>
      match ImportDuplicateMatch.kind m with
      | kind_exact => ImportAction.update
      | kind_fuzzy => ImportAction.skip
      end
  end.

(** [values[key] = v] on a plain object, and [values[key]]. *)
Fixpoint setProp (key v : string) (o : list (string * string)) : list (string * string) :=
  match o with
  | [] => [(key, v)]
  | (k, v') :: o' => if String.eqb k key then (key, v) :: o' else (k, v') :: setProp key v o'
  end.

Definition getProp (key : string) (o : list (string * string)) : option string :=
  option_map snd (find (fun kv => String.eqb (fst kv) key) o).

(** A string in a condition. *)
Definition truthy (s : option string) : bool :=
  match s with
  | Some e => negb (String.eqb e "")
  | None => false
  end.

Definition previewRow (db : Db) (type : ImportType.t) (headers : list string)
    (row : list string) (index : nat) : ImportPreviewRow.t :=
  let values :=
    Js.forEachIndex (fun header headerIndex acc => setProp header (nth headerIndex row "") acc)
      headers 0%nat [] in
  let title := match getProp "title" values with Some s => Js.trim s | None => "" end in
  if String.eqb title ""
  then ImportPreviewRow.mk (index + 2) values (Some "Missing required title")
         ImportAction.skip None
  else
    let duplicateMatch :=
      match typeToEntity type with
      | Some entityType => findDuplicate db (typeToSource type) entityType title
      | None => None
      end in
    ImportPreviewRow.mk (index + 2) values None (suggestedAction duplicateMatch) duplicateMatch.

Definition previewImport (db : Db) (payload : ImportPreviewRequest.t) : ImportPreviewResponse.t :=
  let '(headers, rows) := parseCsv (ImportPreviewRequest.text payload) in
  let requiredHeaders := requiredHeadersByType (ImportPreviewRequest.type payload) in
  let missingHeaders :=
    filter (fun required => negb (existsb (String.eqb required) headers)) requiredHeaders in
  if (0 <? List.length missingHeaders)%nat
  then
    ImportPreviewResponse.mk headers
      [ImportPreviewRow.mk 1 []
         (Some ("Missing headers: " ++ Js.join ", " missingHeaders))
         ImportAction.skip None]
      0 1
  else
    let parsedRows :=
      Js.forEachIndex
        (fun row index acc =>
           (acc ++ [previewRow db (ImportPreviewRequest.type payload) headers row index])%list)
        rows 0%nat [] in
    let invalidRows :=
      List.length (filter (fun row => truthy (ImportPreviewRow.error row)) parsedRows) in
    ImportPreviewResponse.mk headers parsedRows (List.length parsedRows - invalidRows) invalidRows.

End Imports.

(** ** Properties of the lane engine *)
Module LaneSpec.
Import Store.

(** The order values of lane [s] are exactly 0, ..., n-1, each once. *)
Definition dense_lane (s : TaskStatus) (rows : list Task.t) : Prop :=
  Permutation (map Task.order (lane s rows))
              (map Z.of_nat (seq 0 (List.length (lane s rows)))).

Definition dense (db : Db) : Prop := forall s, dense_lane s (tasks db).

(** [id] is the primary key of [tasks]. *)
Definition unique_ids (db : Db) : Prop := NoDup (map Task.id (tasks db)).

Inductive LaneOp :=
| Reorder (ts : string) (input : ReorderInput.t)
| Delete (id : string).

Definition runLaneOp (db : Db) (op : LaneOp) : Db :=
  match op with
  | Reorder ts input => fst (reorderTasksInLane ts input db)
  | Delete id => fst (deleteTask id db)
  end.

Definition runLaneOps (ops : list LaneOp) (db : Db) : Db := fold_left runLaneOp ops db.

(** Position of the first occurrence of [x] in [ids]. *)
Fixpoint pos (x : string) (ids : list string) : option nat :=
  match ids with
  | [] => None
  | y :: ids' => if String.eqb x y then Some 0%nat else option_map S (pos x ids')
  end.

(** What a [forEach] of indexed [UPDATE ... WHERE id = ?] does to one row. *)
Definition apply_at (upd : nat -> Task.t -> Task.t) (ids : list string) (i0 : nat) (t : Task.t)
  : Task.t :=
  match pos (Task.id t) ids with
  | Some k => upd (i0 + k)%nat t
  | None => t
  end.

(** [SET order_index = index] *)
Definition set_index (i : nat) : Task.t -> Task.t := with_order (Z.of_nat i).

End LaneSpec.

(** ** Properties of the duplicate resolver *)
Module MatchSpec.
Import Imports.

Definition scoreOf (title : string) (c : Candidate) : Q := diceSimilarity (snd c) title.

(** [best] is a first-seen candidate of the highest score among [seen]. *)
Definition Best (title : string) (seen : list Candidate) (best : option (Candidate * Q)) : Prop :=
  match best with
  | None => seen = []
  | Some (c, s) =>
      In c seen /\ s = scoreOf title c
      /\ (forall c', In c' seen -> (scoreOf title c' <= s)%Q)
  end.

(** Every character, and every two-character string. *)
Definition allChars : list ascii := map ascii_of_nat (seq 0 256).

Definition allPairs : list string :=
  map (fun p => String (fst p) (String (snd p) EmptyString)) (list_prod allChars allChars).

End MatchSpec.

(** ** Properties of the store as a whole *)
Module StoreSpec.
Import Store.

(** No task has the empty string as its id ([createId] yields a prefix,
    a dash and a UUID). *)
Definition ids_nonempty (db : Db) : Prop :=
  Forall (fun t => Task.id t <> EmptyString) (tasks db).

(** Every task's [projectId] names a row of [projects]. *)
Definition refs_ok (db : Db) : Prop :=
  forall t, In t (tasks db) -> projectExists db (Task.projectId t) = true.

(** The row of [tasks] with the given id. *)
Definition taskById (id : string) (db : Db) : option Task.t := find (has_id id) (tasks db).

(** [with_order 0] forgets the one column that renumbering writes. *)
Definition erase_order : Task.t -> Task.t := with_order 0.

(** What [updateTask] does once the row is found and the patch does not
    null the project: the store it leaves and the item it returns. *)
Definition updateResult `{JsDate} (env : UpdateTaskEnv.t) (id : string) (patch : TaskPatch.t)
    (current : Task.t) (db : Db) : Db * Task.t :=
  let '(db1, projectId) := resolveProject env (TaskPatch.projectId patch) current db in
  let item := patchedTask env patch current projectId db in
  let db2 := storeTask id item db1 in
  let db3 :=
    if negb (TaskStatus_beq (Task.status current) (Task.status item))
    then normalizeTaskOrder db2 else db2 in
  let db4 :=
    if spawns current item
    then fst (createTask (UpdateTaskEnv.spawn env) (successorInput item) db3)
    else db3 in
  (insertActivity act_task id "updated" db4, item).

(** The exported operations that write [projects] or [tasks]. *)
Inductive Op :=
| OpEnsureInbox (ts : string)
| OpCreateProject (newId ts : string) (input : CreateProjectInput.t)
| OpUpdateProject (ts id : string) (patch : ProjectPatch.t)
| OpDeleteProject (tsInbox id : string)
| OpCreateTask (env : CreateTaskEnv.t) (input : CreateTaskInput.t)
| OpUpdateTask (env : UpdateTaskEnv.t) (id : string) (patch : TaskPatch.t)
| OpReorder (ts : string) (input : ReorderInput.t)
| OpDeleteTask (id : string).

Definition exec `{JsDate} (op : Op) (db : Db) : Db :=
  match op with
  | OpEnsureInbox ts => ensureInboxProject ts db
  | OpCreateProject newId ts input => fst (createProject newId ts input db)
  | OpUpdateProject ts id patch => fst (updateProject ts id patch db)
  | OpDeleteProject tsInbox id => fst (deleteProject tsInbox id db)
  | OpCreateTask env input => fst (createTask env input db)
  | OpUpdateTask env id patch => fst (updateTask env id patch db)
  | OpReorder ts input => fst (reorderTasksInLane ts input db)
  | OpDeleteTask id => fst (deleteTask id db)
  end.

End StoreSpec.

(** ** A reference [Date]: the process runs in UTC and date strings have
    the 24 characters [toISOString] prints, [YYYY-MM-DDTHH:mm:ss.sssZ]. *)
Module UtcDate.
Local Open Scope Z_scope.

Definition days_from_civil (y m d : Z) : Z :=
  let y' := if m <=? 2 then y - 1 else y in
  let era := y' / 400 in
  let yoe := y' - era * 400 in
  let doy := (153 * (if 2 <? m then m - 3 else m + 9) + 2) / 5 + d - 1 in
  let doe := yoe * 365 + yoe / 4 - yoe / 100 + doy in
  era * 146097 + doe - 719468.

Definition civil_from_days (z : Z) : Z * Z * Z :=
  let z := z + 719468 in
  let era := z / 146097 in
  let doe := z - era * 146097 in
  let yoe := (doe - doe / 1460 + doe / 36524 - doe / 146096) / 365 in
  let doy := doe - (365 * yoe + yoe / 4 - yoe / 100) in
  let mp := (5 * doy + 2) / 153 in
  let d := doy - (153 * mp + 2) / 5 + 1 in
  let m := if mp <? 10 then mp + 3 else mp - 9 in
  (if m <=? 2 then yoe + era * 400 + 1 else yoe + era * 400, m, d).

Definition digit (c : ascii) : option Z :=
  let n := Z.of_nat (nat_of_ascii c) in
  if (48 <=? n) && (n <=? 57) then Some (n - 48) else None.

Fixpoint number (acc : Z) (l : list ascii) : option Z :=
  match l with
  | [] => Some acc
  | c :: l' => match digit c with Some d => number (10 * acc + d) l' | None => None end
  end.

Definition field (from len : nat) (s : string) : option Z :=
  number 0 (Js.chars (substring from len s)).

Definition hasAt (from : nat) (c : string) (s : string) : bool :=
  String.eqb (substring from 1 s) c.

Definition parse (s : string) : option Z :=
  if (String.length s =? 24)%nat
     && hasAt 4 "-" s && hasAt 7 "-" s && hasAt 10 "T" s && hasAt 13 ":" s && hasAt 16 ":" s
     && hasAt 19 "." s && hasAt 23 "Z" s
  then
    match field 0 4 s, field 5 2 s, field 8 2 s, field 11 2 s, field 14 2 s,
          field 17 2 s, field 20 3 s with
    | Some y, Some m, Some d, Some hh, Some mm, Some ss, Some ms =>
        if (1 <=? m) && (m <=? 12) && (1 <=? d) && (d <=? 31)
           && (hh <=? 23) && (mm <=? 59) && (ss <=? 59)
        then Some (((days_from_civil y m d * 24 + hh) * 60 + mm) * 60000 + ss * 1000 + ms)
        else None
    | _, _, _, _, _, _, _ => None
    end
  else None.

Definition digitChar (d : Z) : ascii := ascii_of_nat (Z.to_nat (48 + d mod 10)).

(** [n] in [width] decimal digits. *)
Fixpoint padded (width : nat) (n : Z) (acc : string) : string :=
  match width with
  | O => acc
  | Datatypes.S w => padded w (n / 10) (String (digitChar n) acc)
  end.

Definition print (t : Z) : string :=
  let day := t / 86400000 in
  let rest := t mod 86400000 in
  let '(y, m, d) := civil_from_days day in
  (padded 4 y "" ++ "-" ++ padded 2 m "" ++ "-" ++ padded 2 d "" ++ "T"
   ++ padded 2 (rest / 3600000) "" ++ ":" ++ padded 2 (rest / 60000 mod 60) "" ++ ":"
   ++ padded 2 (rest / 1000 mod 60) "" ++ "." ++ padded 3 (rest mod 1000) "" ++ "Z")%string.

Definition runtime : JsDate :=
  {| parseDate := parse;
     addLocalDays := fun t k => t + k * 86400000;
     toISOString := print |}.

End UtcDate.

(** ** A small store to evaluate on *)
Module Sample.
Import Store.
Local Open Scope string_scope.

Definition t0 : string := "2026-02-10T09:00:00.000Z".

Definition inbox : Project.t := inboxRow t0.
Definition orion : Project.t :=
  Project.mk "proj-orion" "Orion AI Assistant" (Some "Core personal AI workflow and tooling")
    ps_active None 68 claude t0 t0.

Definition task (id title : string) (status : TaskStatus) (order : Z) (project : string)
    (source : SourceType) (recurrence : Recurrence) (due : option string) : Task.t :=
  Task.mk id title None status medium due None None project source order recurrence t0 t0.

Definition payRent : Task.t :=
  task "task-rent" "Pay Rent" todo 0 "proj-inbox" apple_reminders daily
    (Some "2026-02-28T17:00:00.000Z").
Definition mapFolders : Task.t :=
  task "task-map" "Map Apple Notes folders" todo 1 "proj-orion" apple_reminders weekly None.
Definition validator : Task.t :=
  task "task-validator" "Finalize import validator" in_progress 0 "proj-orion"
    mission_control none None.
Definition backfill : Task.t :=
  task "task-backfill" "Backfill Claude project statuses" done 0 "proj-orion" claude none None.

Definition db : Db :=
  mkDb [orion; inbox] [payRent; mapFolders; validator; backfill] [] [].

Definition spawnEnv : CreateTaskEnv.t :=
  CreateTaskEnv.mk "task-next" "2026-02-28T18:00:02.000Z" "2026-02-28T18:00:03.000Z".

Definition env : UpdateTaskEnv.t :=
  UpdateTaskEnv.mk "2026-02-28T18:00:00.000Z" "2026-02-28T18:00:01.000Z"
    "2026-02-28T18:00:01.000Z" spawnEnv.

(** [{ title: "Backfill statuses" }] *)
Definition rename : TaskPatch.t :=
  TaskPatch.mk (Some "Backfill statuses") None None None None None None None None.

(** [{ status: "done" }] *)
Definition markDone : TaskPatch.t :=
  TaskPatch.mk None None (Some done) None None None None None None.

(** [{ status: "done", details: "  call the bank " }] *)
Definition markDoneWithDetails : TaskPatch.t :=
  TaskPatch.mk None (Some (Some "  call the bank ")) (Some done) None None None None None None.

(** Dragging the rent task to the top of the done lane. *)
Definition dragToDone : ReorderInput.t :=
  ReorderInput.mk "task-rent" done ["task-rent"; "task-backfill"].

(** The same drag with a task of the in-progress lane in the list. *)
Definition dragWithForeignId : ReorderInput.t :=
  ReorderInput.mk "task-rent" done ["task-rent"; "task-validator"; "task-backfill"].

(** A CSV without a [title] column and two data lines. *)
Definition noTitleHeader : ImportPreviewRequest.t :=
  ImportPreviewRequest.mk ImportType.apple_reminders "name,notes
Pay rent,soon
Buy milk,later".

End Sample.

(** ** Further properties of the store *)
Module StoreSpec2.
Import Store.

(** The columns of a task other than [status], [order_index] and
    [updated_at]. *)
Definition rest_cols (t : Task.t) :=
  (Task.id t, Task.title t, Task.details t, Task.priority t, Task.dueDate t,
   Task.scheduledAt t, Task.completedAt t, Task.projectId t, Task.source t,
   Task.recurrence t, Task.createdAt t).

(** [SELECT id FROM tasks WHERE id = ?] finds a row. *)
Definition taskExists (db : Db) (id : string) : bool := existsb (has_id id) (tasks db).

(** Every content entry hangs off an existing project or task. *)
Definition content_refs_ok (db : Db) : Prop :=
  forall e, In e (content_entries db) ->
    match ContentEntry.parentType e with
    | parent_project => projectExists db (ContentEntry.parentId e) = true
    | parent_task => taskExists db (ContentEntry.parentId e) = true
    end.

End StoreSpec2.

(** ** The dashboard summary *)
Module DashboardSummary.
Record t := mk { overdue : nat; dueToday : nat; blocked : nat; completedThisWeek : nat }.
End DashboardSummary.

Module Dashboard.
Import Store.
Local Open Scope string_scope.

(** One turn of the loop over the tasks: the counters after [task]. *)
Definition count `{JsDate} (today : string) (sevenDaysAgo : Z) (acc : DashboardSummary.t)
    (task : Task.t) : DashboardSummary.t :=
  let blocked :=
    if TaskStatus_beq (Task.status task) blocked
    then S (DashboardSummary.blocked acc) else DashboardSummary.blocked acc in
  let '(overdue, dueToday) :=
    match Task.dueDate task with
    | Some dueDate =>
        if negb (String.eqb dueDate "") && negb (TaskStatus_beq (Task.status task) done)
        then
          let dueDateOnly := substring 0 10 dueDate in
          ((if String.ltb dueDateOnly today
            then S (DashboardSummary.overdue acc) else DashboardSummary.overdue acc),
           (if String.eqb dueDateOnly today
            then S (DashboardSummary.dueToday acc) else DashboardSummary.dueToday acc))
        else (DashboardSummary.overdue acc, DashboardSummary.dueToday acc)
    | None => (DashboardSummary.overdue acc, DashboardSummary.dueToday acc)
    end in
  let completedThisWeek :=
    match Task.completedAt task with
    | Some completedAt =>
        if negb (String.eqb completedAt "")
           && match parseDate completedAt with
              | Some t => (sevenDaysAgo <=? t)%Z
              | None => false
              end
        then S (DashboardSummary.completedThisWeek acc)
        else DashboardSummary.completedThisWeek acc
    | None => DashboardSummary.completedThisWeek acc
    end in
  DashboardSummary.mk overdue dueToday blocked completedThisWeek.

(** [now] is the reading of the clock, [new Date()]. *)
Definition buildDashboardSummary `{JsDate} (now : Z) (tasks : list Task.t)
  : DashboardSummary.t :=
  let today := substring 0 10 (toISOString now) in
  let sevenDaysAgo := addLocalDays now (-7) in
  fold_left (count today sevenDaysAgo) tasks (DashboardSummary.mk 0 0 0 0).

(** [GET /api/dashboard/summary] *)
Definition summaryRoute `{JsDate} (now : Z) (db : Db) : DashboardSummary.t :=
  buildDashboardSummary now (listTasks db).

(** A task that is not done and has a due date. *)
Definition isOpenWithDue (task : Task.t) : bool :=
  match Task.dueDate task with
  | Some dueDate => negb (String.eqb dueDate "") && negb (TaskStatus_beq (Task.status task) done)
  | None => false
  end.

Definition hasCompletedAt (task : Task.t) : bool :=
  match Task.completedAt task with
  | Some completedAt => negb (String.eqb completedAt "")
  | None => false
  end.

(** The day of the due date, [dueDate.slice(0, 10)]. *)
Definition dueDay (task : Task.t) : string :=
  match Task.dueDate task with
  | Some dueDate => substring 0 10 dueDate
  | None => ""
  end.

(** The tasks each counter is meant to count. *)
Definition isOverdue (today : string) (task : Task.t) : bool :=
  isOpenWithDue task && String.ltb (dueDay task) today.

Definition isDueToday (today : string) (task : Task.t) : bool :=
  isOpenWithDue task && String.eqb (dueDay task) today.

Definition isCompletedSince `{JsDate} (since : Z) (task : Task.t) : bool :=
  hasCompletedAt task
  && match Task.completedAt task with
     | Some completedAt =>
         match parseDate completedAt with
         | Some t => (since <=? t)%Z
         | None => false
         end
     | None => false
     end.

End Dashboard.

(** ** The board of the dashboard page

    The page keeps the listed tasks in its state, shows each lane sorted
    with [laneTasksByOrder] and turns a drop into a request to
    [POST /api/tasks/reorder].  [localeCompare] is the runtime's; only its
    sign matters to [sort]. *)
Class JsLocale := {
  localeCompare : string -> string -> comparison
}.

Module Board.
Import Sql Store.
Local Open Scope string_scope.

(** [arr.indexOf(x)] *)
Fixpoint indexOf (x : string) (l : list string) : Z :=
  match l with
  | [] => (-1)%Z
  | y :: l' =>
      if String.eqb y x then 0%Z
      else let i := indexOf x l' in if (i <? 0)%Z then (-1)%Z else (i + 1)%Z
  end.

(** [arr.splice(start, 0, x)] *)
Definition spliceIn (start : Z) (x : string) (l : list string) : list string :=
  let len := Z.of_nat (List.length l) in
  let actualStart := if (start <? 0)%Z then Z.max (len + start) 0 else Z.min start len in
  (firstn (Z.to_nat actualStart) l ++ x :: skipn (Z.to_nat actualStart) l)%list.

(** [sort] is the stable sort of the runtime, by the sign of the
    comparator. *)
Definition laneTasksByOrder `{JsLocale} (tasks : list Task.t) (status : TaskStatus)
  : list Task.t :=
  order_by
    (fun a b =>
       if (Task.order a =? Task.order b)%Z
       then localeCompare (Task.updatedAt b) (Task.updatedAt a)
       else (Task.order a ?= Task.order b)%Z)
    (filter (fun task => TaskStatus_beq (Task.status task) status) tasks).

(** The body of the request [handleDrop] posts to [/api/tasks/reorder],
    or [None] when it returns before posting; [tasks], [draggedTaskId]
    and [canDragBoard] are the state of the page. *)
Definition handleDrop `{JsLocale} (tasks : list Task.t) (draggedTaskId : option string)
    (canDragBoard : bool) (toStatus : TaskStatus) (beforeId : option string)
  : option ReorderInput.t :=
  match draggedTaskId with
  | None => None
  | Some dragged =>
      if String.eqb dragged "" || negb canDragBoard then None
      else
        let laneIds :=
          map Task.id
            (filter (fun task => negb (String.eqb (Task.id task) dragged))
               (laneTasksByOrder tasks toStatus)) in
        let laneIds' :=
          match beforeId with
          | Some before =>
              if negb (String.eqb before "") && Js.setHas laneIds before
              then spliceIn (indexOf before laneIds) dragged laneIds
              else (laneIds ++ [dragged])%list
          | None => (laneIds ++ [dragged])%list
          end in
        Some (ReorderInput.mk dragged toStatus laneIds')
  end.

(** The checks of the route before it calls [reorderTasksInLane] on a
    body of the right types; [None] is the answer 400. *)
Definition VALID_STATUSES : list TaskStatus := [todo; in_progress; blocked; parking_lot; done].

Definition reorderRoute (ts : string) (body : ReorderInput.t) (db : Db)
  : Db * option (list Task.t) :=
  if String.eqb (ReorderInput.movedTaskId body) "" then (db, None)
  else if negb (existsb (TaskStatus_beq (ReorderInput.toStatus body)) VALID_STATUSES)
  then (db, None)
  else reorderTasksInLane ts body db.

End Board.

(** ** Shapes of normalized text *)
Module TextSpec.

(** A character list as [normalize] leaves it before trimming: lower-case
    letters, digits and single blanks; [prev] says a blank came just
    before. *)
Fixpoint tidy (prev : bool) (l : list ascii) : bool :=
  match l with
  | [] => true
  | c :: l' =>
      if Js.isSpace c then negb prev && Ascii.eqb c " "%char && tidy true l'
      else Js.isLowerAlnum c && tidy false l'
  end.

(** The list does not begin with a whitespace character. *)
Definition starts_solid (l : list ascii) : Prop :=
  match l with
  | c :: _ => Js.isSpace c = false
  | [] => True
  end.

End TextSpec.

(** ** Further samples *)
Module Sample2.
Import Store.
Local Open Scope string_scope.

(** The sample store with its order values in disarray: a gap and a
    duplicate in the todo lane, a gap in the done lane. *)
Definition gappy : Db :=
  mkDb [Sample.orion; Sample.inbox]
    [with_order 5 Sample.payRent; with_order 5 Sample.mapFolders; Sample.validator;
     with_order 2 Sample.backfill] [] [].

(** [{ title: "Read the lease" }] for a task of the Inbox. *)
Definition newTask : CreateTaskInput.t :=
  CreateTaskInput.mk "  Read the lease " None None None None None None None None.

Definition newTaskEnv : CreateTaskEnv.t :=
  CreateTaskEnv.mk "task-lease" "2026-03-02T08:00:00.000Z" "2026-03-02T08:00:01.000Z".

(** The sample store with three content entries: a note on the folders
    task, one on the Orion project and one on the rent task. *)
Definition noted : Db :=
  mkDb [Sample.orion; Sample.inbox]
    [Sample.payRent; Sample.mapFolders; Sample.validator; Sample.backfill]
    [ContentEntry.mk "entry-folders" parent_task "task-map";
     ContentEntry.mk "entry-orion" parent_project "proj-orion";
     ContentEntry.mk "entry-rent" parent_task "task-rent"] [].

(** [{ completionPercent: 140 }] *)
Definition overshoot : ProjectPatch.t := ProjectPatch.mk None None None None (Some 140%Z).

(** A CSV of reminders with a [title] column: a known title, a row
    without a title and a row that is too short. *)
Definition reminders : ImportPreviewRequest.t :=
  ImportPreviewRequest.mk ImportType.apple_reminders "title, notes
pay   rent!,soon

,later
Buy milk".

End Sample2.

(** ** [src/lib/store.ts]: content entries and import statuses

    Content entries refer to uploaded assets, and committing an import
    bumps the counters of [import_statuses]: the two tables are kept beside
    the store of projects and tasks.  As before a content entry is the row
    without the columns that no operation below reads back
    ([entry_type], [text_content], [url], [asset_id] and the timestamps). *)
Inductive ContentEntryType := entry_text | entry_url | entry_image.

Module ImportStatus.
Record t := mk { source : SourceType; importedCount : Z; lastImportedAt : string }.
End ImportStatus.

(** [new URL(s).protocol], [None] when the constructor throws. *)
Class JsURL := {
  urlProtocol : string -> option string
}.

Module Content.
Import Sql Store.
Local Open Scope string_scope.

Record Tables := mkTables {
  main : Db;
  content_assets : list string;
  import_statuses : list ImportStatus.t
}.

Definition set_main (db : Db) (w : Tables) : Tables :=
  mkTables db (content_assets w) (import_statuses w).

Definition source_text (s : SourceType) : string :=
  match s with
  | mission_control => "mission_control"
  | apple_reminders => "apple_reminders"
  | apple_notes => "apple_notes"
  | chatgpt => "chatgpt"
  | claude => "claude"
  end.

(** [SELECT ... FROM content_entries WHERE parent_type = ? AND parent_id = ?];
    the rows are listed latest first, by a column that is not kept. *)
Definition listContentEntries (parentType : ContentParentType) (parentId : string) (db : Db)
  : list ContentEntry.t :=
  filter (fun e => ContentParentType_beq (ContentEntry.parentType e) parentType
                   && String.eqb (ContentEntry.parentId e) parentId)
    (content_entries db).

Module CreateContentEntryInput.
Record t := mk {
  parentType : ContentParentType;
  parentId : string;
  entryType : ContentEntryType;
  textContent : option string;
  url : option string;
  assetId : option string
}.
End CreateContentEntryInput.

(** The checks on a [url] entry: the url is there, parses, and its
    protocol starts with [http]. *)
Definition urlAccepted `{JsURL} (url : option string) : bool :=
  match url with
  | Some u =>
      if String.eqb u "" then false
      else match urlProtocol u with
           | Some protocol => prefix "http" protocol
           | None => false
           end
  | None => false
  end.

(** The checks on an [image] entry: the asset id is there and names a row
    of [content_assets]. *)
Definition assetAccepted (assets : list string) (assetId : option string) : bool :=
  match assetId with
  | Some a => negb (String.eqb a "") && existsb (String.eqb a) assets
  | None => false
  end.

Definition createContentEntry `{JsURL} (newId : string) (input : CreateContentEntryInput.t)
    (w : Tables) : Tables * option ContentEntry.t :=
  let db := main w in
  let parentType := CreateContentEntryInput.parentType input in
  let parentId := CreateContentEntryInput.parentId input in
  if match parentType with
     | parent_project => negb (projectExists db parentId)
     | parent_task => negb (existsb (has_id parentId) (tasks db))
     end
  then (w, None)
  else if match CreateContentEntryInput.entryType input with
          | entry_url => negb (urlAccepted (CreateContentEntryInput.url input))
          | entry_image =>
              negb (assetAccepted (content_assets w) (CreateContentEntryInput.assetId input))
          | entry_text => false
          end
  then (w, None)
  else
    let db1 :=
      set_content_entries
        (content_entries db ++ [ContentEntry.mk newId parentType parentId])%list db in
    let db2 := insertActivity act_content newId "created" db1 in
    (set_main db2 w,
     find (fun entry => String.eqb (ContentEntry.id entry) newId)
       (listContentEntries parentType parentId db2)).

Definition deleteContentEntry (id : string) (w : Tables) : Tables * bool :=
  let db := main w in
  match find (fun entry => String.eqb (ContentEntry.id entry) id) (content_entries db) with
  | None => (w, false)
  | Some _ =>
      let db1 :=
        set_content_entries
          (delete_where (fun entry => String.eqb (ContentEntry.id entry) id)
             (content_entries db)) db in
      (set_main (insertActivity act_content id "deleted" db1) w, true)
  end.

Definition bumpImportStatus (ts : string) (source : SourceType) (count : Z) (w : Tables)
  : Tables :=
  let statuses :=
    if existsb (fun row => SourceType_beq (ImportStatus.source row) source) (import_statuses w)
    then
      update_where (fun row => SourceType_beq (ImportStatus.source row) source)
        (fun row => ImportStatus.mk (ImportStatus.source row)
                      (ImportStatus.importedCount row + count) ts)
        (import_statuses w)
    else (import_statuses w ++ [ImportStatus.mk source count ts])%list in
  mkTables (insertActivity act_import (source_text source) "imported" (main w))
    (content_assets w) statuses.

End Content.

(** ** [src/lib/imports.ts]: committing an import *)
Module ImportCommitRow.
Record t := mk {
  values : list (string * string);
  action : ImportAction.t;
  duplicateMatch : option ImportDuplicateMatch.t
}.
End ImportCommitRow.

(** A row of the request body: a commit row, or the flat record of a
    legacy client, which has no [values] property. *)
Inductive CommitRowBody :=
| commit_row (row : ImportCommitRow.t)
| legacy_row (record : list (string * string)).

Module ImportCommitRequest.
Record t := mk { type : ImportType.t; rows : list CommitRowBody }.
End ImportCommitRequest.

Module ImportCommitResponse.
Record t := mk {
  createdProjects : nat;
  updatedProjects : nat;
  createdTasks : nat;
  updatedTasks : nat;
  createdContentEntries : nat;
  updatedContentEntries : nat;
  skippedRows : nat
}.
End ImportCommitResponse.

(** What the store calls made for one row draw from the environment: the
    clock readings and ids of [updateTask] and [createTask], the id of
    [createContentEntry], the clock reading of [updateProject], and the id
    and clock reading of [createProject]. *)
Module CommitRowEnv.
Record t := mk {
  taskUpdate : Store.UpdateTaskEnv.t;
  taskCreate : Store.CreateTaskEnv.t;
  entryId : string;
  tsProjectUpdate : string;
  projectId : string;
  tsProjectCreate : string
}.
End CommitRowEnv.

Module Commit.
Import Sql Store Content Imports.
Local Open Scope string_scope.

(** [s.replace(/\s+/g, "_")] *)
Fixpoint underscoreSpaces (inRun : bool) (l : list ascii) : list ascii :=
  match l with
  | [] => []
  | c :: l' =>
      if Js.isSpace c
      then (if inRun then underscoreSpaces true l' else "_"%char :: underscoreSpaces true l')
      else c :: underscoreSpaces false l'
  end.

(** [raw ?? ""] *)
Definition orEmpty (raw : option string) : string :=
  match raw with Some s => s | None => "" end.

Definition normalizeProjectStatus (raw : option string) : ProjectStatus :=
  let value := Js.toLowerCase (Js.trim (orEmpty raw)) in
  if String.eqb value "active" then ps_active
  else if String.eqb value "blocked" then ps_blocked
  else if String.eqb value "done" then ps_done
  else ps_planned.

Definition normalizeTaskStatus (raw : option string) : TaskStatus :=
  let value :=
    Js.str (underscoreSpaces false (Js.chars (Js.toLowerCase (Js.trim (orEmpty raw))))) in
  if String.eqb value "in_progress" then in_progress
  else if String.eqb value "blocked" then blocked
  else if String.eqb value "parking_lot" then parking_lot
  else if String.eqb value "done" then done
  else todo.

Definition normalizeCommitRows (payload : ImportCommitRequest.t) : list ImportCommitRow.t :=
  map (fun row =>
         match row with
         | commit_row r => r
         | legacy_row legacy => ImportCommitRow.mk legacy ImportAction.create None
         end)
    (ImportCommitRequest.rows payload).

(** [x?.trim()], [x || null] and [x || y] on strings that may be missing. *)
Definition trimmed (x : option string) : option string := option_map Js.trim x.

Definition orNull (x : option string) : option string :=
  if truthy x then x else None.

Definition orElse (x : option string) (y : string) : string :=
  match x with
  | Some s => if String.eqb s "" then y else s
  | None => y
  end.

(** The counters, and [counter += 1] for each. *)
Definition Counters : Type := ImportCommitResponse.t.

Definition createdProject (c : Counters) : Counters :=
  ImportCommitResponse.mk (S (ImportCommitResponse.createdProjects c))
    (ImportCommitResponse.updatedProjects c) (ImportCommitResponse.createdTasks c)
    (ImportCommitResponse.updatedTasks c) (ImportCommitResponse.createdContentEntries c)
    (ImportCommitResponse.updatedContentEntries c) (ImportCommitResponse.skippedRows c).

Definition updatedProject (c : Counters) : Counters :=
  ImportCommitResponse.mk (ImportCommitResponse.createdProjects c)
    (S (ImportCommitResponse.updatedProjects c)) (ImportCommitResponse.createdTasks c)
    (ImportCommitResponse.updatedTasks c) (ImportCommitResponse.createdContentEntries c)
    (ImportCommitResponse.updatedContentEntries c) (ImportCommitResponse.skippedRows c).

Definition createdTask (c : Counters) : Counters :=
  ImportCommitResponse.mk (ImportCommitResponse.createdProjects c)
    (ImportCommitResponse.updatedProjects c) (S (ImportCommitResponse.createdTasks c))
    (ImportCommitResponse.updatedTasks c) (ImportCommitResponse.createdContentEntries c)
    (ImportCommitResponse.updatedContentEntries c) (ImportCommitResponse.skippedRows c).

Definition updatedTask (c : Counters) : Counters :=
  ImportCommitResponse.mk (ImportCommitResponse.createdProjects c)
    (ImportCommitResponse.updatedProjects c) (ImportCommitResponse.createdTasks c)
    (S (ImportCommitResponse.updatedTasks c)) (ImportCommitResponse.createdContentEntries c)
    (ImportCommitResponse.updatedContentEntries c) (ImportCommitResponse.skippedRows c).

Definition createdContentEntry (c : Counters) : Counters :=
  ImportCommitResponse.mk (ImportCommitResponse.createdProjects c)
    (ImportCommitResponse.updatedProjects c) (ImportCommitResponse.createdTasks c)
    (ImportCommitResponse.updatedTasks c) (S (ImportCommitResponse.createdContentEntries c))
    (ImportCommitResponse.updatedContentEntries c) (ImportCommitResponse.skippedRows c).

Definition skippedRow (c : Counters) : Counters :=
  ImportCommitResponse.mk (ImportCommitResponse.createdProjects c)
    (ImportCommitResponse.updatedProjects c) (ImportCommitResponse.createdTasks c)
    (ImportCommitResponse.updatedTasks c) (ImportCommitResponse.createdContentEntries c)
    (ImportCommitResponse.updatedContentEntries c) (S (ImportCommitResponse.skippedRows c)).

(** [row.action === "update" && row.duplicateMatch?.entityType === entityType],
    with the id of the match. *)
Definition updateTarget (entityType : ImportEntityType) (row : ImportCommitRow.t)
  : option string :=
  match ImportCommitRow.action row, ImportCommitRow.duplicateMatch row with
  | ImportAction.update, Some m =>
      match ImportDuplicateMatch.entityType m, entityType with
      | entity_task, entity_task | entity_project, entity_project =>
          Some (ImportDuplicateMatch.id m)
      | _, _ => None
      end
  | _, _ => None
  end.

(** A row of reminders: the task of the match is updated, and a task is
    created when there is no such match or the update answers null. *)
Definition commitReminder `{JsDate} (source : SourceType) (inboxId : string)
    (env : CommitRowEnv.t) (row : ImportCommitRow.t) (title : string)
    (st : Tables * Counters) : Tables * Counters :=
  let '(w, c) := st in
  let values := ImportCommitRow.values row in
  let projectId := orElse (trimmed (getProp "project_id" values)) inboxId in
  let updated :=
    match updateTarget entity_task row with
    | Some id =>
        updateTask (CommitRowEnv.taskUpdate env) id
          (TaskPatch.mk (Some title) (Some (orNull (getProp "notes" values)))
             (Some (normalizeTaskStatus (getProp "status" values))) None
             (Some (orNull (getProp "due_date" values))) None (Some (Some projectId))
             None None)
          (main w)
    | None => (main w, None)
    end in
  match snd updated with
  | Some _ => (set_main (fst updated) w, updatedTask c)
  | None =>
      let created :=
        createTask (CommitRowEnv.taskCreate env)
          (CreateTaskInput.mk title (orNull (getProp "notes" values))
             (Some (normalizeTaskStatus (getProp "status" values))) None
             (orNull (getProp "due_date" values)) None (Some projectId) (Some source) None)
          (fst updated) in
      (set_main (fst created) w, createdTask c)
  end.

(** A row of notes becomes a text entry of a task or of a project. *)
Definition commitNote `{JsURL} (inboxId : string) (env : CommitRowEnv.t)
    (row : ImportCommitRow.t) (title : string) (st : Tables * Counters) : Tables * Counters :=
  let '(w, c) := st in
  let values := ImportCommitRow.values row in
  let taskId := trimmed (getProp "task_id" values) in
  let parentType := if truthy taskId then parent_task else parent_project in
  let parentId := orElse taskId (orElse (trimmed (getProp "project_id" values)) inboxId) in
  let created :=
    createContentEntry (CommitRowEnv.entryId env)
      (CreateContentEntryInput.mk parentType parentId entry_text
         (Some (orElse (trimmed (getProp "content" values)) title)) None None)
      w in
  match snd created with
  | Some _ => (fst created, createdContentEntry c)
  | None => (fst created, skippedRow c)
  end.

(** A row of projects: as for reminders. *)
Definition commitProject (source : SourceType) (env : CommitRowEnv.t)
    (row : ImportCommitRow.t) (title : string) (st : Tables * Counters) : Tables * Counters :=
  let '(w, c) := st in
  let values := ImportCommitRow.values row in
  let updated :=
    match updateTarget entity_project row with
    | Some id =>
        updateProject (CommitRowEnv.tsProjectUpdate env) id
          (ProjectPatch.mk (Some title) (Some (orNull (getProp "notes" values)))
             (Some (normalizeProjectStatus (getProp "status" values)))
             (Some (orNull (getProp "due_date" values))) None)
          (main w)
    | None => (main w, None)
    end in
  match snd updated with
  | Some _ => (set_main (fst updated) w, updatedProject c)
  | None =>
      let created :=
        createProject (CommitRowEnv.projectId env) (CommitRowEnv.tsProjectCreate env)
          (CreateProjectInput.mk title (orNull (getProp "notes" values))
             (Some (normalizeProjectStatus (getProp "status" values)))
             (orNull (getProp "due_date" values)) (Some source))
          (fst updated) in
      (set_main (fst created) w, createdProject c)
  end.

(** One turn of the loop over the rows. *)
Definition commitRow `{JsDate} `{JsURL} (type : ImportType.t) (inboxId : string)
    (env : CommitRowEnv.t) (row : ImportCommitRow.t) (st : Tables * Counters)
  : Tables * Counters :=
  let title := trimmed (getProp "title" (ImportCommitRow.values row)) in
  let skip :=
    negb (truthy title)
    || match ImportCommitRow.action row with ImportAction.skip => true | _ => false end in
  if skip then (fst st, skippedRow (snd st))
  else
    match type with
    | ImportType.apple_reminders =>
        commitReminder (typeToSource type) inboxId env row (orEmpty title) st
    | ImportType.apple_notes => commitNote inboxId env row (orEmpty title) st
    | ImportType.chatgpt_projects | ImportType.claude_projects =>
        commitProject (typeToSource type) env row (orEmpty title) st
    end.

Definition changedOf (c : Counters) : nat :=
  ImportCommitResponse.createdProjects c + ImportCommitResponse.createdTasks c
  + ImportCommitResponse.createdContentEntries c + ImportCommitResponse.updatedProjects c
  + ImportCommitResponse.updatedTasks c + ImportCommitResponse.updatedContentEntries c.

(** [tsInbox] and [tsStatus] are the clock readings of [ensureInboxProject]
    and of [bumpImportStatus], [env k] is what the calls for the row at
    index [k] draw. *)
Definition commitImport `{JsDate} `{JsURL} (tsInbox tsStatus : string)
    (env : nat -> CommitRowEnv.t) (payload : ImportCommitRequest.t) (w : Tables)
  : Tables * ImportCommitResponse.t :=
  let type := ImportCommitRequest.type payload in
  let source := typeToSource type in
  let rows := normalizeCommitRows payload in
  let w0 := set_main (ensureInboxProject tsInbox (main w)) w in
  let inboxId := INBOX_PROJECT_ID in
  let '(w1, counters) :=
    Js.forEachIndex (fun row index st => commitRow type inboxId (env index) row st)
      rows 0%nat (w0, ImportCommitResponse.mk 0 0 0 0 0 0 0) in
  let changed := changedOf counters in
  ((if (0 <? changed)%nat then bumpImportStatus tsStatus source (Z.of_nat changed) w1 else w1),
   counters).

End Commit.

(** ** Properties of a commit *)
Module CommitSpec.
Import Store StoreSpec StoreSpec2 Content.

(** [imported_count] of the row of [source], if there is one. *)
Definition importedOf (source : SourceType) (statuses : list ImportStatus.t) : option Z :=
  option_map ImportStatus.importedCount
    (find (fun row => SourceType_beq (ImportStatus.source row) source) statuses).

(** Every task has its project, every content entry its parent, and the
    Inbox is there. *)
Definition linked (db : Db) : Prop :=
  refs_ok db /\ content_refs_ok db /\ projectExists db INBOX_PROJECT_ID = true.

End CommitSpec.

(** ** Samples for the board and for a commit *)
Module Sample3.
Import Store Content.
Local Open Scope string_scope.

(** A runtime that compares strings by code units. *)
Definition codeUnitLocale : JsLocale := {| localeCompare := String.compare |}.

(** A runtime whose URLs are a scheme, a colon and anything. *)
Definition schemeUrls : JsURL :=
  {| urlProtocol := fun s =>
       match index 0 ":" s with
       | Some n => if (0 <? n)%nat then Some (substring 0 (n + 1) s) else None
       | None => None
       end |}.

(** The page showing the sample store in another order than the table's. *)
Definition shown : list Task.t :=
  [Sample.backfill; Sample.mapFolders; Sample.validator; Sample.payRent].

(** The sample store with its notes, beside an empty table of assets and
    one import status. *)
Definition tables : Tables :=
  mkTables Sample2.noted [] [ImportStatus.mk claude 4 Sample.t0].

Definition digitOf (k : nat) : string := String (ascii_of_nat (48 + k mod 10)) EmptyString.

(** What the calls for the row at index [k] draw: ids ending in [k]. *)
Definition rowEnv (k : nat) : CommitRowEnv.t :=
  CommitRowEnv.mk
    (UpdateTaskEnv.mk "2026-03-02T09:00:00.000Z" "2026-03-02T09:00:01.000Z"
       "2026-03-02T09:00:01.000Z"
       (CreateTaskEnv.mk ("task-next-" ++ digitOf k) "2026-03-02T09:00:02.000Z"
          "2026-03-02T09:00:02.000Z"))
    (CreateTaskEnv.mk ("task-import-" ++ digitOf k) "2026-03-02T09:00:03.000Z"
       "2026-03-02T09:00:03.000Z")
    ("entry-import-" ++ digitOf k) "2026-03-02T09:00:04.000Z"
    ("proj-import-" ++ digitOf k) "2026-03-02T09:00:05.000Z".

(** Four reminders: one updating the rent task and naming a project that
    does not exist, one to create, one to skip and one without a title. *)
Definition reminderRows : ImportCommitRequest.t :=
  ImportCommitRequest.mk ImportType.apple_reminders
    [commit_row
       (ImportCommitRow.mk
          [("title", " Pay Rent "); ("status", "In Progress"); ("project_id", "proj-gone")]
          ImportAction.update
          (Some (ImportDuplicateMatch.mk entity_task "task-rent" "Pay Rent" 1 kind_exact)));
     commit_row (ImportCommitRow.mk [("title", "Buy milk"); ("notes", "2 litres")]
                   ImportAction.create None);
     commit_row (ImportCommitRow.mk [("title", "Map folders")] ImportAction.skip None);
     legacy_row [("notes", "no title here")]].

(** A note for the rent task. *)
Definition rentNote : CreateContentEntryInput.t :=
  CreateContentEntryInput.mk parent_task "task-rent" entry_text (Some "paid in March") None None.

End Sample3.

(** ** Facts about the lane engine *)
Module LaneFacts.
Import Sql Store LaneSpec.

Lemma insert_by_perm {A : Type} (le : A -> A -> bool) x l :
  Permutation (insert_by le x l) (x :: l).
Proof.
  induction l as [|y l IH]; simpl; [reflexivity|].
  destruct (le x y); [reflexivity|].
  rewrite IH. apply perm_swap.
Qed.

Lemma order_by_perm {A : Type} (cmp : A -> A -> comparison) l :
  Permutation (order_by cmp l) l.
Proof.
  induction l as [|x l IH]; [constructor|].
  unfold order_by in *. simpl. rewrite insert_by_perm. now constructor.
Qed.

Lemma forEachIndex_map {A B S : Type} (h : A -> B) (f : B -> nat -> S -> S) l i s :
  Js.forEachIndex (fun x => f (h x)) l i s = Js.forEachIndex f (map h l) i s.
Proof. revert i s. induction l as [|x l IH]; intros; simpl; [reflexivity|apply IH]. Qed.

Lemma pos_None x ids : pos x ids = None <-> ~ In x ids.
Proof.
  induction ids as [|y ids IH]; simpl; [tauto|].
  destruct (String.eqb_spec x y) as [->|Hne].
  - split; [discriminate|]. intros H; exfalso; apply H; now left.
  - destruct (pos x ids); simpl.
    + split; [discriminate|]. intros H. exfalso. apply H. right.
      destruct (in_dec string_dec x ids) as [Hin|Hn]; [assumption|].
      apply IH in Hn. discriminate.
    + split; [|reflexivity]. intros _ [Heq|Hin]; [congruence|].
      now apply (proj1 IH).
Qed.

Lemma pos_Some_In x ids k : pos x ids = Some k -> In x ids.
Proof.
  intros H. destruct (in_dec string_dec x ids) as [Hin|Hn]; [assumption|].
  apply pos_None in Hn. congruence.
Qed.

Lemma In_pos x ids : In x ids -> exists k, pos x ids = Some k.
Proof.
  intros Hin. destruct (pos x ids) as [k|] eqn:E; [eauto|].
  apply pos_None in E. contradiction.
Qed.

Section IndexedUpdate.
Variable upd : nat -> Task.t -> Task.t.
Hypothesis upd_id : forall i t, Task.id (upd i t) = Task.id t.

Lemma apply_at_id ids i0 t : Task.id (apply_at upd ids i0 t) = Task.id t.
Proof. unfold apply_at. destruct (pos (Task.id t) ids); [apply upd_id|reflexivity]. Qed.

Lemma forEach_update_spec ids : forall i0 rows,
  NoDup ids ->
  Js.forEachIndex (fun x i acc => update_where (has_id x) (upd i) acc) ids i0 rows
  = map (apply_at upd ids i0) rows.
Proof.
  induction ids as [|x ids IH]; intros i0 rows Hnd; simpl.
  - unfold apply_at. simpl. symmetry. apply map_id.
  - inversion Hnd as [|? ? Hx Hnd']; subst.
    rewrite IH by assumption. unfold update_where. rewrite map_map.
    apply map_ext. intros t. unfold apply_at, has_id. simpl.
    destruct (String.eqb_spec (Task.id t) x) as [Heq|Hne].
    + rewrite upd_id, Heq. apply pos_None in Hx. rewrite Hx.
      now rewrite Nat.add_0_r.
    + destruct (pos (Task.id t) ids); simpl; [|reflexivity].
      now rewrite Nat.add_succ_r.
Qed.

Lemma map_id_apply_at ids i0 rows :
  map Task.id (map (apply_at upd ids i0) rows) = map Task.id rows.
Proof. rewrite map_map. apply map_ext. intros; apply apply_at_id. Qed.
End IndexedUpdate.

Lemma pos_self_seq ids : NoDup ids ->
  map (fun x => pos x ids) ids = map Some (seq 0 (List.length ids)).
Proof.
  induction ids as [|y ids IH]; intros Hnd; [reflexivity|].
  inversion Hnd as [|? ? Hy Hnd']; subst. simpl.
  rewrite String.eqb_refl. f_equal.
  rewrite <- seq_shift, map_map.
  transitivity (map (option_map S) (map (fun x => pos x ids) ids)).
  - rewrite map_map. apply map_ext_in. intros x Hx.
    destruct (String.eqb_spec x y) as [->|_]; [contradiction|reflexivity].
  - rewrite IH by assumption. now rewrite map_map.
Qed.

Lemma setHas_In s x : Js.setHas s x = true <-> In x s.
Proof.
  unfold Js.setHas. rewrite existsb_exists. split.
  - intros [y [Hy He]]. apply String.eqb_eq in He. now subst.
  - intros H. exists x. split; [assumption|apply String.eqb_refl].
Qed.

Lemma setHas_false s x : Js.setHas s x = false <-> ~ In x s.
Proof.
  rewrite <- setHas_In. destruct (Js.setHas s x); split; congruence.
Qed.

Lemma NoDup_map_filter {A B : Type} (f : A -> B) (p : A -> bool) l :
  NoDup (map f l) -> NoDup (map f (filter p l)).
Proof.
  induction l as [|a l IH]; simpl; intros Hnd; [constructor|].
  inversion Hnd as [|? ? Ha Hnd']; subst.
  destruct (p a); simpl; [constructor|]; auto.
  intros Hin. apply Ha. apply in_map_iff in Hin as [b [Hb Hin]].
  apply filter_In in Hin as [Hin _]. apply in_map_iff. eauto.
Qed.

Lemma NoDup_map_eq {A B : Type} (f : A -> B) l a b :
  NoDup (map f l) -> In a l -> In b l -> f a = f b -> a = b.
Proof.
  induction l as [|c l IH]; simpl; intros Hnd Ha Hb Hf; [contradiction|].
  inversion Hnd as [|? ? Hc Hnd']; subst.
  destruct Ha as [->|Ha], Hb as [->|Hb]; auto.
  - exfalso. apply Hc. rewrite Hf. now apply in_map.
  - exfalso. apply Hc. rewrite <- Hf. now apply in_map.
Qed.

(** A filter that a row-wise update cannot tell apart from the old rows. *)
Lemma filter_map_same {A : Type} (p : A -> bool) (g : A -> A) l :
  (forall t, In t l -> p (g t) = p t /\ (p t = true -> g t = t)) ->
  filter p (map g l) = filter p l.
Proof.
  induction l as [|a l IH]; simpl; intros H; [reflexivity|].
  destruct (H a (or_introl eq_refl)) as [Hp Hg].
  rewrite Hp. destruct (p a) eqn:E.
  - rewrite Hg by reflexivity. f_equal. apply IH. intros; apply H; now right.
  - apply IH. intros; apply H; now right.
Qed.

Section Renumbering.
Variable upd : nat -> Task.t -> Task.t.
Hypothesis upd_id : forall i t, Task.id (upd i t) = Task.id t.
Hypothesis upd_order : forall i t, Task.order (upd i t) = Z.of_nat i.

(** After the indexed updates, the rows named by [ids] carry the
    positions 0, ..., |ids|-1. *)
Lemma indexed_update_dense ids rows :
  NoDup (map Task.id rows) -> NoDup ids -> incl ids (map Task.id rows) ->
  let M := filter (fun t => Js.setHas ids (Task.id t)) (map (apply_at upd ids 0) rows) in
  Permutation (map Task.order M) (map Z.of_nat (seq 0 (List.length ids)))
  /\ List.length M = List.length ids.
Proof.
  intros Hrows Hids Hincl M.
  set (F := filter (fun t => Js.setHas ids (Task.id t)) rows).
  assert (HM : M = map (apply_at upd ids 0) F).
  { unfold M, F. rewrite filter_map_swap. f_equal. apply filter_ext.
    intros t. now rewrite apply_at_id. }
  assert (Hperm : Permutation (map Task.id F) ids).
  { apply NoDup_Permutation; [now apply NoDup_map_filter|assumption|].
    intros x. split.
    - intros Hin. apply in_map_iff in Hin as [t [<- Ht]].
      apply filter_In in Ht as [_ Ht]. now apply setHas_In.
    - intros Hin. destruct (proj1 (in_map_iff _ _ _) (Hincl x Hin)) as [t [<- Ht]].
      apply in_map. apply filter_In. split; [assumption|now apply setHas_In]. }
  split.
  - rewrite HM, map_map.
    set (h := fun x => Z.of_nat (match pos x ids with Some k => k | None => 0%nat end)).
    transitivity (map h (map Task.id F)).
    + rewrite map_map. apply Permutation_refl'. apply map_ext_in.
      intros t Ht. unfold apply_at, h.
      destruct (pos (Task.id t) ids) eqn:E; [apply upd_order|].
      exfalso. apply filter_In in Ht as [_ Ht]. apply setHas_In in Ht.
      apply In_pos in Ht as [k Hk]. congruence.
    + rewrite (Permutation_map h Hperm). apply Permutation_refl'.
      unfold h. rewrite <- (map_map (fun x => pos x ids)
                              (fun o => Z.of_nat (match o with Some k => k | None => 0%nat end))).
      rewrite pos_self_seq by assumption. rewrite map_map. reflexivity.
  - rewrite HM, length_map, <- (length_map Task.id F). now apply Permutation_length.
Qed.
End Renumbering.

Lemma status_beq_eq a b : TaskStatus_beq a b = true <-> a = b.
Proof. destruct a, b; simpl; split; (reflexivity || discriminate). Qed.

Lemma status_beq_neq a b : TaskStatus_beq a b = false <-> a <> b.
Proof. destruct a, b; simpl; split; (reflexivity || discriminate || congruence). Qed.

Lemma in_lane_iff s t : in_lane s t = true <-> Task.status t = s.
Proof. apply status_beq_eq. Qed.

Lemma lane_In s rows t : In t (lane s rows) <-> In t rows /\ Task.status t = s.
Proof. unfold lane. rewrite filter_In, in_lane_iff. reflexivity. Qed.

Lemma dense_lane_same s rows rows' :
  lane s rows' = lane s rows -> dense_lane s rows -> dense_lane s rows'.
Proof. unfold dense_lane. now intros ->. Qed.

Lemma renumber_spec rows0 table :
  NoDup (map Task.id rows0) ->
  renumber rows0 table = map (apply_at set_index (map Task.id rows0) 0) table.
Proof.
  intros Hnd. unfold renumber.
  rewrite <- (forEach_update_spec set_index (fun _ _ => eq_refl) (map Task.id rows0) 0 table Hnd).
  apply (forEachIndex_map Task.id
           (fun x i acc => update_where (has_id x) (set_index i) acc)).
Qed.

(** The repair of section 4.6: renumbering lane [s] in a sorted order of
    its members makes it dense and leaves every other lane as it was. *)
Lemma repair_lane (cmp : Task.t -> Task.t -> comparison) s rows :
  NoDup (map Task.id rows) ->
  let rows' := renumber (order_by cmp (lane s rows)) rows in
  map Task.id rows' = map Task.id rows
  /\ dense_lane s rows'
  /\ (forall s', s' <> s -> lane s' rows' = lane s' rows).
Proof.
  intros Hnd rows'.
  set (ids := map Task.id (order_by cmp (lane s rows))).
  assert (Hsorted : Permutation ids (map Task.id (lane s rows)))
    by (apply Permutation_map, order_by_perm).
  assert (Hids : NoDup ids).
  { apply (Permutation_NoDup (Permutation_sym Hsorted)). now apply NoDup_map_filter. }
  assert (Hspec : rows' = map (apply_at set_index ids 0) rows)
    by (apply renumber_spec; exact Hids).
  assert (Hkey : forall t, In t rows -> (In (Task.id t) ids <-> Task.status t = s)).
  { intros t Ht. split.
    - intros Hin. apply (Permutation_in _ Hsorted) in Hin.
      apply in_map_iff in Hin as [t' [Hid Ht']]. apply lane_In in Ht' as [Ht' Hs].
      now rewrite <- (NoDup_map_eq Task.id rows t' t Hnd Ht' Ht Hid).
    - intros Hs. apply (Permutation_in _ (Permutation_sym Hsorted)).
      apply in_map. now apply lane_In. }
  assert (Hstatus : forall t, Task.status (apply_at set_index ids 0 t) = Task.status t).
  { intros t. unfold apply_at. now destruct (pos (Task.id t) ids). }
  split; [|split].
  - rewrite Hspec. apply map_id_apply_at. reflexivity.
  - assert (Hincl : incl ids (map Task.id rows)).
    { intros x Hx. apply (Permutation_in _ Hsorted) in Hx.
      apply in_map_iff in Hx as [t [<- Ht]]. apply lane_In in Ht as [Ht _].
      now apply in_map. }
    destruct (indexed_update_dense set_index (fun _ _ => eq_refl) (fun _ _ => eq_refl)
                ids rows Hnd Hids Hincl) as [Hperm Hlen].
    assert (Hlane : lane s rows'
                    = filter (fun t => Js.setHas ids (Task.id t))
                        (map (apply_at set_index ids 0) rows)).
    { rewrite Hspec. unfold lane. apply filter_ext_in. intros t' Ht'.
      apply in_map_iff in Ht' as [t [<- Ht]].
      rewrite apply_at_id by reflexivity.
      unfold in_lane. rewrite Hstatus.
      destruct (Js.setHas ids (Task.id t)) eqn:E.
      - apply status_beq_eq, Hkey; [assumption|now apply setHas_In].
      - apply status_beq_neq. intros Hs. apply setHas_false in E. apply E.
        now apply Hkey. }
    unfold dense_lane. rewrite Hlane, Hlen. exact Hperm.
  - intros s' Hs'. rewrite Hspec. unfold lane. apply filter_map_same.
    intros t Ht. unfold in_lane. rewrite Hstatus. split; [reflexivity|].
    intros Hin. apply status_beq_eq in Hin.
    unfold apply_at. destruct (pos (Task.id t) ids) eqn:E; [|reflexivity].
    exfalso. apply pos_Some_In in E. apply Hkey in E; [|assumption]. congruence.
Qed.

Lemma dedupe_acc l : forall acc,
  NoDup acc ->
  NoDup (fold_left (fun s x => Js.setAdd x s) l acc)
  /\ (forall x, In x (fold_left (fun s x => Js.setAdd x s) l acc) <-> In x acc \/ In x l).
Proof.
  induction l as [|a l IH]; intros acc Hacc; simpl.
  - split; [assumption|]. intros x. tauto.
  - assert (Hadd : NoDup (Js.setAdd a acc) /\ forall x, In x (Js.setAdd a acc) <-> In x acc \/ a = x).
    { unfold Js.setAdd. fold (Js.setHas acc a). destruct (Js.setHas acc a) eqn:E.
      - apply setHas_In in E. split; [assumption|]. intros x. split; [tauto|].
        intros [H| <-]; assumption.
      - apply setHas_false in E. split.
        + apply NoDup_app; [assumption|repeat constructor; intros []|].
          intros y Hy [<-|[]]. contradiction.
        + intros x. rewrite in_app_iff. simpl. tauto. }
    destruct Hadd as [Hnd Hin]. destruct (IH _ Hnd) as [IH1 IH2].
    split; [assumption|]. intros x. rewrite IH2, Hin. tauto.
Qed.

Lemma dedupe_NoDup l : NoDup (Js.dedupe l).
Proof. apply (dedupe_acc l []). constructor. Qed.

Lemma dedupe_In l x : In x (Js.dedupe l) <-> In x l.
Proof.
  unfold Js.dedupe. rewrite (proj2 (dedupe_acc l [] (NoDup_nil _))). simpl. tauto.
Qed.

Lemma orderedIdsOf_In input x :
  In x (orderedIdsOf input) <-> In x (ReorderInput.orderedTaskIds input) /\ x <> EmptyString.
Proof.
  unfold orderedIdsOf. rewrite dedupe_In, filter_In.
  destruct (String.eqb_spec x EmptyString); simpl; intuition congruence.
Qed.

Lemma find_has_id id rows t :
  find (has_id id) rows = Some t -> In t rows /\ Task.id t = id.
Proof.
  intros H. apply find_some in H as [Hin Hid]. split; [assumption|].
  now apply String.eqb_eq in Hid.
Qed.

(** What an accepted payload has passed. *)
Lemma reorderAccepted_inv input db moved :
  reorderAccepted input db = Some moved ->
  In moved (tasks db)
  /\ Task.id moved = ReorderInput.movedTaskId input
  /\ In (ReorderInput.movedTaskId input) (orderedIdsOf input)
  /\ List.length (rows_in (orderedIdsOf input) (tasks db)) = List.length (orderedIdsOf input)
  /\ (forall row, In row (tasks db) -> In (Task.id row) (orderedIdsOf input) ->
        Task.id row = ReorderInput.movedTaskId input
        \/ Task.status row = ReorderInput.toStatus input).
Proof.
  unfold reorderAccepted.
  destruct (find _ (tasks db)) as [m|] eqn:Hfind; [|discriminate].
  destruct (Js.setHas (orderedIdsOf input) (ReorderInput.movedTaskId input)) eqn:Hhas;
    simpl; [|discriminate].
  apply setHas_In in Hhas.
  assert (Hpos : (0 <? List.length (orderedIdsOf input))%nat = true).
  { apply Nat.ltb_lt. destruct (orderedIdsOf input); [contradiction|simpl; lia]. }
  rewrite Hpos. simpl.
  destruct (Nat.eqb_spec (List.length (rows_in (orderedIdsOf input) (tasks db)))
              (List.length (orderedIdsOf input))) as [Hlen|]; simpl; [|discriminate].
  destruct (existsb _ _) eqn:Hex; [discriminate|].
  intros Heq. injection Heq as <-.
  apply find_has_id in Hfind as [Hin Hid].
  repeat split; try assumption.
  intros row Hrow Hids.
  assert (Hf : negb (has_id (ReorderInput.movedTaskId input) row)
               && negb (in_lane (ReorderInput.toStatus input) row) = false).
  { destruct (negb _ && negb _) eqn:E; [|reflexivity].
    assert (existsb (fun row => negb (has_id (ReorderInput.movedTaskId input) row)
                                && negb (in_lane (ReorderInput.toStatus input) row))
              (rows_in (orderedIdsOf input) (tasks db)) = true) as Hc; [|congruence].
    apply existsb_exists. exists row. split; [|assumption].
    apply filter_In. split; [assumption|now apply setHas_In]. }
  apply andb_false_iff in Hf as [Hf|Hf]; apply negb_false_iff in Hf.
  - left. now apply String.eqb_eq in Hf.
  - right. now apply in_lane_iff.
Qed.

Lemma rows_in_cover ids rows :
  NoDup (map Task.id rows) -> NoDup ids ->
  List.length (rows_in ids rows) = List.length ids ->
  incl ids (map Task.id rows).
Proof.
  intros Hrows Hids Hlen.
  assert (Hsub : incl ids (map Task.id (rows_in ids rows))).
  { apply NoDup_length_incl.
    - now apply NoDup_map_filter.
    - rewrite length_map. lia.
    - intros x Hx. apply in_map_iff in Hx as [t [<- Ht]].
      apply filter_In in Ht as [_ Ht]. now apply setHas_In. }
  intros x Hx. apply Hsub in Hx. apply in_map_iff in Hx as [t [<- Ht]].
  apply filter_In in Ht as [Ht _]. now apply in_map.
Qed.

Lemma update_where_ids (p : Task.t -> bool) (f : Task.t -> Task.t) rows :
  (forall t, Task.id (f t) = Task.id t) ->
  map Task.id (update_where p f rows) = map Task.id rows.
Proof.
  intros Hf. unfold update_where. rewrite map_map. apply map_ext.
  intros t. destruct (p t); [apply Hf|reflexivity].
Qed.

(** The transaction of section 4.7: the destination lane and the lane the
    task left come out dense, every other lane is untouched. *)
Lemma reorderTx_lanes ts input moved db :
  unique_ids db ->
  reorderAccepted input db = Some moved ->
  let rows' := reorderTx ts input moved (tasks db) in
  map Task.id rows' = map Task.id (tasks db)
  /\ dense_lane (ReorderInput.toStatus input) rows'
  /\ dense_lane (Task.status moved) rows'
  /\ (forall s, s <> ReorderInput.toStatus input -> s <> Task.status moved ->
        lane s rows' = lane s (tasks db)).
Proof.
  intros Hnd Hacc.
  destruct (reorderAccepted_inv _ _ _ Hacc) as (Hmoved & Hmid & Hmem & Hlen & Hval).
  unfold unique_ids in Hnd. unfold reorderTx.
  set (rows := tasks db) in *.
  set (m := ReorderInput.movedTaskId input) in *.
  set (toS := ReorderInput.toStatus input) in *.
  set (ids := orderedIdsOf input) in *.
  assert (Hpos : (0 <? List.length ids)%nat = true).
  { apply Nat.ltb_lt. destruct ids; [contradiction|simpl; lia]. }
  rewrite Hpos.
  set (rows1 := update_where (has_id m) (with_status_updated toS ts) rows).
  set (remaining := order_by by_lane_position
                      (filter (fun t => in_lane toS t && negb (Js.setHas ids (Task.id t))) rows1)).
  set (finalIds := (ids ++ map Task.id remaining)%list).
  set (upd3 := fun (i : nat) (t : Task.t) => with_order (Z.of_nat i) (with_status_updated toS ts t)).
  set (rows2 := Js.forEachIndex _ finalIds 0%nat rows1).
  assert (Hid1 : map Task.id rows1 = map Task.id rows)
    by (apply update_where_ids; reflexivity).
  assert (Hnd1 : NoDup (map Task.id rows1)) by (rewrite Hid1; exact Hnd).
  assert (Hrem : Permutation remaining
                   (filter (fun t => in_lane toS t && negb (Js.setHas ids (Task.id t))) rows1))
    by apply order_by_perm.
  assert (Hids : NoDup ids) by apply dedupe_NoDup.
  assert (Hrem_in : forall x, In x (map Task.id remaining) ->
            exists t, In t rows1 /\ Task.id t = x /\ Task.status t = toS /\ ~ In x ids).
  { intros x Hx. apply in_map_iff in Hx as [t [<- Ht]].
    apply (Permutation_in _ Hrem) in Ht. apply filter_In in Ht as [Ht Hc].
    apply andb_true_iff in Hc as [Hl Hn]. apply negb_true_iff in Hn.
    exists t. repeat split; [assumption|now apply in_lane_iff|now apply setHas_false]. }
  assert (Hfinal : NoDup finalIds).
  { apply NoDup_app; [assumption| |].
    - apply (Permutation_NoDup (Permutation_sym (Permutation_map Task.id Hrem))).
      now apply NoDup_map_filter.
    - intros x Hx Hr. apply Hrem_in in Hr as (t & _ & _ & _ & Hn). contradiction. }
  assert (Hincl : incl finalIds (map Task.id rows1)).
  { intros x Hx. apply in_app_or in Hx as [Hx|Hx].
    - rewrite Hid1. now apply (rows_in_cover ids rows Hnd Hids Hlen).
    - apply Hrem_in in Hx as (t & Ht & <- & _). now apply in_map. }
  assert (Hkey : forall t, In t rows1 -> (In (Task.id t) finalIds <-> Task.status t = toS)).
  { intros t Ht. split.
    - intros Hin. apply in_app_or in Hin as [Hin|Hin].
      + unfold rows1, update_where in Ht. apply in_map_iff in Ht as [t0 [Het Ht0]].
        unfold has_id in Het. destruct (String.eqb_spec (Task.id t0) m) as [He|Hne].
        * now subst t.
        * subst t. destruct (Hval t0 Ht0 Hin); [contradiction|assumption].
      + apply Hrem_in in Hin as (t' & Ht' & Hid & Hs & _).
        now rewrite <- (NoDup_map_eq Task.id rows1 t' t Hnd1 Ht' Ht Hid).
    - intros Hs. destruct (in_dec string_dec (Task.id t) ids) as [Hi|Hn].
      + apply in_or_app. now left.
      + apply in_or_app. right. apply in_map.
        apply (Permutation_in _ (Permutation_sym Hrem)). apply filter_In.
        split; [assumption|]. apply andb_true_iff. split; [now apply in_lane_iff|].
        apply negb_true_iff. now apply setHas_false. }
  assert (Hspec2 : rows2 = map (apply_at upd3 finalIds 0) rows1)
    by (apply (forEach_update_spec upd3 (fun _ _ => eq_refl) finalIds 0 rows1 Hfinal)).
  assert (Hid2 : map Task.id rows2 = map Task.id rows).
  { rewrite Hspec2, <- Hid1. apply map_id_apply_at. reflexivity. }
  assert (Hdense2 : dense_lane toS rows2).
  { destruct (indexed_update_dense upd3 (fun _ _ => eq_refl) (fun _ _ => eq_refl)
                finalIds rows1 Hnd1 Hfinal Hincl) as [Hperm Hl].
    assert (Hlane : lane toS rows2
                    = filter (fun t => Js.setHas finalIds (Task.id t))
                        (map (apply_at upd3 finalIds 0) rows1)).
    { rewrite Hspec2. unfold lane. apply filter_ext_in. intros t' Ht'.
      apply in_map_iff in Ht' as [t [<- Ht]].
      rewrite apply_at_id by reflexivity.
      unfold apply_at. destruct (pos (Task.id t) finalIds) eqn:E.
      - apply pos_Some_In in E. apply setHas_In in E. rewrite E.
        apply in_lane_iff. reflexivity.
      - apply pos_None in E. rewrite (proj2 (setHas_false _ _) E).
        unfold in_lane. apply status_beq_neq. intros Hs. apply E. now apply Hkey. }
    unfold dense_lane. rewrite Hlane, Hl. exact Hperm. }
  assert (Hother2 : forall s, s <> toS -> lane s rows2 = lane s rows1).
  { intros s Hs. rewrite Hspec2. unfold lane. apply filter_map_same.
    intros t Ht. unfold apply_at.
    destruct (pos (Task.id t) finalIds) eqn:E; [|split; reflexivity].
    apply pos_Some_In in E. apply Hkey in E; [|assumption].
    assert (Hout : in_lane s t = false) by (apply status_beq_neq; congruence).
    rewrite Hout. split; [|discriminate].
    apply status_beq_neq. simpl. congruence. }
  assert (Hother1 : forall s, s <> toS -> s <> Task.status moved -> lane s rows1 = lane s rows).
  { intros s Hs Hm. unfold rows1, update_where, lane. apply filter_map_same.
    intros t Ht. unfold has_id.
    destruct (String.eqb_spec (Task.id t) m) as [He|Hne]; [|split; reflexivity].
    assert (t = moved) by (apply (NoDup_map_eq Task.id rows t moved Hnd Ht Hmoved); congruence).
    subst t.
    assert (Hout : in_lane s moved = false) by (apply status_beq_neq; congruence).
    rewrite Hout. split; [|discriminate].
    apply status_beq_neq. simpl. congruence. }
  destruct (TaskStatus_beq (Task.status moved) toS) eqn:Hsame; simpl.
  - apply status_beq_eq in Hsame.
    split; [assumption|]. split; [assumption|]. split; [now rewrite Hsame|].
    intros s Hs Hm. rewrite Hother2 by assumption. now apply Hother1.
  - apply status_beq_neq in Hsame.
    assert (Hnd2 : NoDup (map Task.id rows2)) by (rewrite Hid2; exact Hnd).
    destruct (repair_lane by_lane_position (Task.status moved) rows2 Hnd2)
      as (Hid3 & Hd3 & Ho3).
    split; [now rewrite Hid3|]. split; [|split].
    + apply (dense_lane_same toS rows2); [|assumption].
      apply Ho3. congruence.
    + exact Hd3.
    + intros s Hs Hm. rewrite Ho3 by assumption.
      rewrite Hother2 by assumption. now apply Hother1.
Qed.

Lemma filter_filter_same {A : Type} (p q : A -> bool) l :
  (forall t, In t l -> p t = true -> q t = true) ->
  filter p (filter q l) = filter p l.
Proof.
  induction l as [|a l IH]; simpl; intros H; [reflexivity|].
  destruct (q a) eqn:Eq; simpl.
  - destruct (p a); [f_equal|]; apply IH; intros; apply H; auto.
  - destruct (p a) eqn:Ep.
    + rewrite (H a (or_introl eq_refl) Ep) in Eq. discriminate.
    + apply IH. intros; apply H; auto.
Qed.

Lemma deleteTask_lanes id db :
  unique_ids db ->
  unique_ids (fst (deleteTask id db))
  /\ (forall s, dense_lane s (tasks db) -> dense_lane s (tasks (fst (deleteTask id db)))).
Proof.
  intros Hnd. unfold deleteTask.
  destruct (find (has_id id) (tasks db)) as [task|] eqn:Hfind; simpl; [|tauto].
  apply find_has_id in Hfind as [Hin Hid].
  set (rows := delete_where (has_id id) (tasks db)).
  assert (Hnd' : NoDup (map Task.id rows)) by (apply NoDup_map_filter; exact Hnd).
  destruct (repair_lane by_lane_position (Task.status task) rows Hnd') as (Hids & Hd & Ho).
  split.
  - unfold unique_ids. simpl. fold rows. now rewrite Hids.
  - intros s Hs. destruct (TaskStatus_eq_dec s (Task.status task)) as [->|Hne]; [exact Hd|].
    apply (dense_lane_same s (tasks db)); [|assumption].
    rewrite Ho by assumption. unfold rows, delete_where, lane.
    apply filter_filter_same. intros t Ht Hl. apply negb_true_iff.
    unfold has_id. apply String.eqb_neq. intros He.
    assert (t = task) by (apply (NoDup_map_eq Task.id (tasks db) t task Hnd Ht Hin); congruence).
    subst t. apply in_lane_iff in Hl. congruence.
Qed.

Lemma reorder_lanes ts input db :
  unique_ids db ->
  unique_ids (fst (reorderTasksInLane ts input db))
  /\ (forall s, dense_lane s (tasks db) ->
        dense_lane s (tasks (fst (reorderTasksInLane ts input db)))).
Proof.
  intros Hnd. unfold reorderTasksInLane.
  destruct (reorderAccepted input db) as [moved|] eqn:Hacc; simpl; [|tauto].
  destruct (reorderTx_lanes ts input moved db Hnd Hacc) as (Hids & Hto & Hfrom & Hother).
  split.
  - unfold unique_ids. simpl. now rewrite Hids.
  - intros s Hs.
    destruct (TaskStatus_eq_dec s (ReorderInput.toStatus input)) as [->|Hn1]; [exact Hto|].
    destruct (TaskStatus_eq_dec s (Task.status moved)) as [->|Hn2]; [exact Hfrom|].
    apply (dense_lane_same s (tasks db)); [|assumption]. now apply Hother.
Qed.

Lemma runLaneOp_invariant op db :
  unique_ids db /\ dense db -> unique_ids (runLaneOp db op) /\ dense (runLaneOp db op).
Proof.
  intros [Hnd Hd]. destruct op as [ts input|id]; simpl.
  - destruct (reorder_lanes ts input db Hnd) as [H1 H2]. split; [assumption|].
    intros s. apply H2, Hd.
  - destruct (deleteTask_lanes id db Hnd) as [H1 H2]. split; [assumption|].
    intros s. apply H2, Hd.
Qed.

(** C1. Starting from a store whose lanes are all dense, any sequence of
    [reorderTasksInLane] and [deleteTask] calls (accepted or rejected)
    leaves every status lane with exactly the order values 0, ..., n-1,
    each once. *)
Theorem lanes_stay_dense (ops : list LaneOp) (db : Db) :
  unique_ids db -> dense db -> dense (runLaneOps ops db).
Proof.
  intros Hnd Hd.
  assert (H : unique_ids (runLaneOps ops db) /\ dense (runLaneOps ops db)); [|apply H].
  revert db Hnd Hd. unfold runLaneOps.
  induction ops as [|op ops IH]; intros db Hnd Hd; simpl; [now split|].
  destruct (runLaneOp_invariant op db (conj Hnd Hd)) as [Hnd' Hd'].
  now apply IH.
Qed.

End LaneFacts.

(** ** Facts about the task and project operations *)
Module StoreFacts.
Import Sql Store LaneSpec StoreSpec.

(** Columns that renumbering, and the reorder transaction, leave alone. *)
Section Frame.
Context {X : Type} (pr : Task.t -> X).
Hypothesis pr_order : forall i t, pr (with_order i t) = pr t.

Lemma update_where_frame (p : Task.t -> bool) (f : Task.t -> Task.t) rows :
  (forall t, pr (f t) = pr t) -> map pr (update_where p f rows) = map pr rows.
Proof.
  intros Hf. unfold update_where. rewrite map_map. apply map_ext.
  intros t. destruct (p t); [apply Hf|reflexivity].
Qed.

Lemma forEachIndex_frame {A : Type} (f : A -> nat -> list Task.t -> list Task.t) l :
  (forall x i s, map pr (f x i s) = map pr s) ->
  forall i s, map pr (Js.forEachIndex f l i s) = map pr s.
Proof.
  intros Hf. induction l as [|x l IH]; intros i s; simpl; [reflexivity|].
  now rewrite IH, Hf.
Qed.

Lemma renumber_frame rows0 table : map pr (renumber rows0 table) = map pr table.
Proof.
  unfold renumber. apply forEachIndex_frame. intros x i s.
  apply update_where_frame. intros t. apply pr_order.
Qed.

Lemma normalizeTaskOrder_frame db :
  map pr (tasks (normalizeTaskOrder db)) = map pr (tasks db).
Proof.
  unfold normalizeTaskOrder, TASK_STATUSES. cbn [fold_left set_tasks tasks].
  now rewrite !renumber_frame.
Qed.

Hypothesis pr_status : forall s ts t, pr (with_status_updated s ts t) = pr t.

Lemma reorderTx_frame ts input moved rows :
  map pr (reorderTx ts input moved rows) = map pr rows.
Proof.
  unfold reorderTx.
  assert (H1 : forall l, map pr (update_where (has_id (ReorderInput.movedTaskId input))
                                   (with_status_updated (ReorderInput.toStatus input) ts) l)
                         = map pr l)
    by (intros l; apply update_where_frame; intros t; apply pr_status).
  assert (H2 : forall ids l,
             map pr (Js.forEachIndex
                       (fun taskId index acc =>
                          update_where (has_id taskId)
                            (fun t => with_order (Z.of_nat index)
                                        (with_status_updated (ReorderInput.toStatus input) ts t))
                            acc) ids 0%nat l) = map pr l).
  { intros ids l. apply forEachIndex_frame. intros x i s.
    apply update_where_frame. intros t. now rewrite pr_order, pr_status. }
  destruct (negb _); [rewrite renumber_frame|]; now rewrite H2, H1.
Qed.
End Frame.

Lemma reorder_ids ts input db :
  map Task.id (tasks (fst (reorderTasksInLane ts input db))) = map Task.id (tasks db).
Proof.
  unfold reorderTasksInLane. destruct (reorderAccepted input db); [|reflexivity].
  cbn [fst tasks insertActivity set_tasks].
  apply reorderTx_frame; reflexivity.
Qed.

(** C3. A reorder whose list names, besides the moved task, a task of
    another lane than [toStatus] returns null and leaves the whole store
    as it was. *)
Theorem foreign_id_rejects (ts : string) (input : ReorderInput.t) (db : Db) :
  ids_nonempty db ->
  (exists t,
      In t (tasks db)
      /\ In (Task.id t) (ReorderInput.orderedTaskIds input)
      /\ Task.id t <> ReorderInput.movedTaskId input
      /\ Task.status t <> ReorderInput.toStatus input) ->
  reorderTasksInLane ts input db = (db, None).
Proof.
  intros Hne (t & Ht & Hin & Hmoved & Hstatus).
  unfold reorderTasksInLane.
  destruct (reorderAccepted input db) as [moved|] eqn:Hacc; [|reflexivity].
  exfalso.
  destruct (LaneFacts.reorderAccepted_inv _ _ _ Hacc) as (_ & _ & _ & _ & Hval).
  assert (Hid : In (Task.id t) (orderedIdsOf input)).
  { apply LaneFacts.orderedIdsOf_In. split; [assumption|].
    unfold ids_nonempty in Hne. rewrite Forall_forall in Hne. now apply Hne. }
  destruct (Hval t Ht Hid); contradiction.
Qed.

Lemma updateTask_eq `{JsDate} env id patch db current :
  taskById id db = Some current ->
  TaskPatch.projectId patch <> Some None ->
  updateTask env id patch db
  = (fst (updateResult env id patch current db), Some (snd (updateResult env id patch current db))).
Proof.
  intros Hfind Hp. unfold taskById in Hfind. unfold updateTask, updateResult. rewrite Hfind.
  destruct (TaskPatch.projectId patch) as [[p|]|]; [|congruence|];
    destruct (resolveProject env _ current db); reflexivity.
Qed.

Lemma updateTask_inv `{JsDate} env id patch db db' item :
  updateTask env id patch db = (db', Some item) ->
  exists current,
    taskById id db = Some current
    /\ TaskPatch.projectId patch <> Some None
    /\ updateResult env id patch current db = (db', item).
Proof.
  intros Hu. unfold taskById.
  destruct (find (has_id id) (tasks db)) as [current|] eqn:Hfind;
    [|unfold updateTask in Hu; rewrite Hfind in Hu; discriminate].
  assert (Hp : TaskPatch.projectId patch <> Some None).
  { intros Hp. unfold updateTask in Hu. rewrite Hfind, Hp in Hu. discriminate. }
  exists current. repeat split; [assumption|].
  rewrite (updateTask_eq env id patch db current Hfind Hp) in Hu.
  injection Hu as <- <-. now destruct (updateResult env id patch current db).
Qed.

Lemma find_update_where id (f : Task.t -> Task.t) rows c :
  find (has_id id) rows = Some c ->
  (forall t, Task.id (f t) = Task.id t) ->
  find (has_id id) (update_where (has_id id) f rows) = Some (f c).
Proof.
  intros Hfind Hf. induction rows as [|a rows IH]; simpl in *; [discriminate|].
  destruct (has_id id a) eqn:E.
  - injection Hfind as <-. unfold has_id in *. now rewrite Hf, E.
  - rewrite E. now apply IH.
Qed.

Lemma find_erased id rows : forall rows' r,
  map erase_order rows' = map erase_order rows ->
  find (has_id id) rows = Some r ->
  exists r', find (has_id id) rows' = Some r' /\ erase_order r' = erase_order r.
Proof.
  induction rows as [|a rows IH]; intros [|a' rows'] r Hmap Hfind; simpl in *;
    try discriminate.
  pose proof (f_equal (hd (erase_order a)) Hmap) as Ha.
  pose proof (f_equal (@tl Task.t) Hmap) as Hrest. cbn [hd tl] in Ha, Hrest.
  assert (Hid : has_id id a' = has_id id a).
  { change (has_id id (erase_order a') = has_id id (erase_order a)). now rewrite Ha. }
  rewrite Hid. destruct (has_id id a).
  - injection Hfind as <-. eauto.
  - now apply IH.
Qed.

Lemma find_app_found {A : Type} (p : A -> bool) l l' x :
  find p l = Some x -> find p (l ++ l') = Some x.
Proof.
  induction l as [|a l IH]; simpl; [discriminate|].
  destruct (p a); [trivial|apply IH].
Qed.

Lemma ensureInboxProject_tasks ts db : tasks (ensureInboxProject ts db) = tasks db.
Proof. unfold ensureInboxProject. now destruct (projectExists db INBOX_PROJECT_ID). Qed.

Lemma resolveProject_tasks env pp current db :
  tasks (fst (resolveProject env pp current db)) = tasks db.
Proof.
  unfold resolveProject. destruct pp as [[p|]|]; try reflexivity.
  destruct (projectExists db p); [reflexivity|apply ensureInboxProject_tasks].
Qed.

Lemma createTask_tasks env input db :
  tasks (fst (createTask env input db)) = (tasks db ++ [snd (createTask env input db)])%list.
Proof.
  unfold createTask.
  destruct (negb (projectExists db (patched (CreateTaskInput.projectId input) INBOX_PROJECT_ID)));
    cbn [fst snd tasks insertActivity set_tasks]; [|reflexivity].
  now rewrite ensureInboxProject_tasks.
Qed.

(** The row [updateTask] leaves under the id is the item it returns, up
    to the order column that [normalizeTaskOrder] may rewrite. *)
Lemma updateResult_stored `{JsDate} env id patch current db :
  taskById id db = Some current ->
  exists row,
    taskById id (fst (updateResult env id patch current db)) = Some row
    /\ erase_order row = erase_order (snd (updateResult env id patch current db)).
Proof.
  intros Hfind. unfold taskById in *. unfold updateResult.
  pose proof (resolveProject_tasks env (TaskPatch.projectId patch) current db) as Ht.
  destruct (resolveProject env (TaskPatch.projectId patch) current db) as [db1 pid].
  cbn [fst snd] in *.
  set (item := patchedTask env patch current pid db).
  assert (H2 : find (has_id id) (tasks (storeTask id item db1)) = Some item).
  { unfold storeTask. cbn [tasks set_tasks]. rewrite Ht.
    erewrite find_update_where; [reflexivity|exact Hfind|reflexivity]. }
  set (db2 := storeTask id item db1) in *.
  set (db3 := if negb (TaskStatus_beq (Task.status current) (Task.status item))
              then normalizeTaskOrder db2 else db2).
  assert (H3 : exists row, find (has_id id) (tasks db3) = Some row
                           /\ erase_order row = erase_order item).
  { unfold db3. destruct (negb _); [|eauto].
    apply (find_erased id (tasks db2)); [|assumption].
    apply normalizeTaskOrder_frame. reflexivity. }
  destruct H3 as (row & Hrow & Herase). exists row. split; [|assumption].
  cbn [tasks insertActivity]. destruct (spawns current item); [|assumption].
  rewrite createTask_tasks. now apply find_app_found.
Qed.

(** C10. A successful [updateTask] sets [completedAt] from the resulting
    status alone: the clock reading when that status is "done", null
    otherwise, in the returned item and in the stored row alike. *)
Theorem completedAt_follows_status `{JsDate} (env : UpdateTaskEnv.t) (id : string)
    (patch : TaskPatch.t) (db db' : Db) (item : Task.t) :
  updateTask env id patch db = (db', Some item) ->
  (exists current,
      taskById id db = Some current
      /\ Task.status item = patched (TaskPatch.status patch) (Task.status current))
  /\ Task.completedAt item
     = (if TaskStatus_beq (Task.status item) done
        then Some (UpdateTaskEnv.tsCompleted env) else None)
  /\ (exists row,
         taskById id db' = Some row
         /\ Task.status row = Task.status item
         /\ Task.completedAt row = Task.completedAt item).
Proof.
  intros Hu. destruct (updateTask_inv env id patch db db' item Hu) as (current & Hfind & Hp & Hr).
  assert (Hitem : exists pid, item = patchedTask env patch current pid db).
  { unfold updateResult in Hr.
    destruct (resolveProject env (TaskPatch.projectId patch) current db) as [db1 pid].
    injection Hr as _ <-. now exists pid. }
  destruct Hitem as [pid Hitem].
  split; [|split].
  - exists current. split; [assumption|]. now subst item.
  - now subst item.
  - destruct (updateResult_stored env id patch current db Hfind) as (row & Hrow & Herase).
    rewrite Hr in Hrow, Herase. cbn [fst snd] in *.
    exists row. split; [assumption|].
    split.
    + change (Task.status (erase_order row) = Task.status (erase_order item)).
      now rewrite Herase.
    + change (Task.completedAt (erase_order row) = Task.completedAt (erase_order item)).
      now rewrite Herase.
Qed.

Lemma projectExists_projects db db' p :
  projects db' = projects db -> projectExists db' p = projectExists db p.
Proof. unfold projectExists. now intros ->. Qed.

Lemma ensureInboxProject_mono ts db p :
  projectExists db p = true -> projectExists (ensureInboxProject ts db) p = true.
Proof.
  intros Hp. unfold ensureInboxProject.
  destruct (projectExists db INBOX_PROJECT_ID); [assumption|].
  unfold projectExists in *. cbn [projects set_projects].
  rewrite existsb_app, Hp. reflexivity.
Qed.

Lemma ensureInboxProject_inbox ts db :
  projectExists (ensureInboxProject ts db) INBOX_PROJECT_ID = true.
Proof.
  unfold ensureInboxProject.
  destruct (projectExists db INBOX_PROJECT_ID) eqn:E; [assumption|].
  unfold projectExists. cbn [projects set_projects].
  rewrite existsb_app. apply orb_true_iff. right. reflexivity.
Qed.

Lemma resolveProject_exists env pp current db :
  (match pp with Some (Some _) => True | _ => projectExists db (Task.projectId current) = true end) ->
  projectExists (fst (resolveProject env pp current db)) (snd (resolveProject env pp current db))
  = true.
Proof.
  intros Hc. unfold resolveProject. destruct pp as [[p|]|]; try exact Hc.
  destruct (projectExists db p) eqn:E; [exact E|apply ensureInboxProject_inbox].
Qed.

Lemma storeTask_ids id item db : map Task.id (tasks (storeTask id item db)) = map Task.id (tasks db).
Proof. unfold storeTask. cbn [tasks set_tasks]. now apply update_where_frame. Qed.

Lemma addRecurrenceDate_shift `{JsDate} D ms :
  D <> EmptyString -> parseDate D = Some ms ->
  addRecurrenceDate (Some D) daily = Some (toISOString (addLocalDays ms 1))
  /\ addRecurrenceDate (Some D) weekly = Some (toISOString (addLocalDays ms 7)).
Proof.
  intros HD Hparse. unfold addRecurrenceDate.
  destruct (String.eqb_spec D EmptyString) as [|_]; [contradiction|].
  rewrite Hparse. split; reflexivity.
Qed.

Lemma includesRecurrence_true r : includesRecurrence r = true.
Proof. now destruct r. Qed.

Lemma patchedTask_recurrence env patch current pid db :
  Task.recurrence (patchedTask env patch current pid db)
  = patched (TaskPatch.recurrence patch) (Task.recurrence current).
Proof.
  cbn [patchedTask Task.recurrence]. destruct (TaskPatch.recurrence patch) as [r|]; [|reflexivity].
  now rewrite includesRecurrence_true.
Qed.

Lemma recurrence_beq_neq a b : Recurrence_beq a b = false <-> a <> b.
Proof. destruct a, b; simpl; split; (reflexivity || discriminate || congruence). Qed.

Lemma updateResult_ids_when_done `{JsDate} env id patch current db :
  Task.status current = done ->
  map Task.id (tasks (fst (updateResult env id patch current db))) = map Task.id (tasks db).
Proof.
  intros Hdone. unfold updateResult.
  pose proof (resolveProject_tasks env (TaskPatch.projectId patch) current db) as Ht.
  destruct (resolveProject env (TaskPatch.projectId patch) current db) as [db1 pid].
  cbn [fst snd] in *.
  set (item := patchedTask env patch current pid db).
  assert (Hs : spawns current item = false) by (unfold spawns; now rewrite Hdone).
  rewrite Hs. cbn [tasks insertActivity].
  destruct (negb _).
  - rewrite normalizeTaskOrder_frame by reflexivity. now rewrite storeTask_ids, Ht.
  - now rewrite storeTask_ids, Ht.
Qed.

(** C4, as amended.  An [updateTask] that takes a task from a status
    other than "done" to "done" while its recurrence is daily or weekly
    creates exactly one task: in the todo lane, with the due and
    scheduled dates moved by [addRecurrenceDate] (one day for daily,
    seven for weekly, null kept null), with the priority, project,
    source and recurrence of the completed task, and with its title and
    details as [createTask] stores them, that is trimmed, details that
    trim to nothing becoming null.  An [updateTask] on a task that is
    already "done" creates no task. *)
Theorem completing_spawns_once `{JsDate} :
  (forall env id patch db current,
      taskById id db = Some current ->
      TaskPatch.projectId patch <> Some None ->
      projectExists db (Task.projectId current) = true ->
      Task.status current <> done ->
      patched (TaskPatch.status patch) (Task.status current) = done ->
      patched (TaskPatch.recurrence patch) (Task.recurrence current) <> none ->
      exists db' item before next,
        updateTask env id patch db = (db', Some item)
        /\ tasks db' = (before ++ [next])%list
        /\ map Task.id before = map Task.id (tasks db)
        /\ Task.id next = CreateTaskEnv.newId (UpdateTaskEnv.spawn env)
        /\ Task.status next = todo
        /\ Task.dueDate next = addRecurrenceDate (Task.dueDate item) (Task.recurrence item)
        /\ Task.scheduledAt next
           = addRecurrenceDate (Task.scheduledAt item) (Task.recurrence item)
        /\ Task.title next = Js.trim (Task.title item)
        /\ Task.details next = trimOrNull (Task.details item)
        /\ Task.priority next = Task.priority item
        /\ Task.projectId next = Task.projectId item
        /\ Task.source next = Task.source item
        /\ Task.recurrence next = Task.recurrence item)
  /\ (forall D ms,
         D <> EmptyString -> parseDate D = Some ms ->
         addRecurrenceDate (Some D) daily = Some (toISOString (addLocalDays ms 1))
         /\ addRecurrenceDate (Some D) weekly = Some (toISOString (addLocalDays ms 7)))
  /\ (forall r, addRecurrenceDate None r = None)
  /\ (forall env id patch db current,
         taskById id db = Some current ->
         Task.status current = done ->
         map Task.id (tasks (fst (updateTask env id patch db))) = map Task.id (tasks db)).
Proof.
  split; [|split; [|split]].
  - intros env id patch db current Hfind Hp Hproj Hnot Hdone Hrec.
    rewrite (updateTask_eq env id patch db current Hfind Hp). unfold updateResult.
    pose proof (resolveProject_tasks env (TaskPatch.projectId patch) current db) as Ht.
    assert (Hex : projectExists (fst (resolveProject env (TaskPatch.projectId patch) current db))
                    (snd (resolveProject env (TaskPatch.projectId patch) current db)) = true).
    { apply resolveProject_exists.
      destruct (TaskPatch.projectId patch) as [[p|]|]; trivial. }
    destruct (resolveProject env (TaskPatch.projectId patch) current db) as [db1 pid].
    cbn [fst snd] in *.
    set (item := patchedTask env patch current pid db).
    assert (Hs : spawns current item = true).
    { unfold spawns. unfold item at 2. rewrite patchedTask_recurrence.
      cbn [item patchedTask Task.status]. rewrite Hdone.
      apply LaneFacts.status_beq_neq in Hnot. apply recurrence_beq_neq in Hrec.
      now rewrite Hnot, Hrec. }
    rewrite Hs.
    set (db3 := if negb (TaskStatus_beq (Task.status current) (Task.status item))
                then normalizeTaskOrder (storeTask id item db1) else storeTask id item db1).
    assert (Hids : map Task.id (tasks db3) = map Task.id (tasks db)).
    { unfold db3. destruct (negb _).
      - rewrite normalizeTaskOrder_frame by reflexivity. now rewrite storeTask_ids, Ht.
      - now rewrite storeTask_ids, Ht. }
    assert (Hex3 : projectExists db3 (Task.projectId item) = true).
    { rewrite (projectExists_projects db1 db3); [exact Hex|].
      unfold db3. now destruct (negb _). }
    exists (insertActivity act_task id "updated"
              (fst (createTask (UpdateTaskEnv.spawn env) (successorInput item) db3))),
      item, (tasks db3),
      (snd (createTask (UpdateTaskEnv.spawn env) (successorInput item) db3)).
    split; [reflexivity|]. split; [apply createTask_tasks|]. split; [exact Hids|].
    unfold createTask. cbn [successorInput CreateTaskInput.projectId CreateTaskInput.title
      CreateTaskInput.details CreateTaskInput.status CreateTaskInput.priority
      CreateTaskInput.dueDate CreateTaskInput.scheduledAt CreateTaskInput.source
      CreateTaskInput.recurrence patched].
    rewrite Hex3, includesRecurrence_true. cbn [negb snd]. repeat split; reflexivity.
  - intros D ms. apply addRecurrenceDate_shift.
  - intros r. reflexivity.
  - intros env id patch db current Hfind Hdone.
    destruct (TaskPatch.projectId patch) as [[p|]|] eqn:Hp.
    + rewrite (updateTask_eq env id patch db current Hfind) by congruence.
      now apply updateResult_ids_when_done.
    + unfold updateTask. unfold taskById in Hfind. now rewrite Hfind, Hp.
    + rewrite (updateTask_eq env id patch db current Hfind) by congruence.
      now apply updateResult_ids_when_done.
Qed.

Lemma refs_ok_mono db db' :
  incl (map Task.projectId (tasks db')) (map Task.projectId (tasks db)) ->
  (forall p, projectExists db p = true -> projectExists db' p = true) ->
  refs_ok db -> refs_ok db'.
Proof.
  intros Hincl Hmono Hok t Ht.
  assert (Hin : In (Task.projectId t) (map Task.projectId (tasks db)))
    by (apply Hincl; now apply in_map).
  apply in_map_iff in Hin as [t0 [Heq Ht0]]. rewrite <- Heq. apply Hmono. now apply Hok.
Qed.

Lemma ensureInboxProject_refs ts db : refs_ok db -> refs_ok (ensureInboxProject ts db).
Proof.
  apply refs_ok_mono.
  - rewrite ensureInboxProject_tasks. apply incl_refl.
  - intros p. apply ensureInboxProject_mono.
Qed.

Lemma createProject_refs newId ts input db :
  refs_ok db -> refs_ok (fst (createProject newId ts input db)).
Proof.
  apply refs_ok_mono; [apply incl_refl|].
  intros p Hp. unfold projectExists in *. cbn. rewrite existsb_app, Hp. reflexivity.
Qed.

Lemma projectExists_In db p :
  projectExists db p = true <-> In p (map Project.id (projects db)).
Proof.
  unfold projectExists. rewrite existsb_exists, in_map_iff. split.
  - intros (x & Hx & He). apply String.eqb_eq in He. eauto.
  - intros (x & He & Hx). exists x. split; [assumption|]. now apply String.eqb_eq.
Qed.

Lemma updateProject_ids ts id patch db :
  map Project.id (projects (fst (updateProject ts id patch db))) = map Project.id (projects db).
Proof.
  unfold updateProject.
  destruct (find (fun p => String.eqb (Project.id p) id) (projects db)); [|reflexivity].
  cbn [fst projects insertActivity set_projects]. unfold update_where.
  rewrite map_map. apply map_ext. intros x.
  now destruct (String.eqb (Project.id x) id).
Qed.

Lemma updateProject_tasks ts id patch db :
  tasks (fst (updateProject ts id patch db)) = tasks db.
Proof.
  unfold updateProject.
  now destruct (find (fun p => String.eqb (Project.id p) id) (projects db)).
Qed.

Lemma updateProject_refs ts id patch db :
  refs_ok db -> refs_ok (fst (updateProject ts id patch db)).
Proof.
  apply refs_ok_mono.
  - rewrite updateProject_tasks. apply incl_refl.
  - intros p Hp. apply projectExists_In. rewrite updateProject_ids.
    now apply projectExists_In.
Qed.

Lemma createTask_projectId env input db :
  projectExists (fst (createTask env input db)) (Task.projectId (snd (createTask env input db)))
  = true
  /\ (forall p, projectExists db p = true -> projectExists (fst (createTask env input db)) p = true)
  /\ (projectExists db (patched (CreateTaskInput.projectId input) INBOX_PROJECT_ID) = false ->
      Task.projectId (snd (createTask env input db)) = INBOX_PROJECT_ID)
  /\ (projectExists db (patched (CreateTaskInput.projectId input) INBOX_PROJECT_ID) = true ->
      Task.projectId (snd (createTask env input db))
      = patched (CreateTaskInput.projectId input) INBOX_PROJECT_ID).
Proof.
  unfold createTask.
  destruct (projectExists db (patched (CreateTaskInput.projectId input) INBOX_PROJECT_ID)) eqn:E;
    cbn [negb fst snd Task.projectId].
  - repeat split; try discriminate; try reflexivity.
    + rewrite (projectExists_projects db); [exact E|reflexivity].
    + intros p Hp. rewrite (projectExists_projects db); [exact Hp|reflexivity].
  - repeat split; try discriminate; try reflexivity.
    + rewrite (projectExists_projects (ensureInboxProject (CreateTaskEnv.tsInbox env) db));
        [apply ensureInboxProject_inbox|reflexivity].
    + intros p Hp.
      rewrite (projectExists_projects (ensureInboxProject (CreateTaskEnv.tsInbox env) db));
        [now apply ensureInboxProject_mono|reflexivity].
Qed.

Lemma createTask_refs env input db : refs_ok db -> refs_ok (fst (createTask env input db)).
Proof.
  intros Hok t Ht. destruct (createTask_projectId env input db) as (Hitem & Hmono & _).
  rewrite createTask_tasks in Ht. apply in_app_or in Ht as [Ht|[<-|[]]].
  - apply Hmono. now apply Hok.
  - exact Hitem.
Qed.

Lemma storeTask_refs id item db :
  projectExists db (Task.projectId item) = true ->
  refs_ok db -> refs_ok (storeTask id item db).
Proof.
  intros Hitem Hok t Ht. unfold storeTask in Ht. cbn [tasks set_tasks] in Ht.
  rewrite (projectExists_projects db) by reflexivity.
  unfold update_where in Ht. apply in_map_iff in Ht as [t0 [<- Ht0]].
  destruct (has_id id t0); [exact Hitem|now apply Hok].
Qed.

Lemma normalizeTaskOrder_refs db : refs_ok db -> refs_ok (normalizeTaskOrder db).
Proof.
  apply refs_ok_mono.
  - rewrite normalizeTaskOrder_frame by reflexivity. apply incl_refl.
  - intros p Hp. now rewrite (projectExists_projects db) by reflexivity.
Qed.

Lemma updateResult_refs `{JsDate} env id patch current db :
  In current (tasks db) ->
  refs_ok db -> refs_ok (fst (updateResult env id patch current db)).
Proof.
  intros Hcur Hok. unfold updateResult.
  pose proof (resolveProject_tasks env (TaskPatch.projectId patch) current db) as Ht.
  assert (Hex : projectExists (fst (resolveProject env (TaskPatch.projectId patch) current db))
                  (snd (resolveProject env (TaskPatch.projectId patch) current db)) = true).
  { apply resolveProject_exists.
    destruct (TaskPatch.projectId patch) as [[p|]|]; trivial; now apply Hok. }
  assert (Hok1 : refs_ok (fst (resolveProject env (TaskPatch.projectId patch) current db))).
  { unfold resolveProject. destruct (TaskPatch.projectId patch) as [[p|]|]; try exact Hok.
    destruct (projectExists db p); [exact Hok|now apply ensureInboxProject_refs]. }
  destruct (resolveProject env (TaskPatch.projectId patch) current db) as [db1 pid].
  cbn [fst snd] in *.
  set (item := patchedTask env patch current pid db).
  assert (Hok2 : refs_ok (storeTask id item db1)) by (apply storeTask_refs; assumption).
  set (db3 := if negb (TaskStatus_beq (Task.status current) (Task.status item))
              then normalizeTaskOrder (storeTask id item db1) else storeTask id item db1).
  assert (Hok3 : refs_ok db3)
    by (unfold db3; destruct (negb _); [now apply normalizeTaskOrder_refs|assumption]).
  assert (Hok4 : refs_ok (if spawns current item
                          then fst (createTask (UpdateTaskEnv.spawn env) (successorInput item) db3)
                          else db3))
    by (destruct (spawns current item); [now apply createTask_refs|assumption]).
  exact Hok4.
Qed.

Lemma updateTask_refs `{JsDate} env id patch db :
  refs_ok db -> refs_ok (fst (updateTask env id patch db)).
Proof.
  intros Hok. destruct (taskById id db) as [current|] eqn:Hfind.
  - destruct (TaskPatch.projectId patch) as [[p|]|] eqn:Hp.
    + rewrite (updateTask_eq env id patch db current Hfind) by congruence.
      apply updateResult_refs; [|assumption].
      now apply (LaneFacts.find_has_id id (tasks db)).
    + unfold updateTask. unfold taskById in Hfind. now rewrite Hfind, Hp.
    + rewrite (updateTask_eq env id patch db current Hfind) by congruence.
      apply updateResult_refs; [|assumption].
      now apply (LaneFacts.find_has_id id (tasks db)).
  - unfold updateTask. unfold taskById in Hfind. now rewrite Hfind.
Qed.

Lemma reorder_refs ts input db : refs_ok db -> refs_ok (fst (reorderTasksInLane ts input db)).
Proof.
  apply refs_ok_mono.
  - unfold reorderTasksInLane. destruct (reorderAccepted input db); [|apply incl_refl].
    cbn [fst tasks insertActivity set_tasks].
    rewrite reorderTx_frame by reflexivity. apply incl_refl.
  - intros p Hp. unfold reorderTasksInLane. now destruct (reorderAccepted input db).
Qed.

Lemma deleteTask_refs id db : refs_ok db -> refs_ok (fst (deleteTask id db)).
Proof.
  apply refs_ok_mono.
  - unfold deleteTask. destruct (find (has_id id) (tasks db)); [|apply incl_refl].
    cbn [fst tasks insertActivity set_tasks set_content_entries].
    rewrite renumber_frame by reflexivity.
    intros p Hp. apply in_map_iff in Hp as [row [<- Hrow]].
    apply in_map. unfold delete_where in Hrow. now apply filter_In in Hrow as [Hrow _].
  - intros p Hp. unfold deleteTask. now destruct (find (has_id id) (tasks db)).
Qed.

Lemma projectExists_delete_where db id p :
  p <> id ->
  projectExists db p = true ->
  existsb (fun q => String.eqb (Project.id q) p)
    (delete_where (fun q => String.eqb (Project.id q) id) (projects db)) = true.
Proof.
  intros Hne Hp. unfold projectExists in Hp. rewrite existsb_exists in *.
  destruct Hp as (x & Hx & He). exists x. split; [|assumption].
  unfold delete_where. apply filter_In. split; [assumption|].
  apply negb_true_iff, String.eqb_neq. apply String.eqb_eq in He.
  intros Hx'. apply Hne. now rewrite <- He.
Qed.

(** What a successful [deleteProject] leaves. *)
Lemma deleteProject_inv tsInbox id db db' :
  deleteProject tsInbox id db = (db', true) ->
  id <> INBOX_PROJECT_ID
  /\ tasks db'
     = map (fun t => if String.eqb (Task.projectId t) id
                     then with_project INBOX_PROJECT_ID t else t) (tasks db)
  /\ projects db'
     = delete_where (fun q => String.eqb (Project.id q) id)
         (projects (ensureInboxProject tsInbox db)).
Proof.
  unfold deleteProject.
  destruct (String.eqb_spec id INBOX_PROJECT_ID) as [|Hne]; [discriminate|].
  destruct (projectExists db id); cbn [negb]; [|discriminate].
  intros Heq. injection Heq as <-. split; [assumption|].
  cbn [tasks projects insertActivity set_projects set_content_entries set_tasks].
  now rewrite ensureInboxProject_tasks.
Qed.

Lemma deleteProject_mono tsInbox id db p :
  p <> id ->
  projectExists db p = true -> projectExists (fst (deleteProject tsInbox id db)) p = true.
Proof.
  intros Hne Hp. destruct (deleteProject tsInbox id db) as [db' [|]] eqn:E.
  - destruct (deleteProject_inv tsInbox id db db' E) as (_ & _ & Hprojects).
    cbn [fst]. unfold projectExists at 1. rewrite Hprojects.
    apply projectExists_delete_where; [assumption|now apply ensureInboxProject_mono].
  - unfold deleteProject in E.
    destruct (String.eqb id INBOX_PROJECT_ID); [injection E as <-; exact Hp|].
    destruct (negb (projectExists db id)); [injection E as <-; exact Hp|discriminate].
Qed.

Lemma deleteProject_refs tsInbox id db :
  refs_ok db -> refs_ok (fst (deleteProject tsInbox id db)).
Proof.
  intros Hok. destruct (deleteProject tsInbox id db) as [db' [|]] eqn:E.
  - destruct (deleteProject_inv tsInbox id db db' E) as (Hne & Htasks & Hprojects).
    cbn [fst]. intros t Ht. rewrite Htasks in Ht. apply in_map_iff in Ht as [t0 [<- Ht0]].
    unfold projectExists at 1. rewrite Hprojects.
    destruct (String.eqb_spec (Task.projectId t0) id) as [Heq|Hneq].
    + apply projectExists_delete_where; [|apply ensureInboxProject_inbox].
      intros Hc. apply Hne. symmetry. exact Hc.
    + apply projectExists_delete_where; [assumption|].
      apply ensureInboxProject_mono. now apply Hok.
  - unfold deleteProject in E.
    destruct (String.eqb id INBOX_PROJECT_ID); [injection E as <-; exact Hok|].
    destruct (negb (projectExists db id)); [injection E as <-; exact Hok|discriminate].
Qed.

Lemma updateTask_mono `{JsDate} env id patch db p :
  projectExists db p = true -> projectExists (fst (updateTask env id patch db)) p = true.
Proof.
  intros Hp. unfold updateTask.
  destruct (find (has_id id) (tasks db)) as [current|]; [|exact Hp].
  assert (Hres : forall pp,
             projectExists (fst (resolveProject env pp current db)) p = true).
  { intros pp. unfold resolveProject. destruct pp as [[q|]|]; try exact Hp.
    destruct (projectExists db q); [exact Hp|now apply ensureInboxProject_mono]. }
  assert (Hgo : forall pp,
    projectExists
      (fst (let '(db1, projectId) := resolveProject env pp current db in
            let item := patchedTask env patch current projectId db in
            let db2 := storeTask id item db1 in
            let db3 := if negb (TaskStatus_beq (Task.status current) (Task.status item))
                       then normalizeTaskOrder db2 else db2 in
            let db4 := if spawns current item
                       then fst (createTask (UpdateTaskEnv.spawn env) (successorInput item) db3)
                       else db3 in
            (insertActivity act_task id "updated" db4, Some item))) p = true).
  { intros pp. specialize (Hres pp).
    destruct (resolveProject env pp current db) as [db1 pid]. cbn [fst] in *.
    set (item := patchedTask env patch current pid db).
    set (db3 := if negb (TaskStatus_beq (Task.status current) (Task.status item))
                then normalizeTaskOrder (storeTask id item db1) else storeTask id item db1).
    assert (H3 : projectExists db3 p = true).
    { rewrite (projectExists_projects db1 db3); [exact Hres|].
      unfold db3. now destruct (negb _). }
    rewrite (projectExists_projects
               (if spawns current item
                then fst (createTask (UpdateTaskEnv.spawn env) (successorInput item) db3)
                else db3)) by reflexivity.
    destruct (spawns current item); [|exact H3].
    now apply (createTask_projectId (UpdateTaskEnv.spawn env) (successorInput item) db3). }
  destruct (TaskPatch.projectId patch) as [[q|]|]; [apply Hgo|exact Hp|apply Hgo].
Qed.

(** C9. Every operation of the store keeps each task's [projectId]
    pointing at an existing project and keeps the Inbox project once it
    exists; [deleteProject] refuses the Inbox and moves the tasks of any
    other project to the Inbox; [createTask] and [updateTask] put the
    Inbox id in place of a supplied project id that names no project. *)
Theorem project_refs_preserved `{JsDate} :
  (forall op db, refs_ok db -> refs_ok (exec op db))
  /\ (forall op db,
         projectExists db INBOX_PROJECT_ID = true ->
         projectExists (exec op db) INBOX_PROJECT_ID = true)
  /\ (forall tsInbox db, deleteProject tsInbox INBOX_PROJECT_ID db = (db, false))
  /\ (forall tsInbox id db db',
         deleteProject tsInbox id db = (db', true) ->
         tasks db'
         = map (fun t => if String.eqb (Task.projectId t) id
                         then with_project INBOX_PROJECT_ID t else t) (tasks db)
         /\ projectExists db' INBOX_PROJECT_ID = true)
  /\ (forall env input db p,
         CreateTaskInput.projectId input = Some p ->
         projectExists db p = false ->
         Task.projectId (snd (createTask env input db)) = INBOX_PROJECT_ID
         /\ In (snd (createTask env input db)) (tasks (fst (createTask env input db))))
  /\ (forall env id patch db db' item p,
         updateTask env id patch db = (db', Some item) ->
         TaskPatch.projectId patch = Some (Some p) ->
         projectExists db p = false ->
         Task.projectId item = INBOX_PROJECT_ID
         /\ exists row, taskById id db' = Some row /\ Task.projectId row = INBOX_PROJECT_ID).
Proof.
  split; [|split; [|split; [|split; [|split]]]].
  - intros op db Hok. destruct op; cbn [exec].
    + now apply ensureInboxProject_refs.
    + now apply createProject_refs.
    + now apply updateProject_refs.
    + now apply deleteProject_refs.
    + now apply createTask_refs.
    + now apply updateTask_refs.
    + now apply reorder_refs.
    + now apply deleteTask_refs.
  - intros op db Hin. destruct op; cbn [exec].
    + now apply ensureInboxProject_mono.
    + unfold projectExists in *. cbn. rewrite existsb_app, Hin. reflexivity.
    + apply projectExists_In. rewrite updateProject_ids. now apply projectExists_In.
    + destruct (String.eqb_spec id INBOX_PROJECT_ID) as [->|Hne].
      * unfold deleteProject. now rewrite String.eqb_refl.
      * apply deleteProject_mono; [congruence|assumption].
    + now apply (createTask_projectId env input db).
    + now apply updateTask_mono.
    + unfold reorderTasksInLane. now destruct (reorderAccepted input db).
    + unfold deleteTask. now destruct (find (has_id id) (tasks db)).
  - intros tsInbox db. unfold deleteProject. now rewrite String.eqb_refl.
  - intros tsInbox id db db' Hdel.
    destruct (deleteProject_inv tsInbox id db db' Hdel) as (Hne & Htasks & Hprojects).
    split; [assumption|]. unfold projectExists. rewrite Hprojects.
    apply projectExists_delete_where; [congruence|apply ensureInboxProject_inbox].
  - intros env input db p Hp Hno. split.
    + apply (createTask_projectId env input db). rewrite Hp. exact Hno.
    + rewrite createTask_tasks. apply in_or_app. right. now left.
  - intros env id patch db db' item p Hu Hp Hno.
    destruct (updateTask_inv env id patch db db' item Hu) as (current & Hfind & _ & Hr).
    assert (Hitem : Task.projectId item = INBOX_PROJECT_ID).
    { unfold updateResult, resolveProject in Hr. rewrite Hp, Hno in Hr.
      injection Hr as _ <-. reflexivity. }
    split; [assumption|].
    destruct (updateResult_stored env id patch current db Hfind) as (row & Hrow & Herase).
    rewrite Hr in Hrow, Herase. cbn [fst snd] in *.
    exists row. split; [assumption|].
    change (Task.projectId (erase_order row) = INBOX_PROJECT_ID).
    now rewrite Herase.
Qed.

End StoreFacts.

(** ** Facts about binary64 quotients *)
Module NumberFacts.
Local Open Scope Z_scope.

Lemma round_half_even_bound n d :
  0 < d -> 2 * d * JsNumber.round_half_even n d <= 2 * n + d.
Proof.
  intros Hd. unfold JsNumber.round_half_even.
  pose proof (Z.div_mod n d ltac:(lia)) as Hdm.
  pose proof (Z.mod_pos_bound n d Hd) as Hr.
  set (m := n / d) in *. set (r := n mod d) in *.
  destruct (Z.ltb_spec (2 * r) d); [nia|].
  destruct (Z.ltb_spec d (2 * r)); [nia|].
  destruct (Z.even m); nia.
Qed.

(** Equal integers divide to exactly 1. *)
Lemma div_self q : 0 < q -> (JsNumber.div q q == 1)%Q.
Proof.
  intros Hq. unfold JsNumber.div.
  destruct (Z.eqb_spec q 0) as [|_]; [lia|].
  rewrite Z.sub_diag, Z.sub_0_r, Z.ltb_irrefl.
  unfold JsNumber.round_half_even.
  rewrite (Z.mul_comm q (2 ^ 52)), Z.div_mul, Z.mod_mul by lia.
  destruct (Z.ltb_spec (2 * 0) q); [|lia].
  reflexivity.
Qed.

(** A proper fraction of integers below [2^53] divides to less than 1. *)
Lemma div_lt_one p q :
  0 <= p < q -> q < 2 ^ 53 -> (JsNumber.div p q < 1)%Q.
Proof.
  intros Hp Hq. unfold JsNumber.div.
  destruct (Z.eqb_spec p 0) as [|Hp0]; [reflexivity|].
  assert (Hlog : Z.log2 p <= Z.log2 q) by (apply Z.log2_le_mono; lia).
  set (e0 := 52 - (Z.log2 p - Z.log2 q)).
  set (e := if p * 2 ^ e0 <? q * 2 ^ 52 then e0 + 1 else e0).
  assert (He : 52 <= e) by (unfold e, e0; destruct (_ <? _); lia).
  assert (HE : 2 ^ 52 <= 2 ^ e) by (apply Z.pow_le_mono_r; lia).
  assert (H53 : 2 ^ 53 = 2 * 2 ^ 52) by reflexivity.
  pose proof (round_half_even_bound (p * 2 ^ e) q ltac:(lia)) as Hb.
  set (m := JsNumber.round_half_even (p * 2 ^ e) q) in *.
  set (E := 2 ^ e) in *.
  assert (Hm : m < E) by nia.
  unfold Qlt. simpl. rewrite Z2Pos.id by lia. lia.
Qed.

Lemma div_one_iff p q :
  0 <= p <= q -> 0 < q < 2 ^ 53 -> ((JsNumber.div p q == 1)%Q <-> p = q).
Proof.
  intros Hp Hq. split.
  - intros H1. destruct (Z.eq_dec p q) as [|Hne]; [assumption|].
    exfalso. assert (Hlt : (JsNumber.div p q < 1)%Q) by (apply div_lt_one; lia).
    rewrite H1 in Hlt. now apply Qlt_irrefl in Hlt.
  - intros ->. apply div_self. lia.
Qed.

(** [toFixed(2)] picks the hundredths nearest to its argument. *)
Lemma toFixed2_nearest x :
  (inject_Z (JsNumber.toFixed2 x) - (1 # 2) <= 100 * x
   /\ 100 * x < inject_Z (JsNumber.toFixed2 x) + (1 # 2))%Q.
Proof.
  unfold JsNumber.toFixed2.
  pose proof (Qfloor_le (100 * x + (1 # 2))) as Hle.
  pose proof (Qlt_floor (100 * x + (1 # 2))) as Hlt.
  set (n := Qfloor (100 * x + (1 # 2))) in *.
  rewrite inject_Z_plus in Hlt. simpl inject_Z in Hlt.
  split.
  - apply (Qplus_le_l _ _ (1 # 2)). ring_simplify. ring_simplify in Hle.
    exact Hle.
  - apply (Qplus_lt_l _ _ (1 # 2)). ring_simplify. ring_simplify in Hlt.
    exact Hlt.
Qed.

End NumberFacts.

(** ** Facts about the similarity matcher and the duplicate resolver *)
Module ImportFacts.
Import Store Imports MatchSpec.

Lemma bigrams_NoDup v : NoDup (bigrams v).
Proof. apply LaneFacts.dedupe_NoDup. Qed.

Lemma chars_append s1 s2 : Js.chars (s1 ++ s2) = (Js.chars s1 ++ Js.chars s2)%list.
Proof.
  unfold Js.chars. induction s1 as [|c s1 IH]; simpl; [reflexivity|now rewrite IH].
Qed.

(** The padded text always has a first pair, so no bigram set is empty
    and the guard of [diceSimilarity] never fires. *)
Lemma bigrams_nonempty v : (0 < List.length (bigrams v))%nat.
Proof.
  unfold bigrams.
  assert (H : exists x l, slices2 (Js.chars (" " ++ normalize v ++ " ")) = x :: l).
  { rewrite chars_append. simpl.
    rewrite chars_append. simpl.
    destruct (Js.chars (normalize v)) as [|c l]; simpl; eauto. }
  destruct H as (x & l & ->).
  destruct (Js.dedupe (x :: l)) eqn:E; [|simpl; lia].
  exfalso. assert (Hin : In x (Js.dedupe (x :: l))) by (apply LaneFacts.dedupe_In; now left).
  now rewrite E in Hin.
Qed.

Lemma allChars_all c : In c allChars.
Proof.
  unfold allChars. rewrite <- (ascii_nat_embedding c). apply in_map.
  apply in_seq. pose proof (nat_ascii_bounded c). lia.
Qed.

Lemma slices2_pairs l : incl (slices2 l) allPairs.
Proof.
  induction l as [|a l IH]; [intros x []|].
  destruct l as [|b l]; [intros x []|].
  intros x [<-|Hx]; [|now apply IH].
  unfold allPairs. apply in_map_iff. exists (a, b). split; [reflexivity|].
  apply in_prod; apply allChars_all.
Qed.

(** There are at most 256 * 256 two-character strings. *)
Lemma bigrams_bounded v : (List.length (bigrams v) <= 256 * 256)%nat.
Proof.
  assert (Hlen : List.length allPairs = (256 * 256)%nat).
  { unfold allPairs, allChars.
    now rewrite length_map, length_prod, length_map, length_seq. }
  rewrite <- Hlen. apply NoDup_incl_length; [apply bigrams_NoDup|].
  intros x Hx. unfold bigrams in Hx. apply (proj1 (LaneFacts.dedupe_In _ _)) in Hx.
  exact (slices2_pairs _ x Hx).
Qed.

Lemma overlap_le_left A B : (overlapOf A B <= List.length A)%nat.
Proof. apply filter_length_le. Qed.

Lemma overlap_le_right A B : NoDup A -> (overlapOf A B <= List.length B)%nat.
Proof.
  intros HA. apply NoDup_incl_length; [now apply NoDup_filter|].
  intros x Hx. apply filter_In in Hx as [_ Hx]. now apply LaneFacts.setHas_In.
Qed.

Lemma filter_all_length {X : Type} (p : X -> bool) l :
  List.length (filter p l) = List.length l -> forall x, In x l -> p x = true.
Proof.
  intros H x Hx. apply filter_length_forallb in H.
  rewrite forallb_forall in H. now apply H.
Qed.

Lemma overlap_full A B :
  NoDup A -> NoDup B ->
  (2 * overlapOf A B = List.length A + List.length B)%nat <->
  (forall x, In x A <-> In x B).
Proof.
  intros HA HB.
  pose proof (overlap_le_left A B) as Hl.
  pose proof (overlap_le_right A B HA) as Hr.
  split.
  - intros H.
    assert (HeA : overlapOf A B = List.length A) by lia.
    assert (HeB : List.length A = List.length B) by lia.
    assert (Hincl : incl A B).
    { intros x Hx. apply LaneFacts.setHas_In.
      now apply (filter_all_length (Js.setHas B) A HeA). }
    intros x. split; [apply Hincl|].
    apply (NoDup_length_incl HA); [lia|exact Hincl].
  - intros Hsame.
    assert (Hperm : Permutation A B) by (apply NoDup_Permutation; assumption).
    assert (Hall : filter (Js.setHas B) A = A).
    { apply forallb_filter_id. apply forallb_forall. intros x Hx.
      apply LaneFacts.setHas_In. now apply Hsame. }
    unfold overlapOf. rewrite Hall. rewrite (Permutation_length Hperm). lia.
Qed.

(** The score is 1.0 exactly when the two bigram sets coincide. *)
Lemma dice_one_iff a b :
  (diceSimilarity a b == 1)%Q <-> (forall x, In x (bigrams a) <-> In x (bigrams b)).
Proof.
  unfold diceSimilarity, diceOf.
  pose proof (bigrams_nonempty a) as Ha. pose proof (bigrams_nonempty b) as Hb.
  pose proof (bigrams_bounded a) as Ha'. pose proof (bigrams_bounded b) as Hb'.
  pose proof (overlap_le_left (bigrams a) (bigrams b)) as Hl.
  pose proof (overlap_le_right (bigrams a) (bigrams b) (bigrams_NoDup a)) as Hr.
  destruct (Nat.eqb_spec (List.length (bigrams a)) 0) as [|_]; [lia|].
  destruct (Nat.eqb_spec (List.length (bigrams b)) 0) as [|_]; [lia|].
  simpl orb. cbv iota.
  rewrite NumberFacts.div_one_iff.
  - rewrite <- (overlap_full (bigrams a) (bigrams b) (bigrams_NoDup a) (bigrams_NoDup b)).
    lia.
  - lia.
  - assert (H53 : (2 ^ 53 = 9007199254740992)%Z) by reflexivity.
    rewrite H53. lia.
Qed.

(** C5, as amended.  [diceSimilarity] scores the two bigram sets, and the
    score of two sets is 0 when either is empty; the similarity is 1.0
    exactly when the two bigram sets are equal, which is the case whenever
    the normalized forms are identical and non-empty. *)
Theorem dice_zero_and_one (a b : string) :
  diceSimilarity a b = diceOf (bigrams a) (bigrams b)
  /\ (forall A B : list string, A = [] \/ B = [] -> diceOf A B = 0%Q)
  /\ ((diceSimilarity a b == 1)%Q <-> (forall x, In x (bigrams a) <-> In x (bigrams b)))
  /\ (normalize a = normalize b -> normalize a <> EmptyString ->
        (diceSimilarity a b == 1)%Q).
Proof.
  split; [reflexivity|split; [|split]].
  - intros A B H. unfold diceOf.
    destruct H as [-> | ->]; simpl; [reflexivity|].
    now rewrite orb_true_r.
  - apply dice_one_iff.
  - intros Hn _. apply dice_one_iff. unfold bigrams. rewrite Hn. tauto.
Qed.

Lemma dice_zero_and_one_witness :
  (diceSimilarity "Pay Rent!" "pay   rent" == 1)%Q.
Proof.
  apply (proj2 (proj2 (proj2 (dice_zero_and_one "Pay Rent!" "pay   rent")))).
  - vm_compute. reflexivity.
  - vm_compute. discriminate.
Defined.

(** C5 as stated fails: "abab" and "ababab" score 1.0 although their
    normalized forms differ. *)
Lemma dice_one_distinct_forms :
  ~ ((diceSimilarity "abab" "ababab" == 1)%Q <->
     (normalize "abab" = normalize "ababab" /\ normalize "abab" <> EmptyString)).
Proof.
  intros [H _].
  assert (H1 : (diceSimilarity "abab" "ababab" == 1)%Q) by (vm_compute; reflexivity).
  destruct (H H1) as [Heq _]. vm_compute in Heq. discriminate.
Qed.

Lemma bestMatch_acc title pool : forall seen acc,
  Best title seen acc ->
  Best title (seen ++ pool)
    (fold_left
       (fun (best : option (Candidate * Q)) (item : Candidate) =>
          let score := diceSimilarity (snd item) title in
          match best with
          | None => Some (item, score)
          | Some (_, bestScore) =>
              if JsNumber.gt score bestScore then Some (item, score) else best
          end) pool acc).
Proof.
  induction pool as [|x pool IH]; intros seen acc Hacc; simpl.
  - now rewrite app_nil_r.
  - replace (seen ++ x :: pool)%list with ((seen ++ [x]) ++ pool)%list
      by (now rewrite <- app_assoc).
    apply IH. destruct acc as [[c s]|]; simpl in *.
    + destruct Hacc as (Hc & Hs & Hmax).
      unfold JsNumber.gt. destruct (Qle_bool (diceSimilarity (snd x) title) s) eqn:E; simpl.
      * apply Qle_bool_iff in E. repeat split; [apply in_or_app; now left|assumption|].
        intros c' Hc'. apply in_app_or in Hc' as [Hc'|[<-|[]]]; [now apply Hmax|exact E].
      * assert (Hlt : (s < diceSimilarity (snd x) title)%Q).
        { apply Qnot_le_lt. intros Hle. apply Qle_bool_iff in Hle. congruence. }
        repeat split; [apply in_or_app; right; now left|].
        intros c' Hc'. apply in_app_or in Hc' as [Hc'|[<-|[]]]; [|apply Qle_refl].
        apply Qle_trans with s; [now apply Hmax|now apply Qlt_le_weak].
    + subst seen. simpl. repeat split; [now left|].
      intros c' [<-|[]]. apply Qle_refl.
Qed.

Lemma bestMatch_spec title pool : Best title pool (bestMatch title pool).
Proof. apply (bestMatch_acc title pool [] None). reflexivity. Qed.

Lemma find_exact_none title (pool : list Candidate) :
  (forall c, In c pool -> normalize (snd c) <> normalize title) ->
  find (fun item : Candidate => String.eqb (normalize (snd item)) (normalize title)) pool = None.
Proof.
  intros H.
  destruct (find (fun item : Candidate => String.eqb (normalize (snd item)) (normalize title)) pool)
    as [c|] eqn:E; [|reflexivity].
  apply find_some in E as [Hc He]. apply String.eqb_eq in He.
  now apply H in Hc.
Qed.

Lemma findAmong_fuzzy entityType title (pool : list Candidate) :
  (forall c, In c pool -> normalize (snd c) <> normalize title) ->
  match findAmong entityType title pool with
  | Some m =>
      ImportDuplicateMatch.kind m = kind_fuzzy
      /\ exists c,
           In c pool
           /\ ImportDuplicateMatch.id m = fst c
           /\ ImportDuplicateMatch.title m = snd c
           /\ (forall c', In c' pool -> (scoreOf title c' <= scoreOf title c)%Q)
           /\ (THRESHOLD <= scoreOf title c)%Q
           /\ ImportDuplicateMatch.score m = JsNumber.roundTo2 (scoreOf title c)
  | None => forall c, In c pool -> (scoreOf title c < THRESHOLD)%Q
  end.
Proof.
  intros Hno. unfold findAmong. rewrite (find_exact_none title pool Hno).
  pose proof (bestMatch_spec title pool) as Hbest.
  destruct (bestMatch title pool) as [[c s]|]; simpl in Hbest.
  - destruct Hbest as (Hc & Hs & Hmax). subst s.
    unfold JsNumber.ge. destruct (Qle_bool THRESHOLD (scoreOf title c)) eqn:E.
    + apply Qle_bool_iff in E. simpl. split; [reflexivity|].
      exists c. repeat split; assumption.
    + intros c' Hc'. apply Qle_lt_trans with (scoreOf title c); [now apply Hmax|].
      apply Qnot_le_lt. intros Hle. apply Qle_bool_iff in Hle. congruence.
  - subst pool. intros c [].
Qed.

(** The literal 0.72 reaches the threshold, 0.71999 does not. *)
Lemma threshold_boundary :
  (THRESHOLD <= JsNumber.div 72 100)%Q /\ (JsNumber.div 71999 100000 < THRESHOLD)%Q.
Proof. split; [apply Qle_refl|vm_compute; reflexivity]. Qed.

(** C6. When no candidate of the scoped pool has the input's normalized
    title, [findDuplicate] answers with a fuzzy match exactly when the
    highest score among the candidates is at least 0.72, and with null
    otherwise; the score it returns is that maximum rounded to the nearest
    hundredth.  A maximum of exactly 0.72 is matched, one of 0.71999 is
    not. *)
Theorem fuzzy_iff_threshold (db : Db) (source : SourceType) (entityType : ImportEntityType)
    (title : string) :
  let pool := scopedPool db source entityType in
  let top c := In c pool /\ forall c', In c' pool -> (scoreOf title c' <= scoreOf title c)%Q in
  (forall c, In c pool -> normalize (snd c) <> normalize title) ->
  match findDuplicate db source entityType title with
  | Some m =>
      ImportDuplicateMatch.kind m = kind_fuzzy
      /\ exists c n,
           top c
           /\ (THRESHOLD <= scoreOf title c)%Q
           /\ ImportDuplicateMatch.score m = JsNumber.div n 100
           /\ (inject_Z n - (1 # 2) <= 100 * scoreOf title c)%Q
           /\ (100 * scoreOf title c < inject_Z n + (1 # 2))%Q
  | None => forall c, In c pool -> (scoreOf title c < THRESHOLD)%Q
  end
  /\ (forall c, top c -> (THRESHOLD <= scoreOf title c)%Q ->
        exists m, findDuplicate db source entityType title = Some m
                  /\ ImportDuplicateMatch.kind m = kind_fuzzy)
  /\ (forall c, top c -> (scoreOf title c < THRESHOLD)%Q ->
        findDuplicate db source entityType title = None)
  /\ (THRESHOLD <= JsNumber.div 72 100)%Q
  /\ (JsNumber.div 71999 100000 < THRESHOLD)%Q.
Proof.
  intros pool top Hno. unfold findDuplicate. fold pool.
  pose proof (findAmong_fuzzy entityType title pool Hno) as H.
  split; [|split; [|split; [|exact threshold_boundary]]].
  - destruct (findAmong entityType title pool) as [m|]; [|exact H].
    destruct H as (Hk & c & Hc & _ & _ & Hmax & Hth & Hsc).
    split; [assumption|]. exists c, (JsNumber.toFixed2 (scoreOf title c)).
    destruct (NumberFacts.toFixed2_nearest (scoreOf title c)) as [Hlo Hhi].
    repeat split; assumption.
  - intros c [Hc _] Hge. destruct (findAmong entityType title pool) as [m|].
    + exists m. split; [reflexivity|apply H].
    + exfalso. apply H in Hc. apply (Qlt_irrefl THRESHOLD).
      now apply Qle_lt_trans with (scoreOf title c).
  - intros c [Hc Hmax] Hlt. destruct (findAmong entityType title pool) as [m|]; [|reflexivity].
    exfalso. destruct H as (_ & c' & Hc' & _ & _ & _ & Hth & _).
    apply (Qlt_irrefl THRESHOLD).
    apply Qle_lt_trans with (scoreOf title c'); [assumption|].
    apply Qle_lt_trans with (scoreOf title c); [now apply Hmax|assumption].
Qed.

(** C7. When some candidate of the scoped pool has the input's
    normalized title, [findDuplicate] answers with an exact match of
    score 1.0, whatever the other candidates score. *)
Theorem exact_outranks_fuzzy (db : Db) (source : SourceType) (entityType : ImportEntityType)
    (title : string) :
  (exists c, In c (scopedPool db source entityType) /\ normalize (snd c) = normalize title) ->
  exists m,
    findDuplicate db source entityType title = Some m
    /\ ImportDuplicateMatch.kind m = kind_exact
    /\ ImportDuplicateMatch.score m = 1%Q
    /\ ImportDuplicateMatch.entityType m = entityType
    /\ In (ImportDuplicateMatch.id m, ImportDuplicateMatch.title m)
         (scopedPool db source entityType)
    /\ normalize (ImportDuplicateMatch.title m) = normalize title.
Proof.
  intros (c & Hc & Hn). unfold findDuplicate, findAmong.
  destruct (find (fun item : Candidate => String.eqb (normalize (snd item)) (normalize title))
              (scopedPool db source entityType)) as [e|] eqn:E.
  - apply find_some in E as [He Hne]. apply String.eqb_eq in Hne.
    eexists. split; [reflexivity|]. simpl. repeat split; try assumption.
    now destruct e.
  - exfalso. apply (find_none _ _ E) in Hc. apply String.eqb_neq in Hc. contradiction.
Qed.

(** C8. When the parsed header list has no "title", [previewImport]
    answers with one row, at line 1 and carrying an error, and counts no
    valid row and one invalid row, whatever data lines the text has. *)
Theorem missing_title_header (db : Db) (payload : ImportPreviewRequest.t) :
  ~ In "title"%string (fst (parseCsv (ImportPreviewRequest.text payload))) ->
  exists row,
    ImportPreviewResponse.rows (previewImport db payload) = [row]
    /\ ImportPreviewRow.line row = 1%nat
    /\ ImportPreviewRow.error row <> None
    /\ ImportPreviewResponse.validRows (previewImport db payload) = 0%nat
    /\ ImportPreviewResponse.invalidRows (previewImport db payload) = 1%nat.
Proof.
  intros Hno. unfold previewImport.
  destruct (parseCsv (ImportPreviewRequest.text payload)) as [headers rows]. simpl in Hno.
  assert (Hmiss : filter (fun required => negb (existsb (String.eqb required) headers))
                    (requiredHeadersByType (ImportPreviewRequest.type payload))
                  = ["title"%string]).
  { assert (Hreq : requiredHeadersByType (ImportPreviewRequest.type payload) = ["title"%string])
      by (destruct (ImportPreviewRequest.type payload); reflexivity).
    rewrite Hreq. cbn [filter].
    destruct (existsb (String.eqb "title") headers) eqn:E; [|reflexivity].
    exfalso. apply Hno. apply existsb_exists in E as [h [Hh He]].
    apply String.eqb_eq in He. now subst h. }
  rewrite Hmiss. cbn [List.length Nat.ltb Nat.leb].
  eexists. split; [reflexivity|]. cbn.
  repeat split. discriminate.
Qed.

End ImportFacts.

(** ** The operations evaluated on the sample store *)
Module Evaluation.
Import Sql Store LaneSpec StoreSpec Imports MatchSpec.
Local Open Scope string_scope.

Ltac distinct := repeat (constructor; [cbn; intuition discriminate|]); constructor.

Lemma sample_unique_ids : unique_ids Sample.db.
Proof. unfold unique_ids. cbn. distinct. Defined.

Lemma sample_dense : dense Sample.db.
Proof. intros s. destruct s; cbn; apply Permutation_refl. Defined.

Lemma sample_refs_ok : refs_ok Sample.db.
Proof.
  intros t Ht. cbn in Ht. destruct Ht as [<-|[<-|[<-|[<-|[]]]]]; reflexivity.
Defined.

Lemma lanes_stay_dense_witness :
  dense (runLaneOps [Reorder "2026-03-01T08:00:00.000Z" Sample.dragToDone; Delete "task-map"]
           Sample.db).
Proof.
  apply LaneFacts.lanes_stay_dense; [exact sample_unique_ids|exact sample_dense].
Defined.

(** C2.  The code does not do this.  Dragging the daily rent task from
    the todo lane to the done lane is accepted and stores the status
    "done", yet the table has the same rows as before: no successor.
    The same transition through [updateTask] appends one. *)
Theorem reorder_into_done_spawns_nothing :
  let ts := "2026-02-28T18:00:00.000Z" in
  let after := reorderTasksInLane ts Sample.dragToDone Sample.db in
  option_map Task.status (taskById "task-rent" Sample.db) = Some todo
  /\ option_map Task.recurrence (taskById "task-rent" Sample.db) = Some daily
  /\ snd after <> None
  /\ option_map Task.status (taskById "task-rent" (fst after)) = Some done
  /\ map Task.id (tasks (fst after)) = map Task.id (tasks Sample.db)
  /\ map Task.id
       (tasks (fst (updateTask (H := UtcDate.runtime) Sample.env "task-rent" Sample.markDone
                      Sample.db)))
     = (map Task.id (tasks Sample.db) ++ ["task-next"])%list.
Proof. vm_compute. repeat split; discriminate. Qed.

(** No reorder, accepted or not, adds a row to [tasks]. *)
Lemma reorder_never_spawns ts input db :
  map Task.id (tasks (fst (reorderTasksInLane ts input db))) = map Task.id (tasks db).
Proof. apply StoreFacts.reorder_ids. Qed.

Lemma foreign_id_rejects_witness :
  reorderTasksInLane "2026-03-01T08:00:00.000Z" Sample.dragWithForeignId Sample.db
  = (Sample.db, None).
Proof.
  apply StoreFacts.foreign_id_rejects.
  - unfold ids_nonempty. cbn. repeat constructor; discriminate.
  - exists Sample.validator. cbn. repeat split; [tauto|tauto|discriminate|discriminate].
Defined.

(** C4 as stated fails: completing the rent task with a patch that also
    sets its details to "  call the bank " creates a successor whose
    details are "call the bank", not those of the completed task. *)
Lemma successor_details_not_copied :
  let after :=
    updateTask (H := UtcDate.runtime) Sample.env "task-rent" Sample.markDoneWithDetails
      Sample.db in
  exists item next,
    snd after = Some item
    /\ taskById "task-next" (fst after) = Some next
    /\ Task.status item = done /\ Task.recurrence item = daily
    /\ Task.details item = Some "  call the bank "
    /\ Task.details next = Some "call the bank"
    /\ Task.details next <> Task.details item.
Proof.
  vm_compute. eexists. eexists. split; [reflexivity|]. split; [reflexivity|].
  repeat split. discriminate.
Qed.

Lemma completing_spawns_once_witness :
  exists db' item next,
    updateTask (H := UtcDate.runtime) Sample.env "task-rent" Sample.markDone Sample.db
    = (db', Some item)
    /\ In next (tasks db')
    /\ Task.id next = "task-next"
    /\ Task.status next = todo.
Proof.
  destruct (proj1 (StoreFacts.completing_spawns_once (H := UtcDate.runtime))
              Sample.env "task-rent" Sample.markDone Sample.db Sample.payRent)
    as (db' & item & before & next & Hu & Ht & _ & Hid & Hs & _).
  - reflexivity.
  - discriminate.
  - reflexivity.
  - discriminate.
  - reflexivity.
  - discriminate.
  - exists db', item, next. split; [exact Hu|]. split; [|split; assumption].
    rewrite Ht. apply in_or_app. right. now left.
Defined.

Lemma completedAt_follows_status_witness :
  option_map Task.completedAt (taskById "task-backfill" Sample.db) = Some None
  /\ exists row,
       taskById "task-backfill"
         (fst (updateTask (H := UtcDate.runtime) Sample.env "task-backfill" Sample.rename
                 Sample.db))
       = Some row
       /\ Task.status row = done
       /\ Task.completedAt row = Some "2026-02-28T18:00:01.000Z".
Proof.
  split; [reflexivity|].
  destruct (updateTask (H := UtcDate.runtime) Sample.env "task-backfill" Sample.rename Sample.db)
    as [db' [item|]] eqn:E; [|vm_compute in E; discriminate].
  assert (Hitem : Task.status item = done
                  /\ Task.completedAt item = Some "2026-02-28T18:00:01.000Z").
  { vm_compute in E. injection E as _ <-. split; reflexivity. }
  destruct (StoreFacts.completedAt_follows_status (H := UtcDate.runtime) _ _ _ _ _ _ E)
    as (_ & _ & row & Hrow & Hs & Hc).
  exists row. cbn [fst]. split; [exact Hrow|].
  destruct Hitem as [H1 H2]. split; congruence.
Defined.

Lemma project_refs_preserved_witness :
  refs_ok (exec (H := UtcDate.runtime) (OpDeleteProject "2026-03-01T08:00:00.000Z" "proj-orion")
             Sample.db).
Proof.
  apply (proj1 (StoreFacts.project_refs_preserved (H := UtcDate.runtime))).
  exact sample_refs_ok.
Defined.

Lemma fuzzy_iff_threshold_witness :
  exists m,
    findDuplicate Sample.db apple_reminders entity_task "Pay the rent" = Some m
    /\ ImportDuplicateMatch.kind m = kind_fuzzy.
Proof.
  destruct (ImportFacts.fuzzy_iff_threshold Sample.db apple_reminders entity_task "Pay the rent")
    as (H & _ & _).
  - intros c Hc. vm_compute in Hc. destruct Hc as [<-|[<-|[]]]; vm_compute; discriminate.
  - destruct (findDuplicate Sample.db apple_reminders entity_task "Pay the rent") as [m|] eqn:E.
    + exists m. split; [reflexivity|apply H].
    + vm_compute in E. discriminate.
Defined.

Lemma exact_outranks_fuzzy_witness :
  exists m,
    findDuplicate Sample.db apple_reminders entity_task "pay, rent!" = Some m
    /\ ImportDuplicateMatch.kind m = kind_exact
    /\ ImportDuplicateMatch.score m = 1%Q.
Proof.
  destruct (ImportFacts.exact_outranks_fuzzy Sample.db apple_reminders entity_task "pay, rent!")
    as (m & Hm & Hk & Hs & _).
  - exists ("task-rent", "Pay Rent"). split; [vm_compute; now left|vm_compute; reflexivity].
  - exists m. repeat split; assumption.
Defined.

Lemma missing_title_header_witness :
  exists row,
    ImportPreviewResponse.rows (previewImport Sample.db Sample.noTitleHeader) = [row]
    /\ ImportPreviewRow.line row = 1%nat
    /\ ImportPreviewRow.error row <> None
    /\ ImportPreviewResponse.validRows (previewImport Sample.db Sample.noTitleHeader) = 0%nat
    /\ ImportPreviewResponse.invalidRows (previewImport Sample.db Sample.noTitleHeader) = 1%nat.
Proof.
  apply ImportFacts.missing_title_header.
  vm_compute. intros [H|[H|[]]]; discriminate.
Defined.

End Evaluation.

(** ** More about the lane engine: renumbering, appending, positions *)
Module LaneExtras.
Import Sql Store LaneSpec StoreSpec StoreSpec2.

Lemma normalize_steps (sl : list TaskStatus) : forall db,
  unique_ids db ->
  let db' :=
    fold_left
      (fun acc status =>
         set_tasks (renumber (order_by by_creation (lane status (tasks acc))) (tasks acc)) acc)
      sl db in
  unique_ids db'
  /\ (forall s, In s sl \/ dense_lane s (tasks db) -> dense_lane s (tasks db')).
Proof.
  induction sl as [|s0 sl IH]; intros db Hnd; cbn [fold_left].
  - split; [assumption|]. intros s [[]|H]. exact H.
  - destruct (LaneFacts.repair_lane by_creation s0 (tasks db) Hnd) as (Hids & Hd & Ho).
    set (db1 := set_tasks (renumber (order_by by_creation (lane s0 (tasks db))) (tasks db)) db).
    assert (Hnd1 : unique_ids db1) by (unfold unique_ids, db1; cbn; now rewrite Hids).
    destruct (IH db1 Hnd1) as [IH1 IH2]. split; [exact IH1|].
    intros s Hs. apply IH2.
    destruct (TaskStatus_eq_dec s s0) as [->|Hne]; [right; exact Hd|].
    destruct Hs as [[Heq|Hin]|Hdense]; [congruence|now left|right].
    apply (LaneFacts.dense_lane_same s (tasks db)); [|assumption].
    unfold db1. cbn. now apply Ho.
Qed.

Lemma normalizeTaskOrder_all_dense db : unique_ids db -> dense (normalizeTaskOrder db).
Proof.
  intros Hnd s. destruct (normalize_steps TASK_STATUSES db Hnd) as [_ H].
  apply H. left. destruct s; cbn; tauto.
Qed.

(** X1. Whatever the order values were, [normalizeTaskOrder] leaves every
    lane dense, and it changes no column but [order_index]. *)
Theorem normalizeTaskOrder_dense (db : Db) :
  unique_ids db ->
  dense (normalizeTaskOrder db)
  /\ map erase_order (tasks (normalizeTaskOrder db)) = map erase_order (tasks db)
  /\ projects (normalizeTaskOrder db) = projects db
  /\ content_entries (normalizeTaskOrder db) = content_entries db
  /\ activity (normalizeTaskOrder db) = activity db.
Proof.
  intros Hnd. split; [|split; [|repeat split]].
  - now apply normalizeTaskOrder_all_dense.
  - apply StoreFacts.normalizeTaskOrder_frame. reflexivity.
Qed.

Local Open Scope Z_scope.

Lemma fold_max_ge l : forall a x, In x (a :: l) -> x <= fold_left Z.max l a.
Proof.
  induction l as [|b l IH]; intros a x Hx; cbn [fold_left].
  - destruct Hx as [Hx|[]]. lia.
  - destruct Hx as [Hx|[Hx|Hx]].
    + transitivity (Z.max a b); [lia|apply IH; now left].
    + transitivity (Z.max a b); [lia|apply IH; now left].
    + apply IH. now right.
Qed.

Lemma fold_max_in l : forall a, In (fold_left Z.max l a) (a :: l).
Proof.
  induction l as [|b l IH]; intros a; cbn [fold_left]; [now left|].
  destruct (IH (Z.max a b)) as [H|H].
  - rewrite <- H. destruct (Z.max_spec a b) as [[_ ->]|[_ ->]]; [right; now left|now left].
  - right. now right.
Qed.

(** On a dense lane the next order value is the size of the lane. *)
Lemma next_order_dense db s :
  dense_lane s (tasks db) ->
  getNextTaskOrder db s = Z.of_nat (List.length (lane s (tasks db))).
Proof.
  unfold dense_lane, getNextTaskOrder. intros Hperm.
  destruct (lane s (tasks db)) as [|t rest] eqn:E; [reflexivity|].
  set (n := List.length (t :: rest)) in *.
  set (m := fold_left Z.max (map Task.order rest) (Task.order t)).
  assert (Hin : In m (map Z.of_nat (seq 0 n))).
  { apply (Permutation_in _ Hperm). apply (fold_max_in (map Task.order rest) (Task.order t)). }
  apply in_map_iff in Hin as [k [Hk Hkn]]. apply in_seq in Hkn.
  assert (Htop : Z.of_nat (n - 1) <= m).
  { apply (fold_max_ge (map Task.order rest) (Task.order t)).
    apply (Permutation_in _ (Permutation_sym Hperm)). apply in_map. apply in_seq.
    unfold n. cbn. lia. }
  unfold n in *. cbn [List.length] in *. lia.
Qed.

Lemma dense_lane_append s rows t :
  dense_lane s rows ->
  (Task.status t = s -> Task.order t = Z.of_nat (List.length (lane s rows))) ->
  dense_lane s (rows ++ [t]).
Proof.
  unfold dense_lane, lane. intros Hd Ht. rewrite filter_app. cbn [filter].
  destruct (in_lane s t) eqn:E.
  - apply LaneFacts.in_lane_iff in E. rewrite map_app, length_app. cbn [List.length map].
    rewrite Nat.add_1_r, seq_S, map_app. cbn [map Nat.add].
    rewrite (Ht E). now apply Permutation_app_tail.
  - now rewrite app_nil_r.
Qed.

Lemma getNextTaskOrder_tasks db db' s :
  tasks db' = tasks db -> getNextTaskOrder db' s = getNextTaskOrder db s.
Proof. unfold getNextTaskOrder. now intros ->. Qed.

Lemma createTask_item env input db :
  Task.id (snd (createTask env input db)) = CreateTaskEnv.newId env
  /\ Task.status (snd (createTask env input db)) = patched (CreateTaskInput.status input) todo
  /\ Task.order (snd (createTask env input db))
     = getNextTaskOrder db (patched (CreateTaskInput.status input) todo).
Proof.
  unfold createTask.
  destruct (negb (projectExists db (patched (CreateTaskInput.projectId input) INBOX_PROJECT_ID)));
    cbn [snd Task.id Task.status Task.order]; repeat split.
  apply getNextTaskOrder_tasks, StoreFacts.ensureInboxProject_tasks.
Qed.

Lemma createTask_keeps_dense env input db :
  unique_ids db -> dense db ->
  ~ In (CreateTaskEnv.newId env) (map Task.id (tasks db)) ->
  unique_ids (fst (createTask env input db)) /\ dense (fst (createTask env input db)).
Proof.
  intros Hnd Hd Hfresh.
  destruct (createTask_item env input db) as (Hid & Hst & Hord).
  unfold unique_ids, dense. rewrite StoreFacts.createTask_tasks. split.
  - rewrite map_app. cbn [map]. rewrite Hid.
    apply NoDup_app; [exact Hnd|repeat constructor; intros []|].
    intros x Hx [<-|[]]. contradiction.
  - intros s. apply dense_lane_append; [apply Hd|].
    intros Hs. rewrite Hord. rewrite Hst in Hs. subst s. apply next_order_dense, Hd.
Qed.

(** X2. [createTask] appends at the end of the lane: on a store with dense
    lanes and an id not yet in use, the new task's order is the size its
    lane had, and the lanes are dense afterwards. *)
Theorem createTask_appends (env : CreateTaskEnv.t) (input : CreateTaskInput.t) (db : Db) :
  unique_ids db -> dense db ->
  ~ In (CreateTaskEnv.newId env) (map Task.id (tasks db)) ->
  let item := snd (createTask env input db) in
  tasks (fst (createTask env input db)) = (tasks db ++ [item])%list
  /\ Task.order item = Z.of_nat (List.length (lane (Task.status item) (tasks db)))
  /\ unique_ids (fst (createTask env input db))
  /\ dense (fst (createTask env input db)).
Proof.
  intros Hnd Hd Hfresh item.
  destruct (createTask_item env input db) as (Hid & Hst & Hord).
  split; [apply StoreFacts.createTask_tasks|]. split.
  - unfold item. rewrite Hord, Hst. apply next_order_dense, Hd.
  - now apply createTask_keeps_dense.
Qed.

(** Density only looks at the pairs of status and order. *)
Lemma lane_orders s rows :
  map Task.order (lane s rows)
  = map snd (filter (fun p => TaskStatus_beq (fst p) s)
               (map (fun t => (Task.status t, Task.order t)) rows)).
Proof.
  induction rows as [|t rows IH]; [reflexivity|]. cbn [lane filter map fst].
  unfold in_lane at 1. destruct (TaskStatus_beq (Task.status t) s); cbn [map snd];
    [f_equal|]; exact IH.
Qed.

Lemma dense_lane_pairs s rows rows' :
  map (fun t => (Task.status t, Task.order t)) rows'
  = map (fun t => (Task.status t, Task.order t)) rows ->
  dense_lane s rows -> dense_lane s rows'.
Proof.
  intros Hp. unfold dense_lane.
  rewrite <- (length_map Task.order (lane s rows')), <- (length_map Task.order (lane s rows)).
  now rewrite !lane_orders, Hp.
Qed.

Lemma updateResult_dense `{JsDate} env id patch current db :
  unique_ids db -> dense db ->
  taskById id db = Some current ->
  ~ In (CreateTaskEnv.newId (UpdateTaskEnv.spawn env)) (map Task.id (tasks db)) ->
  TaskPatch.order patch = None
  \/ patched (TaskPatch.status patch) (Task.status current) <> Task.status current ->
  unique_ids (fst (updateResult env id patch current db))
  /\ dense (fst (updateResult env id patch current db)).
Proof.
  intros Hnd Hd Hfind Hfresh Hcond. unfold updateResult.
  pose proof (StoreFacts.resolveProject_tasks env (TaskPatch.projectId patch) current db) as Ht.
  destruct (resolveProject env (TaskPatch.projectId patch) current db) as [db1 pid].
  cbn [fst snd] in *.
  set (item := patchedTask env patch current pid db).
  set (db2 := storeTask id item db1).
  assert (Hids2 : map Task.id (tasks db2) = map Task.id (tasks db))
    by (unfold db2; now rewrite StoreFacts.storeTask_ids, Ht).
  assert (Hnd2 : unique_ids db2) by (unfold unique_ids; now rewrite Hids2).
  set (db3 := if negb (TaskStatus_beq (Task.status current) (Task.status item))
              then normalizeTaskOrder db2 else db2).
  assert (H3 : unique_ids db3 /\ dense db3
               /\ map Task.id (tasks db3) = map Task.id (tasks db)).
  { unfold db3. destruct (TaskStatus_beq (Task.status current) (Task.status item)) eqn:E;
      cbn [negb].
    - split; [exact Hnd2|]. split; [|exact Hids2].
      apply LaneFacts.status_beq_eq in E.
      assert (Hord : TaskPatch.order patch = None).
      { destruct Hcond as [Ho|Hs]; [exact Ho|]. exfalso. apply Hs. symmetry. exact E. }
      assert (Hsame : Task.order item = Task.order current).
      { cbn [item patchedTask Task.order]. rewrite Hord.
        cbn [item patchedTask Task.status] in E. rewrite <- E.
        destruct (Task.status current); reflexivity. }
      intros s. apply (dense_lane_pairs s (tasks db)); [|apply Hd].
      unfold db2, storeTask. cbn [tasks set_tasks]. rewrite Ht.
      unfold update_where. rewrite map_map. apply map_ext_in. intros row Hrow.
      destruct (has_id id row) eqn:Eid; [|reflexivity].
      cbn [Task.status Task.order].
      assert (row = current).
      { apply LaneFacts.find_has_id in Hfind as [Hin Hcid].
        apply (LaneFacts.NoDup_map_eq Task.id (tasks db) row current Hnd Hrow Hin).
        unfold has_id in Eid. apply String.eqb_eq in Eid. congruence. }
      subst row. now rewrite Hsame, E.
    - split; [|split].
      + unfold unique_ids. rewrite StoreFacts.normalizeTaskOrder_frame by reflexivity.
        exact Hnd2.
      + now apply normalizeTaskOrder_all_dense.
      + rewrite StoreFacts.normalizeTaskOrder_frame by reflexivity. exact Hids2. }
  destruct H3 as (Hnd3 & Hd3 & Hids3). cbn [tasks insertActivity].
  unfold unique_ids, dense. cbn [tasks insertActivity].
  destruct (spawns current item); [|now split].
  apply createTask_keeps_dense; try assumption. now rewrite Hids3.
Qed.

(** X3. [updateTask] keeps the lanes dense whenever the patch carries no
    [order] or changes the status (the successor it may spawn takes an id
    not yet in use). *)
Theorem updateTask_keeps_dense `{JsDate} (env : UpdateTaskEnv.t) (id : string)
    (patch : TaskPatch.t) (db : Db) :
  unique_ids db -> dense db ->
  ~ In (CreateTaskEnv.newId (UpdateTaskEnv.spawn env)) (map Task.id (tasks db)) ->
  (TaskPatch.order patch = None
   \/ forall current, taskById id db = Some current ->
        patched (TaskPatch.status patch) (Task.status current) <> Task.status current) ->
  unique_ids (fst (updateTask env id patch db)) /\ dense (fst (updateTask env id patch db)).
Proof.
  intros Hnd Hd Hfresh Hcond.
  destruct (taskById id db) as [current|] eqn:Hfind.
  - destruct (TaskPatch.projectId patch) as [[p|]|] eqn:Hp.
    + rewrite (StoreFacts.updateTask_eq env id patch db current Hfind) by congruence.
      apply updateResult_dense; try assumption.
      destruct Hcond as [Ho|Hs]; [now left|right; now apply Hs].
    + unfold updateTask. unfold taskById in Hfind. rewrite Hfind, Hp. now split.
    + rewrite (StoreFacts.updateTask_eq env id patch db current Hfind) by congruence.
      apply updateResult_dense; try assumption.
      destruct Hcond as [Ho|Hs]; [now left|right; now apply Hs].
  - unfold updateTask. unfold taskById in Hfind. rewrite Hfind. now split.
Qed.

Lemma pos_nth ids : forall k x,
  NoDup ids -> nth_error ids k = Some x -> pos x ids = Some k.
Proof.
  induction ids as [|y ids IH]; intros k x Hnd Hk; [destruct k; discriminate|].
  inversion Hnd as [|? ? Hy Hnd']; subst. destruct k as [|k]; cbn in *.
  - injection Hk as ->. now rewrite String.eqb_refl.
  - destruct (String.eqb_spec x y) as [->|_].
    + exfalso. apply Hy. now apply (nth_error_In ids k).
    + now rewrite (IH k x Hnd' Hk).
Qed.

Lemma pos_app_l x ids ids' k : pos x ids = Some k -> pos x (ids ++ ids')%list = Some k.
Proof.
  revert k. induction ids as [|y ids IH]; intros k Hk; cbn in *; [discriminate|].
  destruct (String.eqb x y); [assumption|].
  destruct (pos x ids) as [j|]; [|discriminate].
  now rewrite (IH j eq_refl).
Qed.

Lemma find_unique rows t :
  NoDup (map Task.id rows) -> In t rows -> find (has_id (Task.id t)) rows = Some t.
Proof.
  intros Hnd Ht.
  destruct (find (has_id (Task.id t)) rows) as [t'|] eqn:E.
  - apply LaneFacts.find_has_id in E as [Hin Hid].
    now rewrite (LaneFacts.NoDup_map_eq Task.id rows t' t Hnd Hin Ht Hid).
  - exfalso. apply (find_none _ _ E) in Ht. unfold has_id in Ht.
    now rewrite String.eqb_refl in Ht.
Qed.

(** The listed ids end up in the destination lane, in the order listed. *)
Lemma reorderTx_positions ts input moved db :
  unique_ids db ->
  reorderAccepted input db = Some moved ->
  forall k x, nth_error (orderedIdsOf input) k = Some x ->
    exists t,
      In t (reorderTx ts input moved (tasks db))
      /\ Task.id t = x
      /\ Task.status t = ReorderInput.toStatus input
      /\ Task.order t = Z.of_nat k.
Proof.
  intros Hnd Hacc k x Hk.
  destruct (LaneFacts.reorderAccepted_inv _ _ _ Hacc) as (Hmoved & Hmid & Hmem & Hlen & Hval).
  unfold unique_ids in Hnd. unfold reorderTx.
  set (rows := tasks db) in *.
  set (m := ReorderInput.movedTaskId input) in *.
  set (toS := ReorderInput.toStatus input) in *.
  set (ids := orderedIdsOf input) in *.
  assert (Hpos : (0 <? List.length ids)%nat = true).
  { apply Nat.ltb_lt. destruct ids; [contradiction|simpl; lia]. }
  rewrite Hpos.
  set (rows1 := update_where (has_id m) (with_status_updated toS ts) rows).
  set (remaining := order_by by_lane_position
                      (filter (fun t => in_lane toS t && negb (Js.setHas ids (Task.id t))) rows1)).
  set (finalIds := (ids ++ map Task.id remaining)%list).
  set (upd3 := fun (i : nat) (t : Task.t) => with_order (Z.of_nat i) (with_status_updated toS ts t)).
  set (rows2 := Js.forEachIndex _ finalIds 0%nat rows1).
  assert (Hid1 : map Task.id rows1 = map Task.id rows)
    by (apply LaneFacts.update_where_ids; reflexivity).
  assert (Hnd1 : NoDup (map Task.id rows1)) by (rewrite Hid1; exact Hnd).
  assert (Hrem : Permutation remaining
                   (filter (fun t => in_lane toS t && negb (Js.setHas ids (Task.id t))) rows1))
    by apply LaneFacts.order_by_perm.
  assert (Hids : NoDup ids) by apply LaneFacts.dedupe_NoDup.
  assert (Hfinal : NoDup finalIds).
  { apply NoDup_app; [assumption| |].
    - apply (Permutation_NoDup (Permutation_sym (Permutation_map Task.id Hrem))).
      now apply LaneFacts.NoDup_map_filter.
    - intros y Hy Hr. apply in_map_iff in Hr as [t [<- Ht]].
      apply (Permutation_in _ Hrem) in Ht. apply filter_In in Ht as [_ Hc].
      apply andb_true_iff in Hc as [_ Hn]. apply negb_true_iff in Hn.
      apply LaneFacts.setHas_false in Hn. contradiction. }
  assert (Hspec2 : rows2 = map (apply_at upd3 finalIds 0) rows1)
    by (apply (LaneFacts.forEach_update_spec upd3 (fun _ _ => eq_refl) finalIds 0 rows1 Hfinal)).
  assert (Hx : In x ids) by (now apply (nth_error_In ids k)).
  assert (Hrow : exists t1, In t1 rows1 /\ Task.id t1 = x).
  { assert (Hin : In x (map Task.id rows1)).
    { rewrite Hid1. now apply (LaneFacts.rows_in_cover ids rows Hnd Hids Hlen). }
    apply in_map_iff in Hin as [t1 [Hid Ht1]]. eauto. }
  destruct Hrow as (t1 & Ht1 & Hid).
  assert (Hp : pos (Task.id t1) finalIds = Some k).
  { rewrite Hid. apply pos_app_l. now apply pos_nth. }
  assert (H2 : In (upd3 k t1) rows2).
  { rewrite Hspec2. apply in_map_iff. exists t1. split; [|assumption].
    unfold apply_at. now rewrite Hp. }
  destruct (TaskStatus_beq (Task.status moved) toS) eqn:Hsame; cbn [negb].
  - exists (upd3 k t1). repeat split; assumption.
  - apply LaneFacts.status_beq_neq in Hsame.
    assert (Hnd2 : NoDup (map Task.id rows2)).
    { rewrite Hspec2, LaneFacts.map_id_apply_at by reflexivity. exact Hnd1. }
    destruct (LaneFacts.repair_lane by_lane_position (Task.status moved) rows2 Hnd2)
      as (_ & _ & Ho3).
    exists (upd3 k t1). split; [|repeat split; assumption].
    assert (Hl : In (upd3 k t1) (lane toS rows2)) by (apply LaneFacts.lane_In; now split).
    rewrite <- (Ho3 toS) in Hl by congruence.
    now apply LaneFacts.lane_In in Hl as [Hl _].
Qed.

(** X4. After an accepted reorder the listed tasks sit in the destination
    lane at the positions of the list (duplicates and empty entries
    dropped): the k-th listed id has status [toStatus] and order k, the
    moved task among them. *)
Theorem reorder_places_listed_ids (ts : string) (input : ReorderInput.t) (db db' : Db)
    (items : list Task.t) :
  unique_ids db ->
  reorderTasksInLane ts input db = (db', Some items) ->
  In (ReorderInput.movedTaskId input) (orderedIdsOf input)
  /\ forall k x, nth_error (orderedIdsOf input) k = Some x ->
       exists t,
         taskById x db' = Some t
         /\ Task.status t = ReorderInput.toStatus input
         /\ Task.order t = Z.of_nat k.
Proof.
  intros Hnd Hr. unfold reorderTasksInLane in Hr.
  destruct (reorderAccepted input db) as [moved|] eqn:Hacc; [|discriminate].
  injection Hr as <- _.
  split; [apply (LaneFacts.reorderAccepted_inv _ _ _ Hacc)|].
  intros k x Hk.
  destruct (reorderTx_positions ts input moved db Hnd Hacc k x Hk) as (t & Ht & Hid & Hs & Ho).
  exists t. split; [|now split].
  unfold taskById. cbn [tasks insertActivity set_tasks]. rewrite <- Hid.
  apply find_unique; [|assumption].
  rewrite StoreFacts.reorderTx_frame by reflexivity. exact Hnd.
Qed.

Lemma find_has_id_some id rows t :
  In t rows -> Task.id t = id -> find (has_id id) rows <> None.
Proof.
  intros Ht Hid Hnone. apply (find_none _ _ Hnone) in Ht. unfold has_id in Ht.
  rewrite Hid, String.eqb_refl in Ht. discriminate.
Qed.

(** The checks pass when the moved task exists and is listed, every
    listed id names a task, and the listed tasks other than the moved one
    are in the destination lane. *)
Lemma reorderAccepted_when input db :
  unique_ids db ->
  In (ReorderInput.movedTaskId input) (map Task.id (tasks db)) ->
  In (ReorderInput.movedTaskId input) (ReorderInput.orderedTaskIds input) ->
  ReorderInput.movedTaskId input <> EmptyString ->
  (forall x, In x (ReorderInput.orderedTaskIds input) -> x <> EmptyString ->
     In x (map Task.id (tasks db))) ->
  (forall t, In t (tasks db) ->
     In (Task.id t) (ReorderInput.orderedTaskIds input) ->
     Task.id t <> EmptyString ->
     Task.id t = ReorderInput.movedTaskId input
     \/ Task.status t = ReorderInput.toStatus input) ->
  reorderAccepted input db <> None.
Proof.
  intros Hnd Hex Hm1 Hm2 Hall Hlane. unfold reorderAccepted.
  apply in_map_iff in Hex as [moved0 [Hid0 Hin0]].
  destruct (find (has_id (ReorderInput.movedTaskId input)) (tasks db)) as [moved|] eqn:Hfind;
    [|exfalso; now apply (find_has_id_some _ _ _ Hin0 Hid0)].
  assert (Hmem : In (ReorderInput.movedTaskId input) (orderedIdsOf input))
    by (apply LaneFacts.orderedIdsOf_In; now split).
  rewrite (proj2 (LaneFacts.setHas_In _ _) Hmem). cbn [negb].
  assert (Hlen : List.length (rows_in (orderedIdsOf input) (tasks db))
                 = List.length (orderedIdsOf input)).
  { rewrite <- (length_map Task.id). apply Permutation_length.
    apply NoDup_Permutation;
      [now apply LaneFacts.NoDup_map_filter|apply LaneFacts.dedupe_NoDup|].
    intros x. split.
    - intros Hx. apply in_map_iff in Hx as [t [<- Ht]].
      apply filter_In in Ht as [_ Ht]. now apply LaneFacts.setHas_In.
    - intros Hx. pose proof Hx as Hx'. apply LaneFacts.orderedIdsOf_In in Hx' as [Hx1 Hx2].
      destruct (proj1 (in_map_iff _ _ _) (Hall x Hx1 Hx2)) as [t [<- Ht]].
      apply in_map. apply filter_In. split; [assumption|now apply LaneFacts.setHas_In]. }
  rewrite Hlen, Nat.eqb_refl. cbn [negb orb].
  destruct (existsb _ (rows_in (orderedIdsOf input) (tasks db))) eqn:Hex.
  - exfalso. apply existsb_exists in Hex as (row & Hrow & Hc).
    apply filter_In in Hrow as [Hrow Hset]. apply LaneFacts.setHas_In in Hset.
    apply LaneFacts.orderedIdsOf_In in Hset as [Hs1 Hs2].
    apply andb_true_iff in Hc as [Hc1 Hc2].
    apply negb_true_iff in Hc1. apply negb_true_iff in Hc2.
    destruct (Hlane row Hrow Hs1 Hs2) as [He|He].
    + unfold has_id in Hc1. rewrite He, String.eqb_refl in Hc1. discriminate.
    + apply LaneFacts.in_lane_iff in He. congruence.
  - rewrite andb_false_r. discriminate.
Qed.

(** X5. A reorder is accepted exactly when the moved task exists, its id
    is in the list, every listed id names a task, and every listed task
    other than the moved one is already in the destination lane.  A
    rejected reorder leaves the store as it was. *)
Theorem reorder_accepted_iff (ts : string) (input : ReorderInput.t) (db : Db) :
  unique_ids db ->
  (snd (reorderTasksInLane ts input db) <> None <->
   In (ReorderInput.movedTaskId input) (map Task.id (tasks db))
   /\ In (ReorderInput.movedTaskId input) (ReorderInput.orderedTaskIds input)
   /\ ReorderInput.movedTaskId input <> EmptyString
   /\ (forall x, In x (ReorderInput.orderedTaskIds input) -> x <> EmptyString ->
         In x (map Task.id (tasks db)))
   /\ (forall t, In t (tasks db) ->
         In (Task.id t) (ReorderInput.orderedTaskIds input) ->
         Task.id t <> EmptyString ->
         Task.id t = ReorderInput.movedTaskId input
         \/ Task.status t = ReorderInput.toStatus input))
  /\ (snd (reorderTasksInLane ts input db) = None ->
      fst (reorderTasksInLane ts input db) = db).
Proof.
  intros Hnd. split; [|unfold reorderTasksInLane; destruct (reorderAccepted input db);
                        [discriminate|reflexivity]].
  assert (Hsnd : snd (reorderTasksInLane ts input db) <> None <-> reorderAccepted input db <> None).
  { unfold reorderTasksInLane. destruct (reorderAccepted input db); cbn [snd];
      split; intros H; congruence. }
  rewrite Hsnd. clear Hsnd. split.
  - intros Hacc. destruct (reorderAccepted input db) as [moved|] eqn:E; [|congruence].
    destruct (LaneFacts.reorderAccepted_inv _ _ _ E) as (Hmoved & Hmid & Hmem & Hlen & Hval).
    apply LaneFacts.orderedIdsOf_In in Hmem as [Hm1 Hm2].
    split; [rewrite <- Hmid; now apply in_map|]. split; [assumption|]. split; [assumption|].
    split.
    + intros x Hx Hxne.
      apply (LaneFacts.rows_in_cover (orderedIdsOf input) (tasks db) Hnd
               (LaneFacts.dedupe_NoDup _) Hlen).
      apply LaneFacts.orderedIdsOf_In. now split.
    + intros t Ht Hin Hne. apply Hval; [assumption|].
      apply LaneFacts.orderedIdsOf_In. now split.
  - intros (Hex & Hm1 & Hm2 & Hall & Hlane). now apply reorderAccepted_when.
Qed.

(** X6. A reorder writes [status], [order_index] and [updated_at] of
    tasks and nothing else: every other column of every task, the
    projects and the content entries are as before. *)
Theorem reorder_touches_only_position (ts : string) (input : ReorderInput.t) (db : Db) :
  map rest_cols (tasks (fst (reorderTasksInLane ts input db))) = map rest_cols (tasks db)
  /\ projects (fst (reorderTasksInLane ts input db)) = projects db
  /\ content_entries (fst (reorderTasksInLane ts input db)) = content_entries db.
Proof.
  unfold reorderTasksInLane. destruct (reorderAccepted input db); [|repeat split].
  cbn [fst tasks projects content_entries insertActivity set_tasks].
  split; [|split; reflexivity]. apply StoreFacts.reorderTx_frame; reflexivity.
Qed.

(** The transaction changes one status, that of the moved task. *)
Lemma reorderTx_status ts input moved db :
  unique_ids db ->
  reorderAccepted input db = Some moved ->
  map Task.status (reorderTx ts input moved (tasks db))
  = map (fun t => if has_id (ReorderInput.movedTaskId input) t
                  then ReorderInput.toStatus input else Task.status t) (tasks db).
Proof.
  intros Hnd Hacc.
  destruct (LaneFacts.reorderAccepted_inv _ _ _ Hacc) as (Hmoved & Hmid & Hmem & Hlen & Hval).
  unfold unique_ids in Hnd. unfold reorderTx.
  set (rows := tasks db) in *.
  set (m := ReorderInput.movedTaskId input) in *.
  set (toS := ReorderInput.toStatus input) in *.
  set (ids := orderedIdsOf input) in *.
  assert (Hpos : (0 <? List.length ids)%nat = true).
  { apply Nat.ltb_lt. destruct ids; [contradiction|simpl; lia]. }
  rewrite Hpos.
  set (rows1 := update_where (has_id m) (with_status_updated toS ts) rows).
  set (remaining := order_by by_lane_position
                      (filter (fun t => in_lane toS t && negb (Js.setHas ids (Task.id t))) rows1)).
  set (finalIds := (ids ++ map Task.id remaining)%list).
  set (upd3 := fun (i : nat) (t : Task.t) => with_order (Z.of_nat i) (with_status_updated toS ts t)).
  set (rows2 := Js.forEachIndex _ finalIds 0%nat rows1).
  assert (Hid1 : map Task.id rows1 = map Task.id rows)
    by (apply LaneFacts.update_where_ids; reflexivity).
  assert (Hnd1 : NoDup (map Task.id rows1)) by (rewrite Hid1; exact Hnd).
  assert (Hrem : Permutation remaining
                   (filter (fun t => in_lane toS t && negb (Js.setHas ids (Task.id t))) rows1))
    by apply LaneFacts.order_by_perm.
  assert (Hids : NoDup ids) by apply LaneFacts.dedupe_NoDup.
  assert (Hrem_in : forall x, In x (map Task.id remaining) ->
            exists t, In t rows1 /\ Task.id t = x /\ Task.status t = toS /\ ~ In x ids).
  { intros x Hx. apply in_map_iff in Hx as [t [<- Ht]].
    apply (Permutation_in _ Hrem) in Ht. apply filter_In in Ht as [Ht Hc].
    apply andb_true_iff in Hc as [Hl Hn]. apply negb_true_iff in Hn.
    exists t. repeat split;
      [assumption|now apply LaneFacts.in_lane_iff|now apply LaneFacts.setHas_false]. }
  assert (Hfinal : NoDup finalIds).
  { apply NoDup_app; [assumption| |].
    - apply (Permutation_NoDup (Permutation_sym (Permutation_map Task.id Hrem))).
      now apply LaneFacts.NoDup_map_filter.
    - intros x Hx Hr. apply Hrem_in in Hr as (t & _ & _ & _ & Hn). contradiction. }
  assert (Hkey : forall t, In t rows1 -> In (Task.id t) finalIds -> Task.status t = toS).
  { intros t Ht Hin. apply in_app_or in Hin as [Hin|Hin].
    - unfold rows1, update_where in Ht. apply in_map_iff in Ht as [t0 [Het Ht0]].
      unfold has_id in Het. destruct (String.eqb_spec (Task.id t0) m) as [He|Hne].
      + now subst t.
      + subst t. destruct (Hval t0 Ht0 Hin); [contradiction|assumption].
    - apply Hrem_in in Hin as (t' & Ht' & Hid & Hs & _).
      now rewrite <- (LaneFacts.NoDup_map_eq Task.id rows1 t' t Hnd1 Ht' Ht Hid). }
  assert (Hspec2 : rows2 = map (apply_at upd3 finalIds 0) rows1)
    by (apply (LaneFacts.forEach_update_spec upd3 (fun _ _ => eq_refl) finalIds 0 rows1 Hfinal)).
  assert (Hst2 : map Task.status rows2 = map Task.status rows1).
  { rewrite Hspec2, map_map. apply map_ext_in. intros t Ht. unfold apply_at.
    destruct (pos (Task.id t) finalIds) as [k|] eqn:Hp; [|reflexivity].
    cbn. symmetry. apply Hkey; [assumption|]. now apply (LaneFacts.pos_Some_In _ _ k). }
  assert (Hst1 : map Task.status rows1
                 = map (fun t => if has_id m t then toS else Task.status t) rows).
  { unfold rows1, update_where. rewrite map_map. apply map_ext. intros t.
    now destruct (has_id m t). }
  destruct (negb (TaskStatus_beq (Task.status moved) toS)).
  - rewrite (StoreFacts.renumber_frame Task.status (fun _ _ => eq_refl)). now rewrite Hst2.
  - now rewrite Hst2.
Qed.

(** X20. An accepted reorder changes the status of the moved task and of
    no other: the table has the same tasks in the same places, the moved
    one with status [toStatus] and every other with the status it had. *)
Theorem reorder_moves_one_task (ts : string) (input : ReorderInput.t) (db db' : Db)
    (items : list Task.t) :
  unique_ids db ->
  reorderTasksInLane ts input db = (db', Some items) ->
  map Task.id (tasks db') = map Task.id (tasks db)
  /\ map Task.status (tasks db')
     = map (fun t => if has_id (ReorderInput.movedTaskId input) t
                     then ReorderInput.toStatus input else Task.status t) (tasks db)
  /\ Permutation items (tasks db').
Proof.
  intros Hnd Hr. unfold reorderTasksInLane in Hr.
  destruct (reorderAccepted input db) as [moved|] eqn:Hacc; [|discriminate].
  injection Hr as <- <-. cbn [tasks insertActivity set_tasks].
  split; [apply StoreFacts.reorderTx_frame; reflexivity|].
  split; [now apply reorderTx_status|].
  unfold listTasks. cbn [tasks insertActivity set_tasks]. apply LaneFacts.order_by_perm.
Qed.

End LaneExtras.

(** * The board: from a drop to the stored lane *)
Module BoardExtras.
Import Sql Store LaneSpec StoreSpec Board.
Local Open Scope string_scope.

Lemma setAdd_fresh l : forall acc,
  NoDup (acc ++ l)%list -> fold_left (fun s x => Js.setAdd x s) l acc = (acc ++ l)%list.
Proof.
  induction l as [|x l IH]; intros acc Hnd; cbn [fold_left]; [now rewrite app_nil_r|].
  assert (Hx : ~ In x acc).
  { intros Hin. apply NoDup_remove_2 in Hnd. apply Hnd. apply in_or_app. now left. }
  unfold Js.setAdd at 2. fold (Js.setHas acc x).
  rewrite (proj2 (LaneFacts.setHas_false acc x) Hx).
  rewrite IH; rewrite <- app_assoc; [reflexivity|exact Hnd].
Qed.

Lemma orderedIdsOf_fix input :
  NoDup (ReorderInput.orderedTaskIds input) ->
  Forall (fun x => x <> EmptyString) (ReorderInput.orderedTaskIds input) ->
  orderedIdsOf input = ReorderInput.orderedTaskIds input.
Proof.
  intros Hnd Hne. unfold orderedIdsOf.
  assert (Hf : filter (fun s => negb (String.eqb s "")) (ReorderInput.orderedTaskIds input)
               = ReorderInput.orderedTaskIds input).
  { induction Hne as [|x l Hx _ IH]; [reflexivity|]. cbn [filter].
    apply String.eqb_neq in Hx. rewrite Hx. cbn [negb]. f_equal. apply IH.
    now inversion Hnd. }
  rewrite Hf. unfold Js.dedupe. now apply (setAdd_fresh _ []).
Qed.

Lemma indexOf_split b l :
  In b l ->
  exists l1 l2, l = (l1 ++ b :: l2)%list /\ ~ In b l1
                /\ indexOf b l = Z.of_nat (List.length l1).
Proof.
  induction l as [|y l IH]; intros Hin; [contradiction|].
  cbn [indexOf]. destruct (String.eqb_spec y b) as [->|Hne].
  - exists [], l. repeat split. intros [].
  - destruct Hin as [Hin|Hin]; [contradiction|].
    destruct (IH Hin) as (l1 & l2 & -> & Hn & Hi).
    exists (y :: l1), l2. split; [reflexivity|]. split.
    + intros [H|H]; [contradiction|now apply Hn].
    + rewrite Hi. destruct (Z.ltb_spec (Z.of_nat (List.length l1)) 0); [lia|].
      cbn [List.length]. lia.
Qed.

Lemma spliceIn_at l1 l2 x :
  spliceIn (Z.of_nat (List.length l1)) x (l1 ++ l2)%list = (l1 ++ x :: l2)%list.
Proof.
  unfold spliceIn. destruct (Z.ltb_spec (Z.of_nat (List.length l1)) 0); [lia|].
  rewrite length_app, Z.min_l by lia. rewrite Nat2Z.id.
  rewrite firstn_app, Nat.sub_diag, firstn_all, firstn_O, app_nil_r.
  now rewrite skipn_app, Nat.sub_diag, skipn_all, skipn_O.
Qed.

Lemma laneTasksByOrder_In `{JsLocale} rows s t :
  In t (laneTasksByOrder rows s) <-> In t rows /\ Task.status t = s.
Proof.
  unfold laneTasksByOrder. rewrite <- LaneFacts.lane_In. unfold lane, in_lane. split.
  - apply Permutation_in, LaneFacts.order_by_perm.
  - apply Permutation_in, Permutation_sym, LaneFacts.order_by_perm.
Qed.

Lemma laneTasksByOrder_NoDup `{JsLocale} rows s :
  NoDup (map Task.id rows) -> NoDup (map Task.id (laneTasksByOrder rows s)).
Proof.
  intros Hnd. unfold laneTasksByOrder.
  apply (Permutation_NoDup
           (Permutation_sym (Permutation_map Task.id (LaneFacts.order_by_perm _ _)))).
  now apply LaneFacts.NoDup_map_filter.
Qed.

Lemma map_pair_eq {A B X Y : Type} (f1 : A -> X) (f2 : A -> Y) (g1 : B -> X) (g2 : B -> Y) l' :
  forall l, map f1 l' = map g1 l -> map f2 l' = map g2 l ->
  forall t, In t l' -> exists t0, In t0 l /\ f1 t = g1 t0 /\ f2 t = g2 t0.
Proof.
  induction l' as [|a l' IH]; intros l H1 H2 t Ht; [contradiction|].
  destruct l as [|b l]; [discriminate|].
  injection H1 as Ha1 H1. injection H2 as Ha2 H2.
  destruct Ht as [<-|Ht].
  - exists b. repeat split; [now left|assumption|assumption].
  - destruct (IH l H1 H2 t Ht) as (t0 & Hin & He1 & He2).
    exists t0. repeat split; [now right|assumption|assumption].
Qed.

(** What [handleDrop] posts: the other cards of the lane in the order
    shown, with the dragged card before [beforeId] or at the end. *)
Lemma handleDrop_body `{JsLocale} rows dragged canDragBoard toStatus beforeId body :
  handleDrop rows (Some dragged) canDragBoard toStatus beforeId = Some body ->
  let others :=
    map Task.id
      (filter (fun task => negb (String.eqb (Task.id task) dragged))
         (laneTasksByOrder rows toStatus)) in
  dragged <> EmptyString
  /\ canDragBoard = true
  /\ ReorderInput.movedTaskId body = dragged
  /\ ReorderInput.toStatus body = toStatus
  /\ exists l1 l2,
       others = (l1 ++ l2)%list
       /\ ReorderInput.orderedTaskIds body = (l1 ++ dragged :: l2)%list
       /\ (forall b, beforeId = Some b -> b <> EmptyString -> In b others ->
             ~ In b l1 /\ hd_error l2 = Some b)
       /\ (beforeId = None -> l2 = []).
Proof.
  intros Hbody. cbv zeta. unfold handleDrop in Hbody.
  set (others := map Task.id (filter _ (laneTasksByOrder rows toStatus))) in *.
  destruct (String.eqb_spec dragged "") as [|Hne]; [discriminate|].
  destruct canDragBoard; [|discriminate]. cbn [negb orb] in Hbody.
  injection Hbody as <-.
  cbn [ReorderInput.movedTaskId ReorderInput.toStatus ReorderInput.orderedTaskIds].
  do 4 (split; [reflexivity || assumption|]).
  assert (Hend : (forall b, beforeId = Some b -> b <> EmptyString -> ~ In b others) ->
            exists l1 l2, others = (l1 ++ l2)%list
              /\ (others ++ [dragged])%list = (l1 ++ dragged :: l2)%list
              /\ (forall b, beforeId = Some b -> b <> EmptyString -> In b others ->
                    ~ In b l1 /\ hd_error l2 = Some b)
              /\ (beforeId = None -> l2 = [])).
  { intros Hout. exists others, []. rewrite app_nil_r.
    split; [reflexivity|]. split; [reflexivity|]. split; [|reflexivity].
    intros b Hb Hbne Hin. exfalso. now apply (Hout b). }
  destruct beforeId as [before|].
  - destruct (String.eqb_spec before "") as [->|Hbne]; cbn [negb andb].
    + apply Hend. intros b [= <-] Hb. congruence.
    + destruct (Js.setHas others before) eqn:Hhas.
      * apply LaneFacts.setHas_In in Hhas.
        destruct (indexOf_split before others Hhas) as (l1 & l2 & Ho & Hn & Hi).
        exists l1, (before :: l2). rewrite Hi, Ho, spliceIn_at.
        split; [reflexivity|]. split; [reflexivity|]. split; [|discriminate].
        intros b [= <-] _ _. split; [exact Hn|reflexivity].
      * apply LaneFacts.setHas_false in Hhas.
        apply Hend. intros b [= <-] _. exact Hhas.
  - apply Hend. discriminate.
Qed.

(** X21. A drop on the board is never refused and lands where it was
    dropped.  When the page shows the stored tasks (unique, non-empty ids),
    in whatever order, and the dragged task is one of them, the request
    [handleDrop] posts
    passes the checks of the route and of [reorderTasksInLane]; afterwards
    the destination lane holds exactly the posted ids, the k-th at order
    k: the other cards of the lane in the order they were shown, with the
    dragged card before [beforeId], or last when there is none. *)
Theorem drop_lands_where_dropped `{JsLocale} (ts : string) (db : Db) (shown : list Task.t)
    (dragged : string) (canDragBoard : bool) (toStatus : TaskStatus)
    (beforeId : option string) (body : ReorderInput.t) :
  unique_ids db -> ids_nonempty db ->
  Permutation shown (tasks db) ->
  In dragged (map Task.id (tasks db)) ->
  handleDrop shown (Some dragged) canDragBoard toStatus beforeId = Some body ->
  let others :=
    map Task.id
      (filter (fun task => negb (String.eqb (Task.id task) dragged))
         (laneTasksByOrder shown toStatus)) in
  exists db' items,
    reorderRoute ts body db = (db', Some items)
    /\ (forall k x, nth_error (ReorderInput.orderedTaskIds body) k = Some x ->
          exists t, taskById x db' = Some t
                    /\ Task.status t = toStatus /\ Task.order t = Z.of_nat k)
    /\ (forall t, In t (tasks db') -> Task.status t = toStatus ->
          In (Task.id t) (ReorderInput.orderedTaskIds body))
    /\ exists l1 l2,
         others = (l1 ++ l2)%list
         /\ ReorderInput.orderedTaskIds body = (l1 ++ dragged :: l2)%list
         /\ (forall b, beforeId = Some b -> In b others -> ~ In b l1 /\ hd_error l2 = Some b)
         /\ (beforeId = None -> l2 = []).
Proof.
  intros Hnd Hne Hshown Hex Hbody. cbv zeta.
  destruct (handleDrop_body _ _ _ _ _ _ Hbody)
    as (Hdne & _ & Hm & Hs & l1 & l2 & Ho & Hp & Hbefore & Hnone).
  set (others := map Task.id (filter _ (laneTasksByOrder shown toStatus))) in *.
  unfold unique_ids in Hnd. unfold ids_nonempty in Hne. rewrite Forall_forall in Hne.
  assert (Hothers : forall x, In x others <->
            exists t, In t (tasks db) /\ Task.id t = x /\ Task.status t = toStatus
                      /\ x <> dragged).
  { intros x. unfold others. rewrite in_map_iff. split.
    - intros (t & <- & Ht). apply filter_In in Ht as [Ht Hd].
      apply laneTasksByOrder_In in Ht as [Ht Hst]. apply negb_true_iff in Hd.
      apply String.eqb_neq in Hd. apply (Permutation_in _ Hshown) in Ht.
      exists t. now repeat split.
    - intros (t & Ht & <- & Hst & Hd). exists t. split; [reflexivity|].
      apply (Permutation_in _ (Permutation_sym Hshown)) in Ht.
      apply filter_In. split; [now apply laneTasksByOrder_In|].
      apply negb_true_iff. now apply String.eqb_neq. }
  assert (Hond : NoDup others).
  { unfold others. apply LaneFacts.NoDup_map_filter. apply laneTasksByOrder_NoDup.
    exact (Permutation_NoDup (Permutation_sym (Permutation_map Task.id Hshown)) Hnd). }
  assert (Hpay : forall x, In x (ReorderInput.orderedTaskIds body) <-> x = dragged \/ In x others).
  { intros x. rewrite Hp, Ho, !in_app_iff. cbn [In]. intuition congruence. }
  assert (Hpnd : NoDup (ReorderInput.orderedTaskIds body)).
  { rewrite Hp. apply NoDup_Add with (a := dragged) (l := others).
    - rewrite Ho. apply Add_app.
    - split; [assumption|]. intros Hin. apply Hothers in Hin as (_ & _ & _ & _ & Hd).
      now apply Hd. }
  assert (Hpne : Forall (fun x => x <> EmptyString) (ReorderInput.orderedTaskIds body)).
  { apply Forall_forall. intros x Hx. apply Hpay in Hx as [->|Hx]; [assumption|].
    apply Hothers in Hx as (t & Ht & <- & _). now apply Hne. }
  assert (Hfix : orderedIdsOf body = ReorderInput.orderedTaskIds body)
    by now apply orderedIdsOf_fix.
  assert (Hacc : reorderAccepted body db <> None).
  { apply LaneExtras.reorderAccepted_when.
    - exact Hnd.
    - now rewrite Hm.
    - rewrite Hm. apply Hpay. now left.
    - now rewrite Hm.
    - intros x Hx _. apply Hpay in Hx as [->|Hx]; [assumption|].
      apply Hothers in Hx as (t & Ht & <- & _). now apply in_map.
    - intros t Ht Hin _. rewrite Hm, Hs. apply Hpay in Hin as [Hin|Hin]; [now left|right].
      apply Hothers in Hin as (t' & Ht' & Hid & Hst & _).
      now rewrite <- (LaneFacts.NoDup_map_eq Task.id (tasks db) t' t Hnd Ht' Ht Hid). }
  destruct (reorderAccepted body db) as [moved|] eqn:Eacc; [|congruence].
  exists (fst (reorderTasksInLane ts body db)), (listTasks (fst (reorderTasksInLane ts body db))).
  assert (Hroute : reorderRoute ts body db = reorderTasksInLane ts body db).
  { unfold reorderRoute. rewrite Hm. apply String.eqb_neq in Hdne. rewrite Hdne.
    now destruct (ReorderInput.toStatus body). }
  assert (Htx : reorderTasksInLane ts body db
                = (insertActivity act_task (ReorderInput.movedTaskId body) "reordered"
                     (set_tasks (reorderTx ts body moved (tasks db)) db),
                   Some (listTasks
                           (insertActivity act_task (ReorderInput.movedTaskId body) "reordered"
                              (set_tasks (reorderTx ts body moved (tasks db)) db))))).
  { unfold reorderTasksInLane. now rewrite Eacc. }
  split; [rewrite Hroute, Htx; reflexivity|].
  rewrite Htx. cbn [fst tasks insertActivity set_tasks].
  assert (Hids' : map Task.id (reorderTx ts body moved (tasks db)) = map Task.id (tasks db))
    by (apply StoreFacts.reorderTx_frame; reflexivity).
  split; [|split].
  - intros k x Hk. rewrite <- Hfix in Hk.
    destruct (LaneExtras.reorderTx_positions ts body moved db Hnd Eacc k x Hk)
      as (t & Ht & Hid & Hst & Hord).
    exists t. split; [|split; [congruence|assumption]].
    unfold taskById. cbn [tasks insertActivity set_tasks]. rewrite <- Hid.
    apply LaneExtras.find_unique; [now rewrite Hids'|assumption].
  - intros t Ht Hst.
    destruct (map_pair_eq Task.id Task.status Task.id
                (fun t0 => if has_id (ReorderInput.movedTaskId body) t0
                           then ReorderInput.toStatus body else Task.status t0)
                _ _ Hids' (LaneExtras.reorderTx_status ts body moved db Hnd Eacc) t Ht)
      as (t0 & Ht0 & Hid & Hst0).
    apply Hpay. unfold has_id in Hst0. rewrite Hm in Hst0.
    destruct (String.eqb_spec (Task.id t0) dragged) as [He|Hd]; [left; congruence|right].
    apply Hothers. exists t0. repeat split; [assumption|congruence|congruence|congruence].
  - exists l1, l2. split; [assumption|]. split; [assumption|]. split; [|assumption].
    intros b Hb Hin. apply Hbefore; [assumption| |assumption].
    apply Hothers in Hin as (t & Ht & <- & _). now apply Hne.
Qed.

End BoardExtras.

(** ** More about tasks, projects and content entries *)
Module StoreExtras.
Import Sql Store LaneSpec StoreSpec StoreSpec2.

Lemma find_none_ids id rows :
  find (has_id id) rows = None <-> ~ In id (map Task.id rows).
Proof.
  split.
  - intros Hnone Hin. apply in_map_iff in Hin as [t [Hid Ht]].
    now apply (LaneExtras.find_has_id_some id rows t Ht Hid).
  - intros Hn. destruct (find (has_id id) rows) as [t|] eqn:E; [|reflexivity].
    exfalso. apply LaneFacts.find_has_id in E as [Hin Hid]. apply Hn.
    rewrite <- Hid. now apply in_map.
Qed.

Lemma delete_where_ids id rows : ~ In id (map Task.id (delete_where (has_id id) rows)).
Proof.
  intros Hin. apply in_map_iff in Hin as [t [Hid Ht]].
  unfold delete_where in Ht. apply filter_In in Ht as [_ Hn].
  apply negb_true_iff in Hn. unfold has_id in Hn. rewrite Hid, String.eqb_refl in Hn.
  discriminate.
Qed.

(** X7. [deleteTask] answers false and changes nothing when no task has
    the id.  Otherwise the task is gone together with the content entries
    attached to it, while the remaining tasks keep every column but
    [order_index] and the projects are untouched. *)
Theorem deleteTask_effects (id : string) (db : Db) :
  (taskById id db = None -> deleteTask id db = (db, false))
  /\ (taskById id db <> None ->
      snd (deleteTask id db) = true
      /\ taskById id (fst (deleteTask id db)) = None
      /\ map erase_order (tasks (fst (deleteTask id db)))
         = map erase_order (delete_where (has_id id) (tasks db))
      /\ (forall e, In e (content_entries (fst (deleteTask id db))) <->
            In e (content_entries db)
            /\ ~ (ContentEntry.parentType e = parent_task /\ ContentEntry.parentId e = id))
      /\ projects (fst (deleteTask id db)) = projects db).
Proof.
  unfold taskById, deleteTask. split.
  - now intros ->.
  - destruct (find (has_id id) (tasks db)) as [task|]; [intros _|congruence].
    cbn [fst snd tasks projects content_entries insertActivity set_tasks set_content_entries].
    split; [reflexivity|]. split; [|split; [|split; [|reflexivity]]].
    + apply find_none_ids. rewrite StoreFacts.renumber_frame by reflexivity.
      apply delete_where_ids.
    + apply StoreFacts.renumber_frame. reflexivity.
    + intros e. unfold delete_where. rewrite filter_In, negb_true_iff, andb_false_iff.
      split; intros [He Hc]; (split; [exact He|]).
      * intros [Hp Hi]. rewrite Hp, Hi, String.eqb_refl in Hc. destruct Hc; discriminate.
      * destruct (ContentEntry.parentType e) eqn:Ep; [now left|].
        right. apply String.eqb_neq. intros Hi. apply Hc. now split.
Qed.

(** X8. [updateProject] answers null and changes nothing when no project
    has the id.  Otherwise a patched completion percentage is stored
    clamped into 0..100, the id, source and creation time are kept, and
    neither the tasks nor the set of project ids change. *)
Theorem updateProject_effects (ts id : string) (patch : ProjectPatch.t) (db : Db) :
  (projectExists db id = false -> updateProject ts id patch db = (db, None))
  /\ (forall db' item,
         updateProject ts id patch db = (db', Some item) ->
         Project.id item = id
         /\ (forall n, ProjectPatch.completionPercent patch = Some n ->
               (0 <= Project.completionPercent item <= 100)%Z
               /\ ((0 <= n <= 100)%Z -> Project.completionPercent item = n))
         /\ (exists current,
                In current (projects db) /\ Project.id current = id
                /\ Project.source item = Project.source current
                /\ Project.createdAt item = Project.createdAt current
                /\ (ProjectPatch.completionPercent patch = None ->
                    Project.completionPercent item = Project.completionPercent current))
         /\ In item (projects db')
         /\ map Project.id (projects db') = map Project.id (projects db)
         /\ tasks db' = tasks db).
Proof.
  split.
  - intros Hno. unfold updateProject.
    destruct (find (fun p => String.eqb (Project.id p) id) (projects db)) as [c|] eqn:E;
      [|reflexivity].
    apply find_some in E as [Hin Hid]. unfold projectExists in Hno.
    assert (Hex : existsb (fun p => String.eqb (Project.id p) id) (projects db) = true)
      by (apply existsb_exists; eauto).
    congruence.
  - intros db' item Hu.
    pose proof (StoreFacts.updateProject_ids ts id patch db) as Hids.
    pose proof (StoreFacts.updateProject_tasks ts id patch db) as Htasks.
    rewrite Hu in Hids, Htasks. cbn [fst] in *.
    unfold updateProject in Hu.
    destruct (find (fun p => String.eqb (Project.id p) id) (projects db)) as [c|] eqn:E;
      [|discriminate].
    apply find_some in E as [Hin Hid]. apply String.eqb_eq in Hid.
    injection Hu as <- <-. cbn [Project.id Project.completionPercent Project.source
                                 Project.createdAt].
    split; [assumption|]. split; [|split; [|split; [|split; assumption]]].
    + intros n ->. split; [lia|]. intros Hn. lia.
    + exists c. repeat split; try assumption. now intros ->.
    + cbn [projects insertActivity set_projects]. unfold update_where.
      apply in_map_iff. exists c. split; [|assumption].
      rewrite Hid, String.eqb_refl. reflexivity.
Qed.

Lemma delete_where_gone id (rows : list Project.t) :
  existsb (fun q => String.eqb (Project.id q) id)
    (delete_where (fun q => String.eqb (Project.id q) id) rows) = false.
Proof.
  destruct (existsb _ _) eqn:E; [|reflexivity].
  apply existsb_exists in E as (q & Hq & Hid). unfold delete_where in Hq.
  apply filter_In in Hq as [_ Hn]. rewrite Hid in Hn. discriminate.
Qed.

(** X9. [deleteProject] answers false and changes nothing when no project
    has the id.  After a successful call the project is gone, every other
    project is still there, and the content entries that hung off it hang
    off the Inbox: none is lost and none refers to the deleted project. *)
Theorem deleteProject_effects (tsInbox id : string) (db : Db) :
  (projectExists db id = false -> deleteProject tsInbox id db = (db, false))
  /\ (forall db',
         deleteProject tsInbox id db = (db', true) ->
         projectExists db' id = false
         /\ (forall q, In q (projects db) -> Project.id q <> id -> In q (projects db'))
         /\ map ContentEntry.id (content_entries db') = map ContentEntry.id (content_entries db)
         /\ (forall e, In e (content_entries db') ->
               ContentEntry.parentType e = parent_project -> ContentEntry.parentId e <> id)
         /\ (forall e, In e (content_entries db) ->
               ContentEntry.parentType e = parent_project -> ContentEntry.parentId e = id ->
               In (ContentEntry.mk (ContentEntry.id e) parent_project INBOX_PROJECT_ID)
                  (content_entries db'))).
Proof.
  split.
  - intros Hno. unfold deleteProject. rewrite Hno. cbn [negb].
    now destruct (String.eqb id INBOX_PROJECT_ID).
  - intros db' Hdel.
    destruct (StoreFacts.deleteProject_inv tsInbox id db db' Hdel) as (Hne & _ & Hprojects).
    unfold deleteProject in Hdel.
    destruct (String.eqb id INBOX_PROJECT_ID); [discriminate|].
    destruct (negb (projectExists db id)); [discriminate|].
    injection Hdel as <-.
    cbn [projects content_entries insertActivity set_projects set_content_entries set_tasks]
      in *.
    assert (Hc : content_entries (ensureInboxProject tsInbox db) = content_entries db).
    { unfold ensureInboxProject. now destruct (projectExists db INBOX_PROJECT_ID). }
    rewrite Hc. split; [|split; [|split; [|split]]].
    + unfold projectExists. cbn [projects]. apply delete_where_gone.
    + intros q Hq Hqid. unfold delete_where. apply filter_In. split.
      * unfold ensureInboxProject. destruct (projectExists db INBOX_PROJECT_ID);
          [assumption|]. cbn [projects set_projects]. apply in_or_app. now left.
      * now apply negb_true_iff, String.eqb_neq.
    + unfold update_where. rewrite map_map. apply map_ext. intros e.
      now destruct (_ && _).
    + intros e He Hp Hid. unfold update_where in He.
      apply in_map_iff in He as [e0 [Heq He0]].
      destruct (ContentParentType_beq (ContentEntry.parentType e0) parent_project
                && String.eqb (ContentEntry.parentId e0) id) eqn:Ec.
      * subst e. cbn in Hid. congruence.
      * subst e0. rewrite Hp, Hid, String.eqb_refl in Ec. discriminate.
    + intros e He Hp Hid. unfold update_where. apply in_map_iff. exists e.
      split; [|assumption]. rewrite Hp, Hid, String.eqb_refl. reflexivity.
Qed.

(** X10. [ensureInboxProject] makes the Inbox a singleton: it inserts a
    row only when none has the Inbox id, so that the number of such rows
    afterwards is the larger of one and what it was, and a second call
    changes nothing. *)
Theorem ensureInboxProject_singleton (ts ts' : string) (db : Db) :
  let inboxRows d :=
    List.length (filter (fun p => String.eqb (Project.id p) INBOX_PROJECT_ID) (projects d)) in
  inboxRows (ensureInboxProject ts db) = Nat.max 1 (inboxRows db)
  /\ ensureInboxProject ts' (ensureInboxProject ts db) = ensureInboxProject ts db.
Proof.
  cbv zeta. split.
  - unfold ensureInboxProject. destruct (projectExists db INBOX_PROJECT_ID) eqn:E.
    + unfold projectExists in E. apply existsb_exists in E as (q & Hq & Hid).
      assert (Hin : In q (filter (fun p => String.eqb (Project.id p) INBOX_PROJECT_ID)
                            (projects db))) by (apply filter_In; now split).
      destruct (filter _ (projects db)); [contradiction|]. cbn [List.length]. lia.
    + cbn [projects set_projects]. rewrite filter_app, length_app.
      assert (Hnone : filter (fun p => String.eqb (Project.id p) INBOX_PROJECT_ID) (projects db)
                      = []).
      { destruct (filter _ (projects db)) as [|q l] eqn:F; [reflexivity|].
        assert (Hq : In q (q :: l)) by now left. rewrite <- F in Hq.
        apply filter_In in Hq as [Hq Hid]. unfold projectExists in E.
        assert (existsb (fun p => String.eqb (Project.id p) INBOX_PROJECT_ID) (projects db)
                = true) by (apply existsb_exists; eauto).
        congruence. }
      rewrite Hnone. reflexivity.
  - unfold ensureInboxProject at 1. now rewrite StoreFacts.ensureInboxProject_inbox.
Qed.

Lemma taskExists_In db i : taskExists db i = true <-> In i (map Task.id (tasks db)).
Proof.
  unfold taskExists. rewrite existsb_exists, in_map_iff. split.
  - intros (t & Ht & Hid). unfold has_id in Hid. apply String.eqb_eq in Hid. eauto.
  - intros (t & Hid & Ht). exists t. split; [assumption|].
    unfold has_id. now apply String.eqb_eq.
Qed.

Lemma content_refs_mono db db' :
  incl (content_entries db') (content_entries db) ->
  (forall p, projectExists db p = true -> projectExists db' p = true) ->
  incl (map Task.id (tasks db)) (map Task.id (tasks db')) ->
  content_refs_ok db -> content_refs_ok db'.
Proof.
  intros Hc Hp Ht Hok e He. specialize (Hok e (Hc e He)).
  destruct (ContentEntry.parentType e).
  - now apply Hp.
  - apply taskExists_In, Ht. now apply taskExists_In.
Qed.

Lemma ensureInboxProject_content ts db :
  content_entries (ensureInboxProject ts db) = content_entries db.
Proof. unfold ensureInboxProject. now destruct (projectExists db INBOX_PROJECT_ID). Qed.

Lemma createTask_content env input db :
  content_entries (fst (createTask env input db)) = content_entries db.
Proof.
  unfold createTask.
  destruct (negb (projectExists db (patched (CreateTaskInput.projectId input) INBOX_PROJECT_ID)));
    cbn [fst content_entries insertActivity set_tasks]; [|reflexivity].
  apply ensureInboxProject_content.
Qed.

Lemma updateResult_content_ids `{JsDate} env id patch current db :
  content_entries (fst (updateResult env id patch current db)) = content_entries db
  /\ incl (map Task.id (tasks db)) (map Task.id (tasks (fst (updateResult env id patch current db)))).
Proof.
  unfold updateResult.
  pose proof (StoreFacts.resolveProject_tasks env (TaskPatch.projectId patch) current db) as Ht.
  assert (Hc : content_entries (fst (resolveProject env (TaskPatch.projectId patch) current db))
               = content_entries db).
  { unfold resolveProject. destruct (TaskPatch.projectId patch) as [[p|]|]; try reflexivity.
    destruct (projectExists db p); [reflexivity|apply ensureInboxProject_content]. }
  destruct (resolveProject env (TaskPatch.projectId patch) current db) as [db1 pid].
  cbn [fst snd] in *.
  set (item := patchedTask env patch current pid db).
  set (db3 := if negb (TaskStatus_beq (Task.status current) (Task.status item))
              then normalizeTaskOrder (storeTask id item db1) else storeTask id item db1).
  assert (H3 : content_entries db3 = content_entries db
               /\ map Task.id (tasks db3) = map Task.id (tasks db)).
  { unfold db3. destruct (negb _).
    - split; [exact Hc|].
      rewrite StoreFacts.normalizeTaskOrder_frame by reflexivity.
      now rewrite StoreFacts.storeTask_ids, Ht.
    - split; [exact Hc|]. now rewrite StoreFacts.storeTask_ids, Ht. }
  destruct H3 as [Hc3 Hi3]. cbn [content_entries tasks insertActivity].
  destruct (spawns current item).
  - split; [now rewrite createTask_content|].
    rewrite StoreFacts.createTask_tasks, map_app, Hi3. now apply incl_appl, incl_refl.
  - split; [assumption|]. rewrite Hi3. apply incl_refl.
Qed.

Lemma updateTask_content_ids `{JsDate} env id patch db :
  content_entries (fst (updateTask env id patch db)) = content_entries db
  /\ incl (map Task.id (tasks db)) (map Task.id (tasks (fst (updateTask env id patch db)))).
Proof.
  destruct (taskById id db) as [current|] eqn:Hfind.
  - destruct (TaskPatch.projectId patch) as [[p|]|] eqn:Hp.
    + rewrite (StoreFacts.updateTask_eq env id patch db current Hfind) by congruence.
      apply updateResult_content_ids.
    + unfold updateTask. unfold taskById in Hfind. rewrite Hfind, Hp.
      split; [reflexivity|apply incl_refl].
    + rewrite (StoreFacts.updateTask_eq env id patch db current Hfind) by congruence.
      apply updateResult_content_ids.
  - unfold updateTask. unfold taskById in Hfind. rewrite Hfind.
    split; [reflexivity|apply incl_refl].
Qed.

Lemma deleteProject_content_refs tsInbox id db :
  content_refs_ok db -> content_refs_ok (fst (deleteProject tsInbox id db)).
Proof.
  intros Hok. destruct (deleteProject tsInbox id db) as [db' [|]] eqn:E.
  - destruct (StoreFacts.deleteProject_inv tsInbox id db db' E) as (Hne & Htasks & Hprojects).
    assert (Hids : map Task.id (tasks db') = map Task.id (tasks db)).
    { rewrite Htasks, map_map. apply map_ext. intros t.
      now destruct (String.eqb (Task.projectId t) id). }
    assert (Hkeep : forall p, p <> id -> projectExists db p = true -> projectExists db' p = true).
    { intros p Hp Hex. unfold projectExists at 1. rewrite Hprojects.
      apply StoreFacts.projectExists_delete_where; [assumption|].
      now apply StoreFacts.ensureInboxProject_mono. }
    assert (Hinbox : projectExists db' INBOX_PROJECT_ID = true).
    { unfold projectExists. rewrite Hprojects.
      apply StoreFacts.projectExists_delete_where;
        [congruence|apply StoreFacts.ensureInboxProject_inbox]. }
    unfold deleteProject in E.
    destruct (String.eqb id INBOX_PROJECT_ID); [discriminate|].
    destruct (negb (projectExists db id)); [discriminate|].
    cbn [fst]. intros e He.
    assert (Hsrc : exists e0, In e0 (content_entries db)
                     /\ e = (if ContentParentType_beq (ContentEntry.parentType e0) parent_project
                                && String.eqb (ContentEntry.parentId e0) id
                             then ContentEntry.mk (ContentEntry.id e0)
                                    (ContentEntry.parentType e0) INBOX_PROJECT_ID
                             else e0)).
    { injection E as E. rewrite <- E in He.
      cbn [content_entries insertActivity set_projects set_content_entries set_tasks] in He.
      rewrite ensureInboxProject_content in He. unfold update_where in He.
      apply in_map_iff in He as [e0 [Heq He0]]. exists e0. now split. }
    destruct Hsrc as (e0 & He0 & Heq). specialize (Hok e0 He0).
    destruct (ContentParentType_beq (ContentEntry.parentType e0) parent_project
              && String.eqb (ContentEntry.parentId e0) id) eqn:Ec.
    + subst e. cbn [ContentEntry.parentType ContentEntry.parentId].
      apply andb_true_iff in Ec as [Ep _].
      destruct (ContentEntry.parentType e0); [exact Hinbox|discriminate].
    + subst e. destruct (ContentEntry.parentType e0) eqn:Ep.
      * apply Hkeep; [|assumption]. cbn in Ec. now apply String.eqb_neq.
      * apply taskExists_In. rewrite Hids. now apply taskExists_In.
  - unfold deleteProject in E.
    destruct (String.eqb id INBOX_PROJECT_ID); [injection E as <-; exact Hok|].
    destruct (negb (projectExists db id)); [injection E as <-; exact Hok|discriminate].
Qed.

Lemma deleteTask_content_refs id db :
  content_refs_ok db -> content_refs_ok (fst (deleteTask id db)).
Proof.
  intros Hok. unfold deleteTask.
  destruct (find (has_id id) (tasks db)) as [task|]; [|exact Hok].
  cbn [fst]. intros e He.
  cbn [content_entries insertActivity set_tasks set_content_entries] in He.
  unfold delete_where in He. apply filter_In in He as [He Hc].
  specialize (Hok e He). apply negb_true_iff in Hc.
  destruct (ContentEntry.parentType e) eqn:Ep.
  - exact Hok.
  - cbn in Hc. apply String.eqb_neq in Hc.
    apply taskExists_In. cbn [tasks insertActivity set_tasks set_content_entries].
    rewrite StoreFacts.renumber_frame by reflexivity.
    apply taskExists_In in Hok. apply in_map_iff in Hok as [t [Hid Ht]].
    apply in_map_iff. exists t. split; [assumption|].
    unfold delete_where. apply filter_In. split; [assumption|].
    apply negb_true_iff. unfold has_id. apply String.eqb_neq. congruence.
Qed.

Lemma ensureInboxProject_content_refs ts db :
  content_refs_ok db -> content_refs_ok (ensureInboxProject ts db).
Proof.
  apply content_refs_mono.
  - rewrite ensureInboxProject_content. apply incl_refl.
  - intros p. apply StoreFacts.ensureInboxProject_mono.
  - rewrite StoreFacts.ensureInboxProject_tasks. apply incl_refl.
Qed.

Lemma createProject_content_refs newId ts input db :
  content_refs_ok db -> content_refs_ok (fst (createProject newId ts input db)).
Proof.
  apply content_refs_mono; [apply incl_refl| |apply incl_refl].
  intros p Hp. unfold projectExists in *. cbn. rewrite existsb_app, Hp. reflexivity.
Qed.

Lemma updateProject_content_refs ts id patch db :
  content_refs_ok db -> content_refs_ok (fst (updateProject ts id patch db)).
Proof.
  apply content_refs_mono.
  - unfold updateProject.
    destruct (find (fun p => String.eqb (Project.id p) id) (projects db)); apply incl_refl.
  - intros p Hp. apply StoreFacts.projectExists_In. rewrite StoreFacts.updateProject_ids.
    now apply StoreFacts.projectExists_In.
  - rewrite StoreFacts.updateProject_tasks. apply incl_refl.
Qed.

Lemma createTask_content_refs env input db :
  content_refs_ok db -> content_refs_ok (fst (createTask env input db)).
Proof.
  apply content_refs_mono.
  - rewrite createTask_content. apply incl_refl.
  - apply (StoreFacts.createTask_projectId env input db).
  - rewrite StoreFacts.createTask_tasks, map_app. now apply incl_appl, incl_refl.
Qed.

Lemma updateTask_content_refs `{JsDate} env id patch db :
  content_refs_ok db -> content_refs_ok (fst (updateTask env id patch db)).
Proof.
  apply content_refs_mono.
  - rewrite (proj1 (updateTask_content_ids env id patch db)). apply incl_refl.
  - intros p. apply StoreFacts.updateTask_mono.
  - apply (updateTask_content_ids env id patch db).
Qed.

Lemma reorder_content_refs ts input db :
  content_refs_ok db -> content_refs_ok (fst (reorderTasksInLane ts input db)).
Proof.
  apply content_refs_mono.
  - unfold reorderTasksInLane. destruct (reorderAccepted input db); apply incl_refl.
  - intros p Hp. unfold reorderTasksInLane. now destruct (reorderAccepted input db).
  - rewrite StoreFacts.reorder_ids. apply incl_refl.
Qed.

(** X11. No operation on projects or tasks leaves a content entry
    dangling: when every content entry hangs off an existing project or
    task, it still does after any of them.  [deleteTask] removes the
    entries of the task it deletes and [deleteProject] hands those of the
    project over to the Inbox. *)
Theorem content_refs_preserved `{JsDate} (op : Op) (db : Db) :
  content_refs_ok db -> content_refs_ok (exec op db).
Proof.
  destruct op; cbn [exec].
  - apply ensureInboxProject_content_refs.
  - apply createProject_content_refs.
  - apply updateProject_content_refs.
  - apply deleteProject_content_refs.
  - apply createTask_content_refs.
  - apply updateTask_content_refs.
  - apply reorder_content_refs.
  - apply deleteTask_content_refs.
Qed.

End StoreExtras.

(** * The dashboard summary *)
Module DashboardExtras.
Import Sql Store LaneSpec Dashboard.
Local Open Scope string_scope.

Lemma count_fold `{JsDate} today since tasks : forall acc,
  fold_left (count today since) tasks acc
  = DashboardSummary.mk
      (DashboardSummary.overdue acc + List.length (filter (isOverdue today) tasks))
      (DashboardSummary.dueToday acc + List.length (filter (isDueToday today) tasks))
      (DashboardSummary.blocked acc + List.length (lane blocked tasks))
      (DashboardSummary.completedThisWeek acc
       + List.length (filter (isCompletedSince since) tasks)).
Proof.
  induction tasks as [|task tasks IH]; intros acc.
  - destruct acc. cbn. now rewrite !Nat.add_0_r.
  - cbn [fold_left]. rewrite IH. clear IH.
    unfold count, lane, isOverdue, isDueToday, isCompletedSince, isOpenWithDue,
      hasCompletedAt, dueDay, in_lane.
    cbn [filter].
    destruct (Task.dueDate task) as [dueDate|];
      destruct (Task.completedAt task) as [completedAt|];
      cbn [DashboardSummary.overdue DashboardSummary.dueToday DashboardSummary.blocked
             DashboardSummary.completedThisWeek andb];
      repeat match goal with
             | |- context [if ?c then _ else _] => destruct c eqn:?; cbn [andb negb List.length]
             | |- context [match ?c with Some _ => _ | None => _ end] => destruct c eqn:?
             end;
      cbn [DashboardSummary.overdue DashboardSummary.dueToday DashboardSummary.blocked
             DashboardSummary.completedThisWeek andb negb List.length] in *;
      try discriminate; f_equal; lia.
Qed.

Lemma ltb_not_eqb a b : String.ltb a b = true -> String.eqb a b = false.
Proof.
  unfold String.ltb. intros Hlt. apply String.eqb_neq. intros ->.
  assert (Hrefl : String.compare b b = Eq).
  { pose proof (String.compare_antisym b b) as Ha. destruct (String.compare b b); try reflexivity;
      discriminate. }
  now rewrite Hrefl in Hlt.
Qed.

Lemma disjoint_counts {A : Type} (p q r : A -> bool) l :
  (forall x, p x = true -> r x = true) ->
  (forall x, q x = true -> r x = true) ->
  (forall x, p x = true -> q x = false) ->
  (List.length (filter p l) + List.length (filter q l) <= List.length (filter r l))%nat.
Proof.
  intros Hp Hq Hpq. induction l as [|x l IH]; cbn [filter List.length]; [lia|].
  specialize (Hp x). specialize (Hq x). specialize (Hpq x).
  destruct (p x), (q x), (r x); cbn [List.length];
    try (specialize (Hp eq_refl)); try (specialize (Hq eq_refl));
    try (specialize (Hpq eq_refl)); try discriminate; lia.
Qed.

Lemma filter_length_incl {A : Type} (p r : A -> bool) l :
  (forall x, p x = true -> r x = true) ->
  (List.length (filter p l) <= List.length (filter r l))%nat.
Proof.
  intros Hp. induction l as [|x l IH]; cbn [filter List.length]; [lia|].
  specialize (Hp x). destruct (p x), (r x); cbn [List.length];
    try (specialize (Hp eq_refl)); try discriminate; lia.
Qed.

Lemma filter_length_perm {A : Type} (p : A -> bool) l l' :
  Permutation l l' -> List.length (filter p l) = List.length (filter p l').
Proof.
  induction 1 as [|x l l' _ IH|x y l|l l' l'' _ IH1 _ IH2]; cbn [filter].
  - reflexivity.
  - destruct (p x); cbn [List.length]; lia.
  - destruct (p x), (p y); reflexivity.
  - lia.
Qed.

Lemma summary_perm `{JsDate} now l l' :
  Permutation l l' -> buildDashboardSummary now l' = buildDashboardSummary now l.
Proof.
  intros Hp. unfold buildDashboardSummary. rewrite !count_fold. unfold lane.
  now rewrite !(filter_length_perm _ _ _ Hp).
Qed.

(** X19. Each counter of the dashboard summary is the number of tasks that
    meet its test, whatever the order of the tasks: [blocked] is the size
    of the blocked lane; a task is counted as overdue or as due today only
    if it has a due date and is not done, and never as both;
    [completedThisWeek] counts only tasks with a completion time.  The
    summary of the route, computed from the sorted listing, is that of the
    table. *)
Theorem dashboard_counts `{JsDate} (now : Z) (db : Db) :
  let s := buildDashboardSummary now (tasks db) in
  let today := substring 0 10 (toISOString now) in
  DashboardSummary.blocked s = List.length (lane blocked (tasks db))
  /\ DashboardSummary.overdue s = List.length (filter (isOverdue today) (tasks db))
  /\ DashboardSummary.dueToday s = List.length (filter (isDueToday today) (tasks db))
  /\ (DashboardSummary.overdue s + DashboardSummary.dueToday s
      <= List.length (filter isOpenWithDue (tasks db)))%nat
  /\ (DashboardSummary.completedThisWeek s
      <= List.length (filter hasCompletedAt (tasks db)))%nat
  /\ summaryRoute now db = s
  /\ (forall tasks', Permutation (tasks db) tasks' -> buildDashboardSummary now tasks' = s).
Proof.
  cbv zeta. split; [|split; [|split; [|split; [|split; [|split]]]]].
  - unfold buildDashboardSummary. now rewrite count_fold.
  - unfold buildDashboardSummary. now rewrite count_fold.
  - unfold buildDashboardSummary. now rewrite count_fold.
  - unfold buildDashboardSummary. rewrite count_fold.
    cbn [DashboardSummary.overdue DashboardSummary.dueToday Nat.add].
    apply disjoint_counts.
    + intros x Hx. unfold isOverdue in Hx. now apply andb_true_iff in Hx as [Hx _].
    + intros x Hx. unfold isDueToday in Hx. now apply andb_true_iff in Hx as [Hx _].
    + intros x Hx. unfold isOverdue in Hx. apply andb_true_iff in Hx as [_ Hx].
      unfold isDueToday. rewrite (ltb_not_eqb _ _ Hx). apply andb_false_r.
  - unfold buildDashboardSummary. rewrite count_fold.
    cbn [DashboardSummary.completedThisWeek Nat.add].
    apply filter_length_incl. intros x Hx. unfold isCompletedSince in Hx.
    now apply andb_true_iff in Hx as [Hx _].
  - unfold summaryRoute, listTasks. apply summary_perm.
    apply Permutation_sym, LaneFacts.order_by_perm.
  - intros tasks' Hp. now apply summary_perm.
Qed.

End DashboardExtras.

(** * Further properties of the import pipeline *)
Module ImportExtras.
Import Imports MatchSpec TextSpec.
Local Open Scope string_scope.

(** ** Text *)

Lemma chars_str l : Js.chars (Js.str l) = l.
Proof. apply list_ascii_of_string_of_list_ascii. Qed.

Lemma str_chars s : Js.str (Js.chars s) = s.
Proof. apply string_of_list_ascii_of_string. Qed.

Lemma trimStart_solid l : starts_solid (Js.trimStartChars l).
Proof.
  induction l as [|c l IH]; simpl; [exact I|].
  destruct (Js.isSpace c) eqn:E; [exact IH|exact E].
Qed.

Lemma trimStart_fix l : starts_solid l -> Js.trimStartChars l = l.
Proof. destruct l as [|c l]; simpl; [reflexivity|]. now intros ->. Qed.

Lemma trimStart_suffix l : exists p, l = (p ++ Js.trimStartChars l)%list.
Proof.
  induction l as [|c l [p IH]]; [now exists []|]. simpl.
  destruct (Js.isSpace c).
  - exists (c :: p). simpl. now rewrite <- IH.
  - now exists [].
Qed.

Lemma trimEnd_prefix l : exists s, l = (rev (Js.trimStartChars (rev l)) ++ s)%list.
Proof.
  destruct (trimStart_suffix (rev l)) as [p Hp]. exists (rev p).
  rewrite <- rev_app_distr, <- Hp. now rewrite rev_involutive.
Qed.

Lemma starts_solid_prefix l s : starts_solid (l ++ s) -> starts_solid l.
Proof. destruct l; [intros; exact I|exact (fun H => H)]. Qed.

Lemma trimChars_solid l : starts_solid (Js.trimChars l).
Proof.
  unfold Js.trimChars. destruct (trimEnd_prefix (Js.trimStartChars l)) as [s Hs].
  apply (starts_solid_prefix _ s). rewrite <- Hs. apply trimStart_solid.
Qed.

Lemma trimChars_idem l : Js.trimChars (Js.trimChars l) = Js.trimChars l.
Proof.
  unfold Js.trimChars at 1. rewrite (trimStart_fix _ (trimChars_solid l)).
  unfold Js.trimChars. rewrite rev_involutive.
  now rewrite (trimStart_fix _ (trimStart_solid _)).
Qed.

Lemma trim_idem s : Js.trim (Js.trim s) = Js.trim s.
Proof. unfold Js.trim. now rewrite chars_str, trimChars_idem. Qed.

Lemma tidy_weaken l : tidy true l = true -> tidy false l = true.
Proof.
  destruct l as [|c l]; simpl; [reflexivity|].
  destruct (Js.isSpace c); [|exact (fun H => H)]. simpl. discriminate.
Qed.

Lemma tidy_suffix p : forall b l, tidy b (p ++ l) = true -> tidy false l = true.
Proof.
  induction p as [|c p IH]; intros b l H.
  - destruct b; [now apply tidy_weaken|exact H].
  - simpl in H. destruct (Js.isSpace c).
    + apply andb_true_iff in H as [_ H]. now apply (IH true).
    + apply andb_true_iff in H as [_ H]. now apply (IH false).
Qed.

Lemma tidy_prefix l s : forall b, tidy b (l ++ s) = true -> tidy b l = true.
Proof.
  induction l as [|c l IH]; intros b H; [reflexivity|].
  simpl in *. destruct (Js.isSpace c).
  - apply andb_true_iff in H as [H1 H]. rewrite H1. now apply IH.
  - apply andb_true_iff in H as [H1 H]. rewrite H1. now apply IH.
Qed.

Lemma tidy_trimChars l : tidy false l = true -> tidy false (Js.trimChars l) = true.
Proof.
  intros H. unfold Js.trimChars.
  destruct (trimStart_suffix l) as [p Hp]. rewrite Hp in H. apply tidy_suffix in H.
  destruct (trimEnd_prefix (Js.trimStartChars l)) as [s Hs]. rewrite Hs in H.
  now apply tidy_prefix in H.
Qed.

Lemma blank_space c :
  Js.isSpace (if Js.isLowerAlnum c || Js.isSpace c then c else " "%char) = Js.isSpace c
  \/ (Js.isLowerAlnum c || Js.isSpace c = false).
Proof. destruct (Js.isLowerAlnum c || Js.isSpace c); [now left|now right]. Qed.

Lemma tidy_blank_cons b l :
  tidy true (Js.collapseSpaces true l) = true ->
  tidy b (if b then Js.collapseSpaces true l else " "%char :: Js.collapseSpaces true l) = true.
Proof.
  intros H. destruct b; [exact H|].
  cbn [tidy]. change (Js.isSpace " ") with true. cbv iota.
  rewrite Ascii.eqb_refl. exact H.
Qed.

Lemma tidy_collapse l : forall b,
  tidy b (Js.collapseSpaces b (Js.blankNonAlnum l)) = true.
Proof.
  induction l as [|c l IH]; intros b; [reflexivity|].
  cbn [Js.blankNonAlnum map Js.collapseSpaces].
  fold (Js.blankNonAlnum l).
  destruct (Js.isSpace c) eqn:Es.
  - rewrite orb_true_r, Es. apply tidy_blank_cons, IH.
  - rewrite orb_false_r. destruct (Js.isLowerAlnum c) eqn:Ea.
    + rewrite Es. cbn [tidy]. rewrite Es, Ea. apply IH.
    + change (Js.isSpace " ") with true. cbv iota. apply tidy_blank_cons, IH.
Qed.

Lemma lowerAlnum_lower c : Js.isLowerAlnum c = true -> Js.lowerChar c = c.
Proof.
  unfold Js.isLowerAlnum, Js.lowerChar. intros H.
  destruct ((65 <=? Js.code c)%nat && (Js.code c <=? 90)%nat) eqn:E; [|reflexivity].
  exfalso. apply andb_true_iff in E as [E1 E2].
  apply Nat.leb_le in E1, E2.
  apply orb_true_iff in H as [H|H]; apply andb_true_iff in H as [H1 H2];
    apply Nat.leb_le in H1, H2; lia.
Qed.

Lemma tidy_fix l : forall b,
  tidy b l = true ->
  map Js.lowerChar l = l /\ Js.blankNonAlnum l = l /\ Js.collapseSpaces false l = l.
Proof.
  induction l as [|c l IH]; intros b H; [now repeat split|].
  cbn [tidy] in H. cbn [map Js.blankNonAlnum Js.collapseSpaces]. fold (Js.blankNonAlnum l).
  destruct (Js.isSpace c) eqn:Es.
  - apply andb_true_iff in H as [H Ht]. apply andb_true_iff in H as [_ Hc].
    apply Ascii.eqb_eq in Hc. subst c.
    destruct (IH true Ht) as (H1 & H2 & H3).
    rewrite H1, H2, orb_true_r. repeat split; try reflexivity.
    f_equal. destruct l as [|d l]; [reflexivity|].
    cbn [tidy] in Ht. cbn [Js.collapseSpaces] in *.
    destruct (Js.isSpace d); [discriminate|exact H3].
  - apply andb_true_iff in H as [Ha Ht].
    destruct (IH false Ht) as (H1 & H2 & H3).
    rewrite H1, H2, H3, Ha, (lowerAlnum_lower c Ha). now repeat split.
Qed.

(** X12. Normalizing is idempotent: a normalized title is its own
    normalized form, so the exact-match comparison of [findDuplicate]
    treats a title and its normalized form alike. *)
Theorem normalize_idempotent (value : string) :
  normalize (normalize value) = normalize value.
Proof.
  unfold normalize at 1.
  set (out := Js.trimChars (Js.collapseSpaces false
                (Js.blankNonAlnum (Js.chars (Js.toLowerCase value))))).
  assert (Hout : normalize value = Js.str out) by reflexivity.
  assert (Ht : tidy false out = true) by apply tidy_trimChars, tidy_collapse.
  destruct (tidy_fix out false Ht) as (H1 & H2 & H3).
  rewrite Hout. unfold Js.toLowerCase. rewrite !chars_str, H1, H2, H3.
  unfold out. now rewrite trimChars_idem.
Qed.

Lemma trimmed_cells (l : list (list ascii)) :
  forall cell, In cell (map Js.trim (map Js.str l)) -> Js.trim cell = cell.
Proof.
  intros cell H. apply in_map_iff in H as [x [<- _]]. apply trim_idem.
Qed.

Lemma splitChars_nonempty sep l : Js.splitChars sep l <> [].
Proof.
  destruct l as [|c l]; simpl; [discriminate|].
  destruct (Ascii.eqb c sep); [discriminate|].
  destruct (Js.splitChars sep l); discriminate.
Qed.

(** X13. The header and every cell [parseCsv] returns are trimmed, every
    row has at least one cell, and there is a row for each non-blank line
    after the first one: the header is empty exactly when every line of
    the text is blank, and then there are no rows. *)
Theorem parseCsv_shape (text : string) :
  let headers := fst (parseCsv text) in
  let rows := snd (parseCsv text) in
  let lines := filter (fun line => negb (String.eqb line "")) (map Js.trim (Js.splitLines text)) in
  (forall h, In h headers -> Js.trim h = h)
  /\ (forall row, In row rows -> row <> [] /\ forall cell, In cell row -> Js.trim cell = cell)
  /\ List.length rows = pred (List.length lines)
  /\ (headers = [] <-> forall line, In line (Js.splitLines text) -> Js.trim line = "")
  /\ (headers = [] -> rows = []).
Proof.
  cbv zeta. unfold parseCsv.
  remember (filter (fun line => negb (String.eqb line ""))
              (map Js.trim (Js.splitLines text))) as lines eqn:Hlines.
  assert (Hblank : lines = [] <-> forall line, In line (Js.splitLines text) -> Js.trim line = "").
  { split.
    - intros Hnil line Hl.
      destruct (String.eqb (Js.trim line) "") eqn:E; [now apply String.eqb_eq|].
      exfalso. assert (Hin : In (Js.trim line) lines).
      { rewrite Hlines. apply filter_In. split; [now apply in_map|now rewrite E]. }
      rewrite Hnil in Hin. exact Hin.
    - intros Hall. destruct lines as [|x rest]; [reflexivity|exfalso].
      assert (Hin : In x (x :: rest)) by now left.
      rewrite Hlines in Hin.
      apply filter_In in Hin as [Hin Hx]. apply in_map_iff in Hin as [line [<- Hl]].
      rewrite (Hall line Hl) in Hx. discriminate. }
  clear Hlines. destruct lines as [|first rest]; cbn [fst snd List.length pred].
  - split; [intros ? []|]. split; [intros ? []|]. split; [reflexivity|].
    split; [|reflexivity]. split; [intros _; now apply Hblank|reflexivity].
  - assert (Hne : forall line, map Js.trim (Js.split "," line) <> []).
    { intros line Hnil. unfold Js.split in Hnil. apply map_eq_nil, map_eq_nil in Hnil.
      now apply splitChars_nonempty in Hnil. }
    split; [unfold Js.split; apply trimmed_cells|]. split.
    + intros row Hrow. apply in_map_iff in Hrow as [line [<- _]].
      split; [apply Hne|unfold Js.split; apply trimmed_cells].
    + split; [now rewrite length_map|]. split.
      * split; [intros Hnil; now apply Hne in Hnil|].
        intros Hall. apply Hblank in Hall. discriminate.
      * intros Hnil. now apply Hne in Hnil.
Qed.

(** ** Scores *)

Lemma overlap_sym A B : NoDup A -> NoDup B -> overlapOf A B = overlapOf B A.
Proof.
  intros HA HB. unfold overlapOf. apply Permutation_length, NoDup_Permutation.
  - now apply NoDup_filter.
  - now apply NoDup_filter.
  - intros x. rewrite !filter_In, !LaneFacts.setHas_In. tauto.
Qed.

(** X14. The similarity does not depend on the order of its arguments. *)
Theorem diceSimilarity_sym (a b : string) : diceSimilarity a b = diceSimilarity b a.
Proof.
  unfold diceSimilarity, diceOf.
  rewrite (overlap_sym _ _ (ImportFacts.bigrams_NoDup a) (ImportFacts.bigrams_NoDup b)).
  now rewrite orb_comm, Nat.add_comm.
Qed.

Lemma round_half_even_nonneg n d : (0 <= n -> 0 < d -> 0 <= JsNumber.round_half_even n d)%Z.
Proof.
  intros Hn Hd. unfold JsNumber.round_half_even.
  pose proof (Z.div_pos n d Hn Hd).
  destruct (_ <? _)%Z; [assumption|].
  destruct (_ <? _)%Z; [lia|]. destruct (Z.even _); lia.
Qed.

Lemma div_nonneg (p q : Z) : (0 <= p)%Z -> (0 < q)%Z -> (0 <= JsNumber.div p q)%Q.
Proof.
  intros Hp Hq. unfold JsNumber.div.
  destruct (p =? 0)%Z; [apply Qle_refl|].
  unfold Qle. simpl. rewrite Z.mul_1_r.
  apply round_half_even_nonneg; [|assumption].
  apply Z.mul_nonneg_nonneg; [assumption|apply Z.pow_nonneg; lia].
Qed.

Lemma dice_range a b : (0 <= diceSimilarity a b <= 1)%Q.
Proof.
  unfold diceSimilarity, diceOf.
  pose proof (ImportFacts.bigrams_nonempty a) as Ha.
  pose proof (ImportFacts.bigrams_nonempty b) as Hb.
  pose proof (ImportFacts.bigrams_bounded a) as Ha'.
  pose proof (ImportFacts.bigrams_bounded b) as Hb'.
  pose proof (ImportFacts.overlap_le_left (bigrams a) (bigrams b)) as Hl.
  pose proof (ImportFacts.overlap_le_right (bigrams a) (bigrams b)
                (ImportFacts.bigrams_NoDup a)) as Hr.
  destruct (Nat.eqb_spec (List.length (bigrams a)) 0) as [|_]; [lia|].
  destruct (Nat.eqb_spec (List.length (bigrams b)) 0) as [|_]; [lia|].
  simpl orb. cbv iota.
  set (p := Z.of_nat (2 * overlapOf (bigrams a) (bigrams b))).
  set (q := Z.of_nat (List.length (bigrams a) + List.length (bigrams b))).
  assert (Hpq : (0 <= p <= q)%Z) by (unfold p, q; lia).
  assert (Hq : (0 < q)%Z) by (unfold q; lia).
  assert (H53 : (2 ^ 53 = 9007199254740992)%Z) by reflexivity.
  assert (Hq53 : (q < 2 ^ 53)%Z) by (rewrite H53; unfold q; lia).
  split; [apply div_nonneg; lia|].
  destruct (Z.eq_dec p q) as [->|Hne].
  - rewrite NumberFacts.div_self by assumption. apply Qle_refl.
  - apply Qlt_le_weak, NumberFacts.div_lt_one; lia.
Qed.

(** X15. The similarity of two strings lies between 0 and 1, and the
    similarity of a string with itself is 1. *)
Theorem diceSimilarity_range (a b : string) :
  (0 <= diceSimilarity a b <= 1)%Q /\ (diceSimilarity a a == 1)%Q.
Proof.
  split; [apply dice_range|]. apply ImportFacts.dice_one_iff. tauto.
Qed.

(** ** Duplicates *)

Lemma sourceType_beq_eq a b : SourceType_beq a b = true <-> a = b.
Proof. destruct a, b; simpl; split; congruence. Qed.

Lemma scopedPool_task db source c :
  In c (scopedPool db source entity_task) ->
  exists t, In t (Store.tasks db) /\ Task.source t = source
            /\ Task.id t = fst c /\ Task.title t = snd c.
Proof.
  unfold scopedPool. intros H. apply in_map_iff in H as [t [<- H]].
  apply filter_In in H as [H Hs]. exists t. repeat split.
  - unfold Store.listTasks in H.
    exact (Permutation_in _ (LaneFacts.order_by_perm _ _) H).
  - now apply sourceType_beq_eq.
Qed.

Lemma scopedPool_project db source c :
  In c (scopedPool db source entity_project) ->
  exists p, In p (Store.projects db) /\ Project.source p = source
            /\ Project.id p = fst c /\ Project.title p = snd c.
Proof.
  unfold scopedPool. intros H. apply in_map_iff in H as [t [<- H]].
  apply filter_In in H as [H Hs]. exists t. repeat split.
  - unfold Store.listProjects in H.
    exact (Permutation_in _ (LaneFacts.order_by_perm _ _) H).
  - now apply sourceType_beq_eq.
Qed.

Lemma threshold_hundredths s :
  JsNumber.ge s THRESHOLD = true -> (s <= 1)%Q -> (72 <= JsNumber.toFixed2 s <= 100)%Z.
Proof.
  unfold JsNumber.ge, JsNumber.toFixed2. intros Hge Hle. apply Qle_bool_iff in Hge. split.
  - change 72%Z with (Qfloor (100 * THRESHOLD + (1 # 2))).
    apply Qfloor_resp_le. apply Qplus_le_l. apply Qmult_le_l; [reflexivity|assumption].
  - change 100%Z with (Qfloor (100 * 1 + (1 # 2))).
    apply Qfloor_resp_le. apply Qplus_le_l. apply Qmult_le_l; [reflexivity|assumption].
Qed.

Lemma findAmong_inv entityType title pool m :
  findAmong entityType title pool = Some m ->
  ImportDuplicateMatch.entityType m = entityType
  /\ In (ImportDuplicateMatch.id m, ImportDuplicateMatch.title m) pool
  /\ match ImportDuplicateMatch.kind m with
     | kind_exact =>
         normalize (ImportDuplicateMatch.title m) = normalize title
         /\ ImportDuplicateMatch.score m = 1%Q
     | kind_fuzzy =>
         normalize (ImportDuplicateMatch.title m) <> normalize title
         /\ ImportDuplicateMatch.score m
            = JsNumber.roundTo2 (diceSimilarity (ImportDuplicateMatch.title m) title)
         /\ (72 <= JsNumber.toFixed2 (diceSimilarity (ImportDuplicateMatch.title m) title)
             <= 100)%Z
     end.
Proof.
  unfold findAmong.
  destruct (find _ pool) as [exact|] eqn:Hfind.
  - intros [= <-]. cbn. apply find_some in Hfind as [Hin Heq].
    apply String.eqb_eq in Heq. rewrite <- surjective_pairing. now repeat split.
  - pose proof (ImportFacts.bestMatch_spec title pool) as Hbest.
    destruct (bestMatch title pool) as [[item score]|]; [|discriminate].
    destruct Hbest as (Hin & Hscore & _).
    destruct (JsNumber.ge score THRESHOLD) eqn:Hge; [|discriminate].
    intros [= <-]. cbn. rewrite <- surjective_pairing. unfold scoreOf in Hscore.
    subst score. split; [reflexivity|]. split; [assumption|]. split.
    + pose proof (find_none _ _ Hfind item Hin) as Hne. cbn in Hne.
      now apply String.eqb_neq.
    + split; [reflexivity|]. apply (threshold_hundredths _ Hge). apply dice_range.
Qed.

(** X16. A duplicate match always points at a stored record of the kind
    and of the source searched, with that record's id and title.  An exact
    match has the input's normalized title and the score 1; a fuzzy match
    has a different normalized title and a score of between 72 and 100
    hundredths.  With no record of that source there is no match. *)
Theorem findDuplicate_provenance (db : Store.Db) (source : SourceType)
    (entityType : ImportEntityType) (title : string) :
  (scopedPool db source entityType = [] -> findDuplicate db source entityType title = None)
  /\ forall m, findDuplicate db source entityType title = Some m ->
     ImportDuplicateMatch.entityType m = entityType
     /\ match entityType with
        | entity_task =>
            exists t, In t (Store.tasks db) /\ Task.source t = source
                      /\ Task.id t = ImportDuplicateMatch.id m
                      /\ Task.title t = ImportDuplicateMatch.title m
        | entity_project =>
            exists p, In p (Store.projects db) /\ Project.source p = source
                      /\ Project.id p = ImportDuplicateMatch.id m
                      /\ Project.title p = ImportDuplicateMatch.title m
        end
     /\ match ImportDuplicateMatch.kind m with
        | kind_exact =>
            normalize (ImportDuplicateMatch.title m) = normalize title
            /\ ImportDuplicateMatch.score m = 1%Q
        | kind_fuzzy =>
            normalize (ImportDuplicateMatch.title m) <> normalize title
            /\ ImportDuplicateMatch.score m
               = JsNumber.roundTo2 (diceSimilarity (ImportDuplicateMatch.title m) title)
            /\ (72 <= JsNumber.toFixed2 (diceSimilarity (ImportDuplicateMatch.title m) title)
                <= 100)%Z
        end.
Proof.
  unfold findDuplicate. split.
  - intros ->. reflexivity.
  - intros m Hm. apply findAmong_inv in Hm as (He & Hin & Hk).
    split; [assumption|]. split; [|assumption].
    destruct entityType.
    + now apply scopedPool_task in Hin.
    + now apply scopedPool_project in Hin.
Qed.

(** ** Preview *)

Lemma forEachIndex_push {A B : Type} (g : A -> nat -> B) (l : list A) :
  forall i acc,
    Js.forEachIndex (fun x index acc => (acc ++ [g x index])%list) l i acc
    = (acc ++ map (fun kx => g (snd kx) (fst kx)) (combine (seq i (List.length l)) l))%list.
Proof.
  induction l as [|x l IH]; intros i acc; simpl; [now rewrite app_nil_r|].
  rewrite IH, <- app_assoc. reflexivity.
Qed.

Lemma nth_error_indexed {A B : Type} (g : A -> nat -> B) (l : list A) :
  forall i k y,
    nth_error (map (fun kx => g (snd kx) (fst kx)) (combine (seq i (List.length l)) l)) k = Some y ->
    exists x, nth_error l k = Some x /\ y = g x (i + k)%nat.
Proof.
  induction l as [|x l IH]; intros i k y H; [destruct k; discriminate|].
  destruct k as [|k]; simpl in H.
  - injection H as <-. exists x. split; [reflexivity|]. now rewrite Nat.add_0_r.
  - apply IH in H as [x' [Hx ->]]. exists x'. split; [assumption|].
    f_equal. lia.
Qed.

Lemma previewRow_shape db type headers row index :
  let r := previewRow db type headers row index in
  ImportPreviewRow.line r = (index + 2)%nat
  /\ (truthy (ImportPreviewRow.error r) = true ->
      ImportPreviewRow.error r = Some "Missing required title"
      /\ ImportPreviewRow.suggestedAction r = ImportAction.skip
      /\ ImportPreviewRow.duplicateMatch r = None)
  /\ (truthy (ImportPreviewRow.error r) = false ->
      ImportPreviewRow.error r = None
      /\ ImportPreviewRow.suggestedAction r
         = suggestedAction (ImportPreviewRow.duplicateMatch r)).
Proof.
  cbv zeta. unfold previewRow.
  destruct (String.eqb _ ""); cbn; repeat split; try discriminate; reflexivity.
Qed.

(** X17. The counters of a preview add up to its rows: [invalidRows] counts
    the rows carrying an error and [validRows] the others.  When the header
    has a [title] column there is one preview row for each data row of the
    text, in order, the k-th (from 0) reported at line k + 2; a row with an
    error is suggested to be skipped and has no duplicate match, and any
    other row's suggestion is the one its duplicate match calls for. *)
Theorem previewImport_rows (db : Store.Db) (payload : ImportPreviewRequest.t) :
  let parsed := parseCsv (ImportPreviewRequest.text payload) in
  let r := previewImport db payload in
  let failed row := truthy (ImportPreviewRow.error row) in
  ImportPreviewResponse.headers r = fst parsed
  /\ ImportPreviewResponse.invalidRows r
     = List.length (filter failed (ImportPreviewResponse.rows r))
  /\ (ImportPreviewResponse.validRows r + ImportPreviewResponse.invalidRows r
      = List.length (ImportPreviewResponse.rows r))%nat
  /\ (In "title" (fst parsed) ->
      List.length (ImportPreviewResponse.rows r) = List.length (snd parsed)
      /\ forall k row, nth_error (ImportPreviewResponse.rows r) k = Some row ->
           ImportPreviewRow.line row = (k + 2)%nat
           /\ (failed row = true ->
               ImportPreviewRow.suggestedAction row = ImportAction.skip
               /\ ImportPreviewRow.duplicateMatch row = None)
           /\ (failed row = false ->
               ImportPreviewRow.suggestedAction row
               = suggestedAction (ImportPreviewRow.duplicateMatch row))).
Proof.
  cbv zeta. unfold previewImport.
  destruct (parseCsv (ImportPreviewRequest.text payload)) as [headers rows]. cbn [fst snd].
  assert (Hreq : requiredHeadersByType (ImportPreviewRequest.type payload) = ["title"])
    by now destruct (ImportPreviewRequest.type payload).
  rewrite Hreq. cbn [filter].
  destruct (existsb (String.eqb "title") headers) eqn:Hex; cbn [negb List.length Nat.ltb Nat.leb].
  - rewrite forEachIndex_push. cbn [app ImportPreviewResponse.headers
      ImportPreviewResponse.rows ImportPreviewResponse.validRows
      ImportPreviewResponse.invalidRows].
    set (parsedRows := map _ (combine _ rows)).
    split; [reflexivity|]. split; [reflexivity|]. split.
    + pose proof (filter_length_le (fun row => truthy (ImportPreviewRow.error row)) parsedRows).
      lia.
    + intros _. split.
      * unfold parsedRows. rewrite length_map, length_combine, length_seq. lia.
      * intros k row Hk. unfold parsedRows in Hk.
        apply nth_error_indexed in Hk as [cells [_ ->]]. cbn [Nat.add].
        pose proof (previewRow_shape db (ImportPreviewRequest.type payload) headers cells k)
          as (Hl & He & Hn).
        split; [exact Hl|]. split.
        -- intros Hf. now destruct (He Hf) as (_ & ? & ?).
        -- intros Hf. now destruct (Hn Hf).
  - cbn [filter truthy ImportPreviewRow.error ImportPreviewResponse.headers
      ImportPreviewResponse.rows ImportPreviewResponse.validRows
      ImportPreviewResponse.invalidRows].
    split; [reflexivity|]. split; [reflexivity|]. split; [reflexivity|].
    intros Hin. exfalso.
    assert (Hex' : existsb (String.eqb "title") headers = true).
    { apply existsb_exists. exists "title". split; [assumption|apply String.eqb_refl]. }
    congruence.
Qed.






End ImportExtras.

(** * Committing an import *)
Module CommitExtras.
Import Sql Store StoreSpec StoreSpec2 Content Imports Commit CommitSpec.
Local Open Scope string_scope.

Lemma forEachIndex_invariant {A S : Type} (P : S -> Prop) (f : A -> nat -> S -> S) l :
  (forall x i s, P s -> P (f x i s)) -> forall i s, P s -> P (Js.forEachIndex f l i s).
Proof.
  intros Hf. induction l as [|x l IH]; intros i s Hs; cbn [Js.forEachIndex]; [assumption|].
  apply IH, Hf, Hs.
Qed.

Lemma forEachIndex_count {A S : Type} (m : S -> nat) (f : A -> nat -> S -> S) l :
  (forall x i s, m (f x i s) = Datatypes.S (m s)) ->
  forall i s, m (Js.forEachIndex f l i s) = (m s + List.length l)%nat.
Proof.
  intros Hf. induction l as [|x l IH]; intros i s; cbn [Js.forEachIndex List.length]; [lia|].
  rewrite IH, Hf. lia.
Qed.

(** ** Content entries *)

Lemma find_app_first {A : Type} (p : A -> bool) l l' :
  find p (l ++ l')%list = match find p l with Some x => Some x | None => find p l' end.
Proof.
  induction l as [|x l IH]; cbn [app find]; [reflexivity|]. now destruct (p x).
Qed.

Lemma insertActivity_linked e id action db : linked db -> linked (insertActivity e id action db).
Proof. intros H. exact H. Qed.

Lemma createContentEntry_cases `{JsURL} newId input w :
  (createContentEntry newId input w = (w, None)
   /\ (match CreateContentEntryInput.parentType input with
       | parent_project => projectExists (main w) (CreateContentEntryInput.parentId input)
       | parent_task => taskExists (main w) (CreateContentEntryInput.parentId input)
       end = false
       \/ CreateContentEntryInput.entryType input <> entry_text))
  \/ (let e := ContentEntry.mk newId (CreateContentEntryInput.parentType input)
                 (CreateContentEntryInput.parentId input) in
      createContentEntry newId input w
      = (set_main
           (insertActivity act_content newId "created"
              (set_content_entries (content_entries (main w) ++ [e])%list (main w))) w,
         Some e)
      /\ match CreateContentEntryInput.parentType input with
         | parent_project => projectExists (main w) (CreateContentEntryInput.parentId input) = true
         | parent_task => taskExists (main w) (CreateContentEntryInput.parentId input) = true
         end).
Proof.
  unfold createContentEntry.
  set (pt := CreateContentEntryInput.parentType input).
  set (pid := CreateContentEntryInput.parentId input).
  destruct (match pt with
            | parent_project => negb (projectExists (main w) pid)
            | parent_task => negb (existsb (has_id pid) (tasks (main w)))
            end) eqn:Eparent.
  { left. split; [reflexivity|left]. unfold taskExists.
    destruct pt; now apply negb_true_iff in Eparent. }
  destruct (match CreateContentEntryInput.entryType input with
            | entry_text => false
            | entry_url => _
            | entry_image => _
            end) eqn:Etype.
  { left. split; [reflexivity|right]. intros Ht. rewrite Ht in Etype. discriminate. }
  right. cbv zeta. split.
  - f_equal. unfold listContentEntries.
    cbn [content_entries insertActivity set_content_entries].
    rewrite filter_app, find_app_first.
    destruct (find _ (filter _ (content_entries (main w)))) as [e|] eqn:Efind.
    + apply find_some in Efind as [Hin Hid]. apply filter_In in Hin as [_ Hp].
      apply andb_true_iff in Hp as [Hp1 Hp2].
      apply String.eqb_eq in Hid, Hp2.
      destruct e as [i p q]. cbn in *. subst.
      f_equal. f_equal. now destruct p, pt.
    + cbn [filter ContentEntry.parentType ContentEntry.parentId].
      assert (Hpt : ContentParentType_beq pt pt = true) by now destruct pt.
      rewrite Hpt, String.eqb_refl. cbn [andb find ContentEntry.id].
      now rewrite String.eqb_refl.
  - unfold taskExists. destruct pt; now apply negb_false_iff in Eparent.
Qed.

(** X22. [createContentEntry] answers null and changes nothing unless the
    parent it is given exists.  When it answers an entry, that entry has
    the given id and parent and is the one row added to [content_entries],
    projects and tasks are untouched, and no content entry dangles
    afterwards if none did before; a text entry on an existing parent is
    always created.  [deleteContentEntry] removes the rows of the id and
    nothing else. *)
Theorem content_entry_effects `{JsURL} (newId : string) (input : CreateContentEntryInput.t)
    (w : Tables) :
  let parentExists :=
    match CreateContentEntryInput.parentType input with
    | parent_project => projectExists (main w) (CreateContentEntryInput.parentId input)
    | parent_task => taskExists (main w) (CreateContentEntryInput.parentId input)
    end in
  let after := fst (createContentEntry newId input w) in
  (snd (createContentEntry newId input w) = None -> after = w)
  /\ (forall e, snd (createContentEntry newId input w) = Some e ->
        parentExists = true
        /\ e = ContentEntry.mk newId (CreateContentEntryInput.parentType input)
                 (CreateContentEntryInput.parentId input)
        /\ content_entries (main after) = (content_entries (main w) ++ [e])%list
        /\ projects (main after) = projects (main w)
        /\ tasks (main after) = tasks (main w))
  /\ (parentExists = true -> CreateContentEntryInput.entryType input = entry_text ->
      snd (createContentEntry newId input w) <> None)
  /\ (content_refs_ok (main w) -> content_refs_ok (main after))
  /\ (forall id, content_refs_ok (main w) ->
        content_refs_ok (main (fst (deleteContentEntry id w)))
        /\ forall e, In e (content_entries (main (fst (deleteContentEntry id w)))) <->
                     In e (content_entries (main w)) /\ ContentEntry.id e <> id).
Proof.
  cbv zeta. split; [|split; [|split; [|split]]].
  - destruct (createContentEntry_cases newId input w) as [[E _]|[E _]]; rewrite E;
      [reflexivity|discriminate].
  - intros e He. destruct (createContentEntry_cases newId input w) as [[E _]|[E Hp]];
      rewrite E in He |- *; [discriminate|].
    injection He as <-.
    split; [destruct (CreateContentEntryInput.parentType input); exact Hp|].
    now repeat split.
  - intros Hp Ht. destruct (createContentEntry_cases newId input w) as [[_ [E|E]]|[E _]];
      [congruence|contradiction|rewrite E; discriminate].
  - intros Hok. destruct (createContentEntry_cases newId input w) as [[E _]|[E Hp]]; rewrite E;
      [exact Hok|].
    cbn [fst main set_main]. intros e He.
    cbn [content_entries insertActivity set_content_entries] in He.
    apply in_app_or in He as [He|[<-|[]]]; [exact (Hok e He)|exact Hp].
  - intros id Hok. unfold deleteContentEntry.
    destruct (find _ (content_entries (main w))) as [found|] eqn:Efind.
    + cbn [fst main set_main content_entries insertActivity set_content_entries].
      assert (Hin : forall e,
                 In e (delete_where (fun entry => String.eqb (ContentEntry.id entry) id)
                         (content_entries (main w)))
                 <-> In e (content_entries (main w)) /\ ContentEntry.id e <> id).
      { intros e. unfold delete_where. rewrite filter_In, negb_true_iff.
        now rewrite String.eqb_neq. }
      split; [|exact Hin]. intros e He.
      cbn [content_entries insertActivity set_content_entries] in He.
      apply Hin in He as [He _]. exact (Hok e He).
    + cbn [fst]. split; [exact Hok|]. intros e. split; [|tauto].
      intros He. split; [assumption|]. intros Hid.
      apply (find_none _ _ Efind) in He. rewrite Hid, String.eqb_refl in He. discriminate.
Qed.

(** ** The loop over the rows *)

Lemma commitRow_counts `{JsDate} `{JsURL} type inboxId env row st :
  let c := snd st in
  let c' := snd (commitRow type inboxId env row st) in
  (changedOf c' + ImportCommitResponse.skippedRows c'
   = Datatypes.S (changedOf c + ImportCommitResponse.skippedRows c))%nat
  /\ ImportCommitResponse.updatedContentEntries c' = ImportCommitResponse.updatedContentEntries c
  /\ match type with
     | ImportType.apple_reminders =>
         ImportCommitResponse.createdProjects c' = ImportCommitResponse.createdProjects c
         /\ ImportCommitResponse.updatedProjects c' = ImportCommitResponse.updatedProjects c
         /\ ImportCommitResponse.createdContentEntries c'
            = ImportCommitResponse.createdContentEntries c
     | ImportType.apple_notes =>
         ImportCommitResponse.createdProjects c' = ImportCommitResponse.createdProjects c
         /\ ImportCommitResponse.updatedProjects c' = ImportCommitResponse.updatedProjects c
         /\ ImportCommitResponse.createdTasks c' = ImportCommitResponse.createdTasks c
         /\ ImportCommitResponse.updatedTasks c' = ImportCommitResponse.updatedTasks c
     | ImportType.chatgpt_projects | ImportType.claude_projects =>
         ImportCommitResponse.createdTasks c' = ImportCommitResponse.createdTasks c
         /\ ImportCommitResponse.updatedTasks c' = ImportCommitResponse.updatedTasks c
         /\ ImportCommitResponse.createdContentEntries c'
            = ImportCommitResponse.createdContentEntries c
     end.
Proof.
  destruct st as [w c]. destruct c. cbv zeta. unfold commitRow, changedOf.
  destruct (negb (truthy (trimmed (getProp "title" (ImportCommitRow.values row))))
            || match ImportCommitRow.action row with
               | ImportAction.skip => true
               | _ => false
               end).
  - cbn. destruct type; repeat split; lia.
  - destruct type; unfold commitReminder, commitNote, commitProject;
      match goal with
      | |- context [match snd ?x with Some _ => _ | None => _ end] => destruct (snd x)
      end; cbn; repeat split; lia.
Qed.

Lemma commitRow_tables `{JsDate} `{JsURL} type inboxId env row st :
  content_assets (fst (commitRow type inboxId env row st)) = content_assets (fst st)
  /\ import_statuses (fst (commitRow type inboxId env row st)) = import_statuses (fst st).
Proof.
  destruct st as [w c]. unfold commitRow.
  destruct (negb (truthy (trimmed (getProp "title" (ImportCommitRow.values row))))
            || match ImportCommitRow.action row with
               | ImportAction.skip => true
               | _ => false
               end); [now split|].
  destruct type; unfold commitReminder, commitNote, commitProject.
  - destruct (snd _); now split.
  - match goal with
    | |- context [createContentEntry ?i ?x ?y] =>
        destruct (createContentEntry_cases i x y) as [[E _]|[E _]]; rewrite E
    end; now split.
  - destruct (snd _); now split.
  - destruct (snd _); now split.
Qed.

Lemma linked_updateTask `{JsDate} env id patch db :
  linked db -> linked (fst (updateTask env id patch db)).
Proof.
  intros (Hr & Hc & Hi). split; [now apply StoreFacts.updateTask_refs|].
  split; [now apply StoreExtras.updateTask_content_refs|now apply StoreFacts.updateTask_mono].
Qed.

Lemma linked_createTask env input db : linked db -> linked (fst (createTask env input db)).
Proof.
  intros (Hr & Hc & Hi). split; [now apply StoreFacts.createTask_refs|].
  split; [now apply StoreExtras.createTask_content_refs|].
  now apply (StoreFacts.createTask_projectId env input db).
Qed.

Lemma linked_updateProject ts id patch db :
  linked db -> linked (fst (updateProject ts id patch db)).
Proof.
  intros (Hr & Hc & Hi). split; [now apply StoreFacts.updateProject_refs|].
  split; [now apply StoreExtras.updateProject_content_refs|].
  apply StoreFacts.projectExists_In. rewrite StoreFacts.updateProject_ids.
  now apply StoreFacts.projectExists_In.
Qed.

Lemma linked_createProject newId ts input db :
  linked db -> linked (fst (createProject newId ts input db)).
Proof.
  intros (Hr & Hc & Hi). split; [now apply StoreFacts.createProject_refs|].
  split; [now apply StoreExtras.createProject_content_refs|].
  unfold projectExists in *. cbn. now rewrite existsb_app, Hi.
Qed.

Lemma linked_createContentEntry `{JsURL} newId input w :
  linked (main w) -> linked (main (fst (createContentEntry newId input w))).
Proof.
  intros (Hr & Hc & Hi).
  destruct (createContentEntry_cases newId input w) as [[E _]|[E Hp]]; rewrite E;
    [now repeat split|].
  cbn [fst main set_main]. split; [exact Hr|]. split; [|exact Hi].
  intros e He. cbn [content_entries insertActivity set_content_entries] in He.
  apply in_app_or in He as [He|[<-|[]]]; [exact (Hc e He)|exact Hp].
Qed.

Lemma commitRow_linked `{JsDate} `{JsURL} type inboxId env row st :
  linked (main (fst st)) -> linked (main (fst (commitRow type inboxId env row st))).
Proof.
  destruct st as [w c]. cbn [fst]. intros Hl. unfold commitRow.
  destruct (negb (truthy (trimmed (getProp "title" (ImportCommitRow.values row))))
            || match ImportCommitRow.action row with
               | ImportAction.skip => true
               | _ => false
               end); [exact Hl|].
  destruct type; unfold commitReminder, commitNote, commitProject.
  - destruct (updateTarget entity_task row) as [id|].
    + match goal with
      | |- context [updateTask ?e ?i ?p ?d] =>
          pose proof (linked_updateTask e i p d Hl) as Hu; destruct (updateTask e i p d) as [db1 r]
      end.
      cbn [fst snd] in *. destruct r; cbn [fst main set_main]; [exact Hu|].
      now apply linked_createTask.
    + cbn [fst snd main set_main]. now apply linked_createTask.
  - match goal with
    | |- context [createContentEntry ?i ?x ?y] =>
        pose proof (linked_createContentEntry i x y Hl) as Hu;
        destruct (createContentEntry i x y) as [w1 r]
    end.
    cbn [fst snd] in *. now destruct r.
  - destruct (updateTarget entity_project row) as [id|].
    + match goal with
      | |- context [updateProject ?t ?i ?p ?d] =>
          pose proof (linked_updateProject t i p d Hl) as Hu;
          destruct (updateProject t i p d) as [db1 r]
      end.
      cbn [fst snd] in *. destruct r; cbn [fst main set_main]; [exact Hu|].
      now apply linked_createProject.
    + cbn [fst snd main set_main]. now apply linked_createProject.
  - destruct (updateTarget entity_project row) as [id|].
    + match goal with
      | |- context [updateProject ?t ?i ?p ?d] =>
          pose proof (linked_updateProject t i p d Hl) as Hu;
          destruct (updateProject t i p d) as [db1 r]
      end.
      cbn [fst snd] in *. destruct r; cbn [fst main set_main]; [exact Hu|].
      now apply linked_createProject.
    + cbn [fst snd main set_main]. now apply linked_createProject.
Qed.

Lemma sourceType_beq_refl s : SourceType_beq s s = true.
Proof. now destruct s. Qed.

Lemma sourceType_beq_sym a b : SourceType_beq a b = SourceType_beq b a.
Proof. now destruct a, b. Qed.

Lemma sourceType_beq_true a b : SourceType_beq a b = true -> a = b.
Proof. destruct a, b; simpl; congruence. Qed.

Lemma bumpImportStatus_imported ts source count w s :
  importedOf s (import_statuses (bumpImportStatus ts source count w))
  = if SourceType_beq s source
    then Some (match importedOf s (import_statuses w) with
               | Some old => (old + count)%Z
               | None => count
               end)
    else importedOf s (import_statuses w).
Proof.
  unfold bumpImportStatus, importedOf. cbn [import_statuses].
  destruct (existsb _ (import_statuses w)) eqn:Ex.
  - assert (Hupd : forall rows,
               option_map ImportStatus.importedCount
                 (find (fun row => SourceType_beq (ImportStatus.source row) s)
                    (update_where (fun row => SourceType_beq (ImportStatus.source row) source)
                       (fun row => ImportStatus.mk (ImportStatus.source row)
                                     (ImportStatus.importedCount row + count) ts) rows))
               = if SourceType_beq s source
                 then option_map (fun old => (old + count)%Z)
                        (option_map ImportStatus.importedCount
                           (find (fun row => SourceType_beq (ImportStatus.source row) s) rows))
                 else option_map ImportStatus.importedCount
                        (find (fun row => SourceType_beq (ImportStatus.source row) s) rows)).
    { unfold update_where. induction rows as [|row rows IH]; cbn [map find option_map].
      - now destruct (SourceType_beq s source).
      - destruct (SourceType_beq (ImportStatus.source row) source) eqn:Er;
          cbn [ImportStatus.source].
        + destruct (SourceType_beq (ImportStatus.source row) s) eqn:Es.
          * cbn [option_map ImportStatus.importedCount].
            apply sourceType_beq_true in Er, Es. subst. now rewrite sourceType_beq_refl.
          * exact IH.
        + destruct (SourceType_beq (ImportStatus.source row) s) eqn:Es; [|exact IH].
          cbn [option_map]. apply sourceType_beq_true in Es. subst s. now rewrite Er. }
    rewrite Hupd. destruct (SourceType_beq s source) eqn:E; [|reflexivity].
    apply sourceType_beq_true in E. subst s.
    destruct (find _ (import_statuses w)) as [row|] eqn:Ef; [reflexivity|exfalso].
    apply existsb_exists in Ex as (row & Hin & Hrow).
    apply (find_none _ _ Ef) in Hin. congruence.
  - rewrite find_app_first.
    destruct (find _ (import_statuses w)) as [row|] eqn:Ef.
    + apply find_some in Ef as [Hin Hs]. cbn [option_map].
      destruct (SourceType_beq s source) eqn:E; [|reflexivity]. exfalso.
      apply sourceType_beq_true in Hs, E. subst.
      assert (Hex : existsb (fun r => SourceType_beq (ImportStatus.source r)
                                        (ImportStatus.source row)) (import_statuses w) = true).
      { apply existsb_exists. exists row. split; [assumption|apply sourceType_beq_refl]. }
      congruence.
    + cbn [find ImportStatus.source]. rewrite (sourceType_beq_sym source s).
      now destruct (SourceType_beq s source).
Qed.

(** X23. The counters of a commit account for every row: created, updated
    and skipped rows add up to the number of rows of the request.  Only
    the counters of the import type move: tasks for reminders, content
    entries for notes, projects for the project exports.  The count of
    changed rows is added to [imported_count] of the source when it is
    positive; no other import status and no asset changes. *)
Theorem commitImport_counts `{JsDate} `{JsURL} (tsInbox tsStatus : string)
    (env : nat -> CommitRowEnv.t) (payload : ImportCommitRequest.t) (w : Tables) :
  let after := fst (commitImport tsInbox tsStatus env payload w) in
  let r := snd (commitImport tsInbox tsStatus env payload w) in
  let changed := changedOf r in
  (changed + ImportCommitResponse.skippedRows r
   = List.length (ImportCommitRequest.rows payload))%nat
  /\ match ImportCommitRequest.type payload with
     | ImportType.apple_reminders =>
         changed
         = (ImportCommitResponse.createdTasks r + ImportCommitResponse.updatedTasks r)%nat
     | ImportType.apple_notes => changed = ImportCommitResponse.createdContentEntries r
     | ImportType.chatgpt_projects | ImportType.claude_projects =>
         changed
         = (ImportCommitResponse.createdProjects r + ImportCommitResponse.updatedProjects r)%nat
     end
  /\ content_assets after = content_assets w
  /\ forall s,
       importedOf s (import_statuses after)
       = if (0 <? changed)%nat
            && SourceType_beq s (typeToSource (ImportCommitRequest.type payload))
         then Some (match importedOf s (import_statuses w) with
                    | Some old => (old + Z.of_nat changed)%Z
                    | None => Z.of_nat changed
                    end)
         else importedOf s (import_statuses w).
Proof.
  cbv zeta. unfold commitImport.
  set (type := ImportCommitRequest.type payload).
  set (w0 := set_main (ensureInboxProject tsInbox (main w)) w).
  set (c0 := ImportCommitResponse.mk 0 0 0 0 0 0 0).
  set (f := fun row index st => commitRow type INBOX_PROJECT_ID (env index) row st).
  pose proof (forEachIndex_count
                (fun st : Tables * Counters =>
                   (changedOf (snd st) + ImportCommitResponse.skippedRows (snd st))%nat)
                f (normalizeCommitRows payload)
                (fun row i st => proj1 (commitRow_counts type INBOX_PROJECT_ID (env i) row st))
                0%nat (w0, c0)) as Htotal.
  pose proof (forEachIndex_invariant
                (fun st : Tables * Counters =>
                   ImportCommitResponse.updatedContentEntries (snd st) = 0%nat
                   /\ match type with
                      | ImportType.apple_reminders =>
                          ImportCommitResponse.createdProjects (snd st) = 0%nat
                          /\ ImportCommitResponse.updatedProjects (snd st) = 0%nat
                          /\ ImportCommitResponse.createdContentEntries (snd st) = 0%nat
                      | ImportType.apple_notes =>
                          ImportCommitResponse.createdProjects (snd st) = 0%nat
                          /\ ImportCommitResponse.updatedProjects (snd st) = 0%nat
                          /\ ImportCommitResponse.createdTasks (snd st) = 0%nat
                          /\ ImportCommitResponse.updatedTasks (snd st) = 0%nat
                      | ImportType.chatgpt_projects | ImportType.claude_projects =>
                          ImportCommitResponse.createdTasks (snd st) = 0%nat
                          /\ ImportCommitResponse.updatedTasks (snd st) = 0%nat
                          /\ ImportCommitResponse.createdContentEntries (snd st) = 0%nat
                      end)
                f (normalizeCommitRows payload)) as Hkinds.
  pose proof (forEachIndex_invariant
                (fun st : Tables * Counters =>
                   content_assets (fst st) = content_assets w
                   /\ import_statuses (fst st) = import_statuses w)
                f (normalizeCommitRows payload)) as Htables.
  specialize (Hkinds ltac:(intros row i st Hst; unfold f;
    destruct (commitRow_counts type INBOX_PROJECT_ID (env i) row st) as (_ & Hu & Hk);
    destruct Hst as [Hu0 Hk0]; split; [congruence|];
    destruct type; intuition congruence) 0%nat (w0, c0)
    ltac:(cbn; destruct type; repeat split)).
  specialize (Htables ltac:(intros row i st [Ha Hs]; unfold f;
    destruct (commitRow_tables type INBOX_PROJECT_ID (env i) row st) as [Ha' Hs'];
    split; congruence) 0%nat (w0, c0) ltac:(now split)).
  destruct (Js.forEachIndex f (normalizeCommitRows payload) 0%nat (w0, c0)) as [w1 c1].
  cbn [fst snd] in *. destruct Hkinds as [Hu Hk]. destruct Htables as [Ha Hs].
  unfold normalizeCommitRows in Htotal. rewrite length_map in Htotal.
  split; [exact Htotal|]. split.
  - unfold changedOf. destruct type; lia.
  - split.
    + destruct (0 <? changedOf c1)%nat; [|exact Ha]. exact Ha.
    + intros s. destruct (0 <? changedOf c1)%nat; cbn [andb].
      * rewrite bumpImportStatus_imported, Hs. reflexivity.
      * now rewrite Hs.
Qed.

(** X24. A commit leaves the store linked: whatever the rows say (project
    and task ids are taken from the text of the import), afterwards every
    task has its project, every content entry its parent, and the Inbox
    exists, provided tasks and content entries were linked before. *)
Theorem commitImport_keeps_links `{JsDate} `{JsURL} (tsInbox tsStatus : string)
    (env : nat -> CommitRowEnv.t) (payload : ImportCommitRequest.t) (w : Tables) :
  refs_ok (main w) -> content_refs_ok (main w) ->
  linked (main (fst (commitImport tsInbox tsStatus env payload w))).
Proof.
  intros Hr Hc. unfold commitImport.
  set (type := ImportCommitRequest.type payload).
  set (w0 := set_main (ensureInboxProject tsInbox (main w)) w).
  set (c0 := ImportCommitResponse.mk 0 0 0 0 0 0 0).
  set (f := fun row index st => commitRow type INBOX_PROJECT_ID (env index) row st).
  assert (Hstart : linked (main (fst (w0, c0)))).
  { cbn [fst main w0 set_main]. split; [now apply StoreFacts.ensureInboxProject_refs|].
    split; [now apply StoreExtras.ensureInboxProject_content_refs|].
    apply StoreFacts.ensureInboxProject_inbox. }
  pose proof (forEachIndex_invariant (fun st : Tables * Counters => linked (main (fst st)))
                f (normalizeCommitRows payload)
                (fun row i st => commitRow_linked type INBOX_PROJECT_ID (env i) row st)
                0%nat (w0, c0) Hstart) as Hl.
  destruct (Js.forEachIndex f (normalizeCommitRows payload) 0%nat (w0, c0)) as [w1 c1].
  cbn [fst snd] in *. destruct (0 <? changedOf c1)%nat; exact Hl.
Qed.

End CommitExtras.

(** ** The further properties evaluated on the samples *)
Module EvaluationExtras.
Import Sql Store LaneSpec StoreSpec StoreSpec2 Imports MatchSpec.
Import Dashboard Board Content Commit CommitSpec.
Local Open Scope string_scope.

Lemma gappy_unique_ids : unique_ids Sample2.gappy.
Proof. unfold unique_ids. cbn. Evaluation.distinct. Defined.

Lemma lease_id_fresh :
  ~ In (CreateTaskEnv.newId Sample2.newTaskEnv) (map Task.id (tasks Sample.db)).
Proof. cbn. intuition discriminate. Defined.

Lemma next_id_fresh :
  ~ In (CreateTaskEnv.newId (UpdateTaskEnv.spawn Sample.env)) (map Task.id (tasks Sample.db)).
Proof. cbn. intuition discriminate. Defined.

Lemma noted_content_refs : content_refs_ok Sample2.noted.
Proof.
  intros e He. cbn in He. destruct He as [<-|[<-|[<-|[]]]]; reflexivity.
Defined.

Lemma normalizeTaskOrder_dense_witness :
  dense (normalizeTaskOrder Sample2.gappy)
  /\ map Task.order (tasks (normalizeTaskOrder Sample2.gappy)) = [1; 0; 0; 0]%Z.
Proof.
  split; [|reflexivity].
  exact (proj1 (LaneExtras.normalizeTaskOrder_dense Sample2.gappy gappy_unique_ids)).
Defined.

Lemma createTask_appends_witness :
  Task.order (snd (createTask Sample2.newTaskEnv Sample2.newTask Sample.db)) = 2%Z
  /\ dense (fst (createTask Sample2.newTaskEnv Sample2.newTask Sample.db)).
Proof.
  destruct (LaneExtras.createTask_appends Sample2.newTaskEnv Sample2.newTask Sample.db
              Evaluation.sample_unique_ids Evaluation.sample_dense lease_id_fresh)
    as (_ & Horder & _ & Hdense).
  split; [exact Horder|exact Hdense].
Defined.

Lemma updateTask_keeps_dense_witness :
  dense (fst (updateTask (H := UtcDate.runtime) Sample.env "task-rent" Sample.markDone
                Sample.db)).
Proof.
  apply (LaneExtras.updateTask_keeps_dense (H := UtcDate.runtime) Sample.env "task-rent"
           Sample.markDone Sample.db Evaluation.sample_unique_ids Evaluation.sample_dense
           next_id_fresh).
  left. reflexivity.
Defined.

Lemma reorder_places_listed_ids_witness :
  let after := fst (reorderTasksInLane "2026-03-01T08:00:00.000Z" Sample.dragToDone Sample.db) in
  exists t, taskById "task-backfill" after = Some t
            /\ Task.status t = done /\ Task.order t = 1%Z.
Proof.
  cbv zeta.
  refine (proj2 (LaneExtras.reorder_places_listed_ids "2026-03-01T08:00:00.000Z"
                   Sample.dragToDone Sample.db _ _ Evaluation.sample_unique_ids _)
            1%nat "task-backfill" _).
  - vm_compute. reflexivity.
  - reflexivity.
Defined.

Lemma reorder_accepted_iff_witness :
  fst (reorderTasksInLane "2026-03-01T08:00:00.000Z" Sample.dragWithForeignId Sample.db)
  = Sample.db.
Proof.
  apply (proj2 (LaneExtras.reorder_accepted_iff "2026-03-01T08:00:00.000Z"
                  Sample.dragWithForeignId Sample.db Evaluation.sample_unique_ids)).
  reflexivity.
Defined.

Lemma deleteTask_effects_witness :
  snd (deleteTask "task-map" Sample2.noted) = true
  /\ map ContentEntry.id (content_entries (fst (deleteTask "task-map" Sample2.noted)))
     = ["entry-orion"; "entry-rent"].
Proof.
  split; [|reflexivity].
  apply (proj2 (StoreExtras.deleteTask_effects "task-map" Sample2.noted)).
  vm_compute. discriminate.
Defined.

Lemma updateProject_effects_witness :
  option_map Project.completionPercent
    (snd (updateProject "2026-03-01T08:00:00.000Z" "proj-orion" Sample2.overshoot Sample.db))
  = Some 100%Z.
Proof.
  destruct (updateProject "2026-03-01T08:00:00.000Z" "proj-orion" Sample2.overshoot Sample.db)
    as [db' [item|]] eqn:E; [|vm_compute in E; discriminate].
  destruct (proj2 (StoreExtras.updateProject_effects "2026-03-01T08:00:00.000Z" "proj-orion"
                     Sample2.overshoot Sample.db) db' item E) as (_ & Hclamp & _).
  vm_compute in E. injection E as _ <-. reflexivity.
Defined.

Lemma deleteProject_effects_witness :
  let after := fst (deleteProject "2026-03-01T08:00:00.000Z" "proj-orion" Sample2.noted) in
  projectExists after "proj-orion" = false
  /\ In (ContentEntry.mk "entry-orion" parent_project INBOX_PROJECT_ID) (content_entries after).
Proof.
  cbv zeta.
  destruct (proj2 (StoreExtras.deleteProject_effects "2026-03-01T08:00:00.000Z" "proj-orion"
                     Sample2.noted)
              (fst (deleteProject "2026-03-01T08:00:00.000Z" "proj-orion" Sample2.noted)))
    as (Hgone & _ & _ & _ & Hmoved).
  - vm_compute. reflexivity.
  - split; [exact Hgone|].
    apply (Hmoved (ContentEntry.mk "entry-orion" parent_project "proj-orion")).
    + cbn. tauto.
    + reflexivity.
    + reflexivity.
Defined.

Lemma content_refs_preserved_witness :
  content_refs_ok
    (exec (H := UtcDate.runtime) (OpDeleteTask "task-rent")
       (exec (H := UtcDate.runtime) (OpDeleteProject "2026-03-01T08:00:00.000Z" "proj-orion")
          Sample2.noted)).
Proof.
  apply (StoreExtras.content_refs_preserved (H := UtcDate.runtime)).
  eapply (StoreExtras.content_refs_preserved (H := UtcDate.runtime)).
  exact noted_content_refs.
Defined.

Lemma findDuplicate_provenance_witness :
  exists t, In t (tasks Sample.db) /\ Task.source t = apple_reminders
            /\ Task.id t = "task-rent" /\ Task.title t = "Pay Rent".
Proof.
  destruct (proj2 (ImportExtras.findDuplicate_provenance Sample.db apple_reminders entity_task
                     "pay   rent!")
              (ImportDuplicateMatch.mk entity_task "task-rent" "Pay Rent" 1%Q kind_exact))
    as (_ & Hrecord & _).
  - vm_compute. reflexivity.
  - exact Hrecord.
Defined.

Lemma previewImport_rows_witness :
  map ImportPreviewRow.line (ImportPreviewResponse.rows (previewImport Sample.db Sample2.reminders))
  = [2; 3; 4]%nat
  /\ List.length (ImportPreviewResponse.rows (previewImport Sample.db Sample2.reminders))
     = List.length (snd (parseCsv (ImportPreviewRequest.text Sample2.reminders))).
Proof.
  split; [vm_compute; reflexivity|].
  apply (proj2 (proj2 (proj2 (ImportExtras.previewImport_rows Sample.db Sample2.reminders)))).
  vm_compute. left. reflexivity.
Defined.


Lemma sample_ids_nonempty : ids_nonempty Sample.db.
Proof. unfold ids_nonempty. cbn. repeat constructor; discriminate. Defined.

Lemma shown_perm : Permutation (tasks Sample.db) Sample3.shown.
Proof.
  apply (Permutation_cons_app [Sample.backfill; Sample.mapFolders; Sample.validator] []).
  apply (Permutation_cons_app [Sample.backfill] [Sample.validator]).
  apply perm_swap.
Defined.

Lemma dashboard_counts_witness :
  buildDashboardSummary (H := UtcDate.runtime) 1772323200000 Sample3.shown
  = DashboardSummary.mk 1 0 0 0.
Proof.
  rewrite (proj2 (proj2 (proj2 (proj2 (proj2 (proj2
             (DashboardExtras.dashboard_counts (H := UtcDate.runtime) 1772323200000
                Sample.db))))))
             Sample3.shown).
  - vm_compute. reflexivity.
  - exact shown_perm.
Defined.

Lemma reorder_moves_one_task_witness :
  map Task.status
    (tasks (fst (reorderTasksInLane "2026-03-01T08:00:00.000Z" Sample.dragToDone Sample.db)))
  = [done; todo; in_progress; done].
Proof.
  destruct (LaneExtras.reorder_moves_one_task "2026-03-01T08:00:00.000Z" Sample.dragToDone
              Sample.db
              (fst (reorderTasksInLane "2026-03-01T08:00:00.000Z" Sample.dragToDone Sample.db))
              (listTasks
                 (fst (reorderTasksInLane "2026-03-01T08:00:00.000Z" Sample.dragToDone
                         Sample.db)))
              Evaluation.sample_unique_ids eq_refl)
    as (_ & Hstatus & _).
  exact Hstatus.
Defined.

Lemma drop_lands_where_dropped_witness :
  exists db' items,
    reorderRoute "2026-03-01T08:00:00.000Z"
      (ReorderInput.mk "task-validator" todo ["task-rent"; "task-validator"; "task-map"])
      Sample.db = (db', Some items)
    /\ option_map Task.order (taskById "task-validator" db') = Some 1%Z.
Proof.
  destruct (BoardExtras.drop_lands_where_dropped (H := Sample3.codeUnitLocale)
              "2026-03-01T08:00:00.000Z" Sample.db Sample3.shown "task-validator" true todo
              (Some "task-map")
              (ReorderInput.mk "task-validator" todo ["task-rent"; "task-validator"; "task-map"])
              Evaluation.sample_unique_ids sample_ids_nonempty)
    as (db' & items & Hroute & Hplaces & _).
  - apply Permutation_sym, shown_perm.
  - cbn. tauto.
  - vm_compute. reflexivity.
  - exists db', items. split; [exact Hroute|].
    destruct (Hplaces 1%nat "task-validator" eq_refl) as (t & Ht & _ & Ho).
    rewrite Ht. cbn. now rewrite Ho.
Defined.

Lemma content_entry_effects_witness :
  content_entries
    (main (fst (createContentEntry (H := Sample3.schemeUrls) "entry-new" Sample3.rentNote
                  Sample3.tables)))
  = (content_entries Sample2.noted ++ [ContentEntry.mk "entry-new" parent_task "task-rent"])%list.
Proof.
  destruct (proj1 (proj2 (CommitExtras.content_entry_effects (H := Sample3.schemeUrls)
                            "entry-new" Sample3.rentNote Sample3.tables))
              (ContentEntry.mk "entry-new" parent_task "task-rent"))
    as (_ & _ & Hrows & _).
  - vm_compute. reflexivity.
  - exact Hrows.
Defined.

Lemma sample_tables_refs : refs_ok (main Sample3.tables).
Proof. exact Evaluation.sample_refs_ok. Defined.

Lemma commitImport_counts_witness :
  snd (commitImport (H := UtcDate.runtime) (H0 := Sample3.schemeUrls)
         "2026-03-02T09:00:00.000Z" "2026-03-02T09:00:09.000Z" Sample3.rowEnv
         Sample3.reminderRows Sample3.tables)
  = ImportCommitResponse.mk 0 0 1 1 0 0 2
  /\ importedOf apple_reminders
       (import_statuses
          (fst (commitImport (H := UtcDate.runtime) (H0 := Sample3.schemeUrls)
                  "2026-03-02T09:00:00.000Z" "2026-03-02T09:00:09.000Z" Sample3.rowEnv
                  Sample3.reminderRows Sample3.tables)))
     = Some 2%Z.
Proof.
  split; [vm_compute; reflexivity|].
  rewrite (proj2 (proj2 (proj2 (CommitExtras.commitImport_counts (H := UtcDate.runtime)
                                  (H0 := Sample3.schemeUrls) "2026-03-02T09:00:00.000Z"
                                  "2026-03-02T09:00:09.000Z" Sample3.rowEnv
                                  Sample3.reminderRows Sample3.tables)))).
  vm_compute. reflexivity.
Defined.

Lemma commitImport_keeps_links_witness :
  linked
    (main (fst (commitImport (H := UtcDate.runtime) (H0 := Sample3.schemeUrls)
                  "2026-03-02T09:00:00.000Z" "2026-03-02T09:00:09.000Z" Sample3.rowEnv
                  Sample3.reminderRows Sample3.tables))).
Proof.
  apply (CommitExtras.commitImport_keeps_links (H := UtcDate.runtime)
           (H0 := Sample3.schemeUrls)).
  - exact sample_tables_refs.
  - exact noted_content_refs.
Defined.

End EvaluationExtras.
